(** * TinyG configuration subsystem (firmware/tinyg/config.c)

    A shallow embedding of the token-indexed settings registry of the
    TinyG motion-control firmware: the generic typed accessors, the
    gatekeeper functions, the token resolver, the group expander, the
    node list with its shared string arena, and the boot-time
    defaults sequencer. *)

From Stdlib Require Import ZArith Ascii String Bool Lia.
From Stdlib Require Strings.Byte.
From Stdlib Require Import Floats.SpecFloat.
From stdpp Require Import base tactics option list.

Local Open Scope Z_scope.

(** ** C strings held in character arrays *)

Module CStr.

Definition char_t := ascii.
Definition NUL : char_t := "000"%char.

#[global] Instance char_eq_dec : EqDecision char_t := Ascii.ascii_dec.

(** A string literal, as the list of its characters (no terminator). *)
Definition lit (s : string) : list char_t := list_ascii_of_string s.

(** A [list char_t] stands for the bytes found from a pointer up to the
    end of the enclosing array; the end of the array reads as a
    terminator. *)
Fixpoint strlen (s : list char_t) : nat :=
  match s with
  | [] => 0%nat
  | c :: r => if Ascii.eqb c NUL then 0%nat else S (strlen r)
  end.

(** The characters in front of the terminator. *)
Definition chars (s : list char_t) : list char_t := take (strlen s) s.

(** [strcmp(a,b) == 0] *)
Fixpoint streq (a b : list char_t) : bool :=
  match a, b with
  | [], [] => true
  | [], y :: _ => Ascii.eqb y NUL
  | x :: _, [] => Ascii.eqb x NUL
  | x :: a', y :: b' =>
      if Ascii.eqb x y then (if Ascii.eqb x NUL then true else streq a' b')
      else false
  end.

(** Store [bytes] into the array [buf] from offset [off] on.  The array
    keeps its size: what would land behind its last element is not part
    of it. *)
Definition poke (buf : list char_t) (off : nat) (bytes : list char_t) : list char_t :=
  take (length buf) (take off buf ++ bytes ++ drop (off + length bytes) buf).

(** [strcpy(dst, src)]: the characters of [src] and the terminator. *)
Definition strcpy (dst src : list char_t) : list char_t :=
  poke dst 0 (chars src ++ [NUL]).

(** [strncpy(dst, src, n)]: exactly [n] bytes are written, the characters
    of [src] padded with terminators, or its first [n] characters and no
    terminator. *)
Definition strncpy (dst src : list char_t) (n : nat) : list char_t :=
  poke dst 0 (take n (chars src ++ replicate n NUL)).

(** [strncat(dst, src, n)]: at most [n] characters of [src], then a
    terminator, from the terminator of [dst] on. *)
Definition strncat (dst src : list char_t) (n : nat) : list char_t :=
  poke dst (strlen dst) (take n (chars src) ++ [NUL]).

(** [buf[k]] *)
Definition byte_at (buf : list char_t) (k : nat) : char_t := nth k buf NUL.

End CStr.
Import CStr.

(** ** Bytes and 32-bit objects

    The storage locations behind the descriptors are bytes in RAM.  A
    [uint8_t] is one byte; a [uint32_t] and a [float] are four bytes
    each, the least significant byte at the lowest address (avr-gcc and
    arm-gcc both lay them out this way). *)

Module Bytes.

Definition byte := Byte.byte.

#[global] Instance byte_eq_dec : EqDecision byte := Byte.byte_eq_dec.

(** The number a byte holds, and the byte of the low 8 bits of a
    number. *)
Definition Z_of_byte (b : byte) : Z := Z.of_N (Byte.to_N b).

Definition byte_of_Z (z : Z) : byte :=
  match Byte.of_N (Z.to_N (z mod 2 ^ 8)) with
  | Some b => b
  | None => Byte.x00
  end.

(** A 32-bit object, as its four bytes in the order of their
    addresses. *)
Record bytes4 := Build_bytes4 {
  byte0 : byte;
  byte1 : byte;
  byte2 : byte;
  byte3 : byte
}.

#[global] Instance bytes4_eq_dec : EqDecision bytes4.
Proof. solve_decision. Defined.

(** The 32-bit pattern of the object as a number, and the object of the
    low 32 bits of a number. *)
Definition to_bits (x : bytes4) : Z :=
  Z_of_byte (byte0 x) + 2 ^ 8 * Z_of_byte (byte1 x) +
  2 ^ 16 * Z_of_byte (byte2 x) + 2 ^ 24 * Z_of_byte (byte3 x).

Definition of_bits (w : Z) : bytes4 :=
  Build_bytes4 (byte_of_Z w) (byte_of_Z (w / 2 ^ 8))
               (byte_of_Z (w / 2 ^ 16)) (byte_of_Z (w / 2 ^ 24)).

End Bytes.
Import Bytes.

(** ** Single-precision floats

    [nvObj_t.value] and the float targets are C [float]s: four bytes
    that hold an IEEE-754 binary32 pattern, 24 bits of precision.  A
    float is kept as its bytes, so that the casts of [get_data] and
    [set_data] and the copies of [get_flt] and [set_flt] move all 32
    bits; arithmetic, comparison and conversion go through the number
    the pattern stands for. *)

Module F32.

Definition float := bytes4.
Definition prec : Z := 24.
Definition emax : Z := 128.

(** The pattern of a number of the format (NaN as the default quiet
    NaN), and the number a pattern stands for. *)
Definition encode (f : spec_float) : Z :=
  match f with
  | S754_zero s => if s then 2 ^ 31 else 0
  | S754_infinity s => (if s then 2 ^ 31 else 0) + 255 * 2 ^ 23
  | S754_nan => 255 * 2 ^ 23 + 2 ^ 22
  | S754_finite s m e =>
      (if s then 2 ^ 31 else 0) +
      (if Z.pos m <? 2 ^ 23 then Z.pos m
       else (e + 150) * 2 ^ 23 + (Z.pos m - 2 ^ 23))
  end.

Definition decode (w : Z) : spec_float :=
  let s := Z.testbit w 31 in
  let e := Z.land (Z.shiftr w 23) 255 in
  let m := Z.land w (2 ^ 23 - 1) in
  if e =? 0 then
    match m with Z.pos p => S754_finite s p (-149) | _ => S754_zero s end
  else if e =? 255 then
    (if m =? 0 then S754_infinity s else S754_nan)
  else
    match m + 2 ^ 23 with Z.pos p => S754_finite s p (e - 150) | _ => S754_nan end.

Definition of_spec (f : spec_float) : float := of_bits (encode f).
Definition to_spec (x : float) : spec_float := decode (to_bits x).

(** [(float)z] for an integer [z], rounding to nearest even. *)
Definition of_Z (z : Z) : float := of_spec (binary_normalize prec emax z 0 false).

(** The integer part of a float (conversion to an integer type
    truncates toward zero). *)
Definition trunc (x : float) : Z :=
  match to_spec x with
  | S754_finite s m e =>
      let a := if 0 <=? e then Z.pos m * 2 ^ e else Z.pos m / 2 ^ (- e) in
      if s then - a else a
  | _ => 0
  end.

(** [(uint8_t)f] and [(uint32_t)f].  C defines the conversion only when
    the integer part fits the type; otherwise the low bits are kept, as
    the run-time conversion routine followed by the narrowing store
    does. *)
Definition to_u8 (x : float) : Z := trunc x mod 2 ^ 8.
Definition to_u32 (x : float) : Z := trunc x mod 2 ^ 32.

Definition mul (a b : float) : float := of_spec (SFmul prec emax (to_spec a) (to_spec b)).
Definition eqb (a b : float) : bool := SFeqb (to_spec a) (to_spec b).
Definition ltb (a b : float) : bool := SFltb (to_spec a) (to_spec b).
(** [a > b] *)
Definition gtb (a b : float) : bool := SFltb (to_spec b) (to_spec a).

Definition zero : float := of_bits 0.
Definition one : float := of_Z 1.

End F32.

Import F32.

#[global] Arguments Z_of_byte : simpl never.
#[global] Arguments byte_of_Z : simpl never.
#[global] Arguments to_bits : simpl never.
#[global] Arguments of_bits : simpl never.
#[global] Arguments encode : simpl never.
#[global] Arguments decode : simpl never.
#[global] Arguments of_spec : simpl never.
#[global] Arguments to_spec : simpl never.
#[global] Arguments of_Z : simpl never.
#[global] Arguments trunc : simpl never.
#[global] Arguments to_u8 : simpl never.
#[global] Arguments to_u32 : simpl never.
#[global] Arguments mul : simpl never.
#[global] Arguments eqb : simpl never.
#[global] Arguments ltb : simpl never.
#[global] Arguments gtb : simpl never.

(** ** Data model (config.h) *)

(** Modelled from the spec: [TOKEN_LEN] of config.h, which is not part
    of the sources at hand.  Section 3 bounds a token by 5 characters,
    and the resolver compares 5 leading characters. *)
Definition TOKEN_LEN : nat := 5.

(** Modelled from the spec: [GROUP_LEN] of config.h.  Section 3 bounds
    a group by 3 characters. *)
Definition GROUP_LEN : nat := 3.

(** Modelled from the spec: the not-found sentinel of the resolver, the
    largest value of the unsigned 16-bit [index_t]. *)
Definition NO_MATCH : Z := 65535.

(** Modelled from the spec: the descriptor flags of config.h form a
    bitset with the three members INITIALIZE, PERSIST and NO-STRIP; this
    is INITIALIZE. *)
Definition F_INITIALIZE : Z := 1.

(** Modelled from the spec: the PERSIST member of the flags. *)
Definition F_PERSIST : Z := 2.

(** Modelled from the spec: the NO-STRIP member of the flags. *)
Definition F_NOSTRIP : Z := 4.

(** [flags & F] as a C condition *)
Definition flag_set (flags F : Z) : bool := negb (Z.land flags F =? 0).

Inductive valueType :=
  | TYPE_EMPTY | TYPE_NULL | TYPE_INTEGER | TYPE_DATA
  | TYPE_FLOAT | TYPE_STRING | TYPE_PARENT.

Inductive stat_t :=
  | STAT_OK | STAT_NOOP | STAT_INTERNAL_RANGE_ERROR
  | STAT_INPUT_VALUE_UNSUPPORTED | STAT_BUFFER_FULL
  | STAT_UNRECOGNIZED_COMMAND.

Inductive unitsMode := INCHES | MILLIMETERS.
Inductive commMode := TEXT_MODE | JSON_MODE.

#[global] Instance valueType_eq_dec : EqDecision valueType.
Proof. solve_decision. Defined.
#[global] Instance stat_eq_dec : EqDecision stat_t.
Proof. solve_decision. Defined.
#[global] Instance unitsMode_eq_dec : EqDecision unitsMode.
Proof. solve_decision. Defined.
#[global] Instance commMode_eq_dec : EqDecision commMode.
Proof. solve_decision. Defined.

(** The functions of config.c that a descriptor can bind as its [get]
    or [set] behaviour ([fptrCmd]). *)
Inductive fptrCmd :=
  | Fget_nul | Fget_ui8 | Fget_int | Fget_data | Fget_flt | Fget_flu | Fget_grp
  | Fset_nul | Fset_ui8 | Fset_01 | Fset_012 | Fset_0123 | Fset_int
  | Fset_data | Fset_flt | Fset_flu | Fset_grp | Fset_defaults.

(** One entry of [cfgArray] ([cfgItem_t]).  The [print] behaviours live
    in other files and are kept by name; [target] is the address of the
    backing storage location. *)
Record cfgItem := {
  cfg_group : list char_t;
  cfg_token : list char_t;
  cfg_flags : Z;
  cfg_precision : Z;
  cfg_print : string;
  cfg_get : fptrCmd;
  cfg_set : fptrCmd;
  cfg_target : Z;
  cfg_def_value : float
}.

(** A node of the list ([nvObj_t]).  [pv] and [nx] are positions in
    [nv_list], [None] is the null pointer; [token] and [group] are the
    character arrays [token[TOKEN_LEN+1]] and [group[GROUP_LEN+1]];
    [stringp] is an offset into the shared string. *)
Record nvObj := {
  pv : option nat;
  nx : option nat;
  index : Z;
  depth : Z;
  valuetype : valueType;
  precision : Z;
  value : float;
  token : list char_t;
  group : list char_t;
  stringp : option nat
}.

(** The shared string ([nvStr_t]): the write offset, the array
    [string[NV_SHARED_STRING_LEN]], and the bytes that were stored
    behind its last element, each with its offset. *)
Record nvStr_t := {
  wp : nat;
  string_buf : list char_t;
  spilled : list (nat * char_t)
}.

(** What the calls into other modules leave behind. *)
Inductive event :=
  | EvPrint (fn : string) (nv : nvObj)
  | EvWritePersistent (i : Z) (v : float)
  | EvHelpDefa
  | EvLoadingConfigs
  | EvInitializing
  | EvSrInit.

(** The variables config.c works on.  [ram] is the memory the targets
    of the descriptors point into, byte by byte; the locations are read
    and written through casts of the target address to pointers to
    [uint8_t], [uint32_t] and [float].  [nvm] holds the persisted
    records by index. *)
Record state := {
  nvStr : nvStr_t;
  nv_list : list nvObj;
  ram : Z -> byte;
  units_mode : unitsMode;
  comm_mode : commMode;
  nvm : Z -> float;
  trace : list event
}.

(** Assignment to one field. *)
Definition set_pv (x : option nat) (n : nvObj) : nvObj :=
  Build_nvObj x (nx n) (index n) (depth n) (valuetype n) (precision n) (value n) (token n) (group n) (stringp n).
Definition set_nx (x : option nat) (n : nvObj) : nvObj :=
  Build_nvObj (pv n) x (index n) (depth n) (valuetype n) (precision n) (value n) (token n) (group n) (stringp n).
Definition set_index (x : Z) (n : nvObj) : nvObj :=
  Build_nvObj (pv n) (nx n) x (depth n) (valuetype n) (precision n) (value n) (token n) (group n) (stringp n).
Definition set_depth (x : Z) (n : nvObj) : nvObj :=
  Build_nvObj (pv n) (nx n) (index n) x (valuetype n) (precision n) (value n) (token n) (group n) (stringp n).
Definition set_valuetype (x : valueType) (n : nvObj) : nvObj :=
  Build_nvObj (pv n) (nx n) (index n) (depth n) x (precision n) (value n) (token n) (group n) (stringp n).
Definition set_precision (x : Z) (n : nvObj) : nvObj :=
  Build_nvObj (pv n) (nx n) (index n) (depth n) (valuetype n) x (value n) (token n) (group n) (stringp n).
Definition set_value (x : float) (n : nvObj) : nvObj :=
  Build_nvObj (pv n) (nx n) (index n) (depth n) (valuetype n) (precision n) x (token n) (group n) (stringp n).
Definition set_token (x : list char_t) (n : nvObj) : nvObj :=
  Build_nvObj (pv n) (nx n) (index n) (depth n) (valuetype n) (precision n) (value n) x (group n) (stringp n).
Definition set_group (x : list char_t) (n : nvObj) : nvObj :=
  Build_nvObj (pv n) (nx n) (index n) (depth n) (valuetype n) (precision n) (value n) (token n) x (stringp n).
Definition set_stringp (x : option nat) (n : nvObj) : nvObj :=
  Build_nvObj (pv n) (nx n) (index n) (depth n) (valuetype n) (precision n) (value n) (token n) (group n) x.

Definition set_nvStr (x : nvStr_t) (s : state) : state :=
  Build_state x (nv_list s) (ram s) (units_mode s) (comm_mode s) (nvm s) (trace s).
Definition set_nv_list (x : list nvObj) (s : state) : state :=
  Build_state (nvStr s) x (ram s) (units_mode s) (comm_mode s) (nvm s) (trace s).
Definition set_ram (x : Z -> byte) (s : state) : state :=
  Build_state (nvStr s) (nv_list s) x (units_mode s) (comm_mode s) (nvm s) (trace s).
Definition set_units_mode (x : unitsMode) (s : state) : state :=
  Build_state (nvStr s) (nv_list s) (ram s) x (comm_mode s) (nvm s) (trace s).
Definition set_nvm (x : Z -> float) (s : state) : state :=
  Build_state (nvStr s) (nv_list s) (ram s) (units_mode s) (comm_mode s) x (trace s).
Definition emit (e : event) (s : state) : state :=
  Build_state (nvStr s) (nv_list s) (ram s) (units_mode s) (comm_mode s) (nvm s) (trace s ++ [e]).

(** [m[a] = v] on a store indexed by address or record number. *)
Definition upd {A : Type} (m : Z -> A) (a : Z) (v : A) : Z -> A :=
  fun x => if x =? a then v else m x.

(** What a [uint8_t], a [float] and a [uint32_t] pointer to address
    [a] read. *)
Definition ram_u8 (st : state) (a : Z) : Z := Z_of_byte (ram st a).

Definition ram_flt (st : state) (a : Z) : float :=
  Build_bytes4 (ram st a) (ram st (a + 1)) (ram st (a + 2)) (ram st (a + 3)).

Definition ram_u32 (st : state) (a : Z) : Z := to_bits (ram_flt st a).

(** The store of [z], [v] and [w] through a [uint8_t], a [float] and a
    [uint32_t] pointer to address [a]. *)
Definition store_u8 (st : state) (a : Z) (z : Z) : state :=
  set_ram (upd (ram st) a (byte_of_Z z)) st.

Definition store_flt (st : state) (a : Z) (v : float) : state :=
  set_ram (upd (upd (upd (upd (ram st) a (byte0 v)) (a + 1) (byte1 v))
                    (a + 2) (byte2 v)) (a + 3) (byte3 v)) st.

Definition store_u32 (st : state) (a : Z) (w : Z) : state :=
  store_flt st a (of_bits w).

(** ** A small configuration

    A table in the shape of the one in config_app.c, with sizes in the
    shape of config.h, to run the code on. *)

Module Demo.

Definition item (g t : string) (fl pr : Z) (pf : string)
    (get set : fptrCmd) (tgt : Z) (def : Z) : cfgItem :=
  Build_cfgItem (lit g) (lit t) fl pr pf get set tgt (of_Z def).

Definition cfgArray : list cfgItem := [
  item "sys" "fb"   7 2 "hw_print_fb"   Fget_flt Fset_nul  0  440;
  item "sys" "gun"  7 0 "cm_print_gun"  Fget_ui8 Fset_01   4  1;
  item "x"   "xam"  3 0 "cm_print_am"   Fget_ui8 Fset_012  5  1;
  item "x"   "xvm"  3 0 "cm_print_vm"   Fget_flu Fset_flu  8  800;
  item "x"   "xfr"  3 0 "cm_print_fr"   Fget_flu Fset_flu  12 600;
  item "y"   "yvm"  3 0 "cm_print_vm"   Fget_flu Fset_flu  16 700;
  item ""    "mt"   1 2 "st_print_mt"   Fget_flt Fset_flt  20 2;
  item ""    "se00" 2 0 "tx_print_nul"  Fget_int Fset_int  24 0;
  item ""    "sys"  0 0 "tx_print_nul"  Fget_grp Fset_grp  28 0;
  item ""    "x"    0 0 "tx_print_nul"  Fget_grp Fset_grp  28 0;
  item ""    "y"    0 0 "tx_print_nul"  Fget_grp Fset_grp  28 0
].

Definition cfg_beyond : cfgItem :=
  item "" "" 0 0 "" Fget_nul Fset_nul 0 0.

Definition NV_INDEX_END_SINGLES : Z := 7.
Definition NV_INDEX_START_GROUPS : Z := 8.
Definition NV_BODY_LEN : nat := 30.
Definition NV_MAX_OBJECTS : nat := 29.
Definition NV_LIST_LEN : nat := 32.
Definition NV_SHARED_STRING_LEN : nat := 512.

(** 25.4 in single precision *)
Definition MM_PER_INCH : float := of_spec (S754_finite false 13316915 (-19)).
(** [a < EPSILON] with EPSILON = 0.00001 in single precision *)
Definition fp_FALSE (a : float) : bool :=
  ltb a (of_spec (S754_finite false 10995116 (-40))).
Definition fw_build : float := of_Z 440.

Definition stack : list char_t := lit "?????????".

Definition blank : nvObj :=
  Build_nvObj None None 0 0 TYPE_EMPTY 0 zero
              (replicate (TOKEN_LEN + 1) NUL) (replicate (GROUP_LEN + 1) NUL) None.

(** A record of an erased nonvolatile store: all bits set, which
    reads as a NaN. *)
Definition erased : float := of_bits (2 ^ 32 - 1).

(** The variables after a hard reset, with an erased nonvolatile
    store. *)
Definition power_on : state :=
  Build_state (Build_nvStr_t 0 (replicate NV_SHARED_STRING_LEN NUL) [])
              (replicate NV_LIST_LEN blank)
              (fun _ => Byte.x00)
              MILLIMETERS JSON_MODE (fun _ => erased) [].

(** 1.5 and -1 in single precision *)
Definition one_and_a_half : float := of_spec (S754_finite false 12582912 (-23)).
Definition minus_one : float := of_spec (S754_finite true 8388608 (-23)).

End Demo.

(** ** The code of config.c *)

Section Config.

(** *** What config.c takes from the rest of the firmware *)

(** The descriptor table of config_app.c, and what a read behind its
    last entry would find. *)
Variable cfgArray : list cfgItem.
Variable cfg_beyond : cfgItem.

(** Table boundaries (config_app.c) and list sizes (config.h). *)
Variable NV_INDEX_END_SINGLES : Z.
Variable NV_INDEX_START_GROUPS : Z.
Variable NV_BODY_LEN : nat.
Variable NV_MAX_OBJECTS : nat.
Variable NV_SHARED_STRING_LEN : nat.

(** [MM_PER_INCH], [fp_FALSE] (util.h), [cs.fw_build] as set up before
    [config_init] runs, and whether [__DISABLE_PERSISTENCE] is defined. *)
Variable MM_PER_INCH : float.
Variable fp_FALSE : float -> bool.
Variable fw_build : float.
Variable DISABLE_PERSISTENCE : bool.

(** The content automatic arrays start with is indeterminate. *)
Variable stack : list char_t.

Definition auto_array (n : nat) : list char_t :=
  take n (stack ++ replicate n NUL).

(** [cfgArray[i]] *)
Definition cfg_at (i : Z) : cfgItem := nth (Z.to_nat i) cfgArray cfg_beyond.

(** Modelled from the spec: [nv_index_max] of config_app.c, the
    descriptor count. *)
Definition nv_index_max : Z := Z.of_nat (length cfgArray).

(** Modelled from the spec: [nv_index_is_single] of config_app.c.  The
    single-valued descriptors come first in the table, up to the index
    [NV_INDEX_END_SINGLES]. *)
Definition nv_index_is_single (i : Z) : bool := i <=? NV_INDEX_END_SINGLES.

(** Modelled from the spec: [nv_index_lt_groups] of config_app.c.  The
    groups follow the single-valued descriptors, from the index
    [NV_INDEX_START_GROUPS] on; an index behind it addresses a group
    only. *)
Definition nv_index_lt_groups (i : Z) : bool := i <=? NV_INDEX_START_GROUPS.

(** Modelled from the spec: [read_persistent_value] of persistence.c,
    [read_record(index) -> value]: one raw 32-bit value per record, at
    the position of the node's index, read into the node's value. *)
Definition read_persistent_value (st : state) (nv : nvObj) : nvObj :=
  set_value (nvm st (index nv)) nv.

(** Modelled from the spec: [write_persistent_value] of persistence.c,
    [write_record(index, value)]: the node's value goes to the record at
    the position of its index. *)
Definition write_persistent_value (st : state) (nv : nvObj) : state :=
  emit (EvWritePersistent (index nv) (value nv))
       (set_nvm (upd (nvm st) (index nv) (value nv)) st).

(** Modelled from the spec: [nv_body] of config.h, the first node of
    the body; the header is [nv_list[0]] and the body follows it. *)
Definition nv_body : nat := 1%nat.

(** *** Generic gets and sets

    Each takes the node it is called on and gives back the status, the
    variables and the node.  [GET_TABLE_WORD(x)] is
    [cfgArray[nv->index].x]. *)

Definition get_nul (st : state) (nv : nvObj) : stat_t * state * nvObj :=
  (STAT_NOOP, st, set_valuetype TYPE_NULL nv).

Definition get_ui8 (st : state) (nv : nvObj) : stat_t * state * nvObj :=
  let nv := set_value (of_Z (ram_u8 st (cfg_target (cfg_at (index nv))))) nv in
  (STAT_OK, st, set_valuetype TYPE_INTEGER nv).

Definition get_int (st : state) (nv : nvObj) : stat_t * state * nvObj :=
  let nv := set_value (of_Z (ram_u32 st (cfg_target (cfg_at (index nv))))) nv in
  (STAT_OK, st, set_valuetype TYPE_INTEGER nv).

Definition get_data (st : state) (nv : nvObj) : stat_t * state * nvObj :=
  let nv := set_value (of_bits (ram_u32 st (cfg_target (cfg_at (index nv))))) nv in
  (STAT_OK, st, set_valuetype TYPE_DATA nv).

Definition get_flt (st : state) (nv : nvObj) : stat_t * state * nvObj :=
  let nv := set_value (ram_flt st (cfg_target (cfg_at (index nv)))) nv in
  let nv := set_precision (cfg_precision (cfg_at (index nv))) nv in
  (STAT_OK, st, set_valuetype TYPE_FLOAT nv).

Definition set_nul (st : state) (nv : nvObj) : stat_t * state * nvObj :=
  (STAT_NOOP, st, nv).

Definition set_ui8 (st : state) (nv : nvObj) : stat_t * state * nvObj :=
  let st := store_u8 st (cfg_target (cfg_at (index nv))) (to_u8 (value nv)) in
  (STAT_OK, st, set_valuetype TYPE_INTEGER nv).

Definition set_01 (st : state) (nv : nvObj) : stat_t * state * nvObj :=
  if gtb (value nv) (of_Z 1) then (STAT_INPUT_VALUE_UNSUPPORTED, st, nv)
  else set_ui8 st nv.

Definition set_012 (st : state) (nv : nvObj) : stat_t * state * nvObj :=
  if gtb (value nv) (of_Z 2) then (STAT_INPUT_VALUE_UNSUPPORTED, st, nv)
  else set_ui8 st nv.

Definition set_0123 (st : state) (nv : nvObj) : stat_t * state * nvObj :=
  if gtb (value nv) (of_Z 3) then (STAT_INPUT_VALUE_UNSUPPORTED, st, nv)
  else set_ui8 st nv.

Definition set_int (st : state) (nv : nvObj) : stat_t * state * nvObj :=
  let st := store_u32 st (cfg_target (cfg_at (index nv))) (to_u32 (value nv)) in
  (STAT_OK, st, set_valuetype TYPE_INTEGER nv).

Definition set_data (st : state) (nv : nvObj) : stat_t * state * nvObj :=
  let st := store_u32 st (cfg_target (cfg_at (index nv))) (to_bits (value nv)) in
  (STAT_OK, st, set_valuetype TYPE_DATA nv).

Definition set_flt (st : state) (nv : nvObj) : stat_t * state * nvObj :=
  let st := store_flt st (cfg_target (cfg_at (index nv))) (value nv) in
  let nv := set_precision (cfg_precision (cfg_at (index nv))) nv in
  (STAT_OK, st, set_valuetype TYPE_FLOAT nv).

(** *** Gcode specific extensions: length units *)

Definition get_flu (st : state) (nv : nvObj) : stat_t * state * nvObj :=
  get_flt st nv.

Definition set_flu (st : state) (nv : nvObj) : stat_t * state * nvObj :=
  let nv := if decide (units_mode st = INCHES)
            then set_value (mul (value nv) MM_PER_INCH) nv else nv in
  let st := store_flt st (cfg_target (cfg_at (index nv))) (value nv) in
  let nv := set_precision (cfg_precision (cfg_at (index nv))) nv in
  (STAT_OK, st, set_valuetype TYPE_FLOAT nv).

(** *** Nodes of the list, addressed by position

    A node pointer is a position in [nv_list].  A function that is
    handed a position outside the list has no result ([None]). *)

Definition node_upd (st : state) (p : nat) (f : nvObj -> nvObj) : option state :=
  nv ← nv_list st !! p;
  Some (set_nv_list (<[p := f nv]> (nv_list st)) st).

Definition on_node (f : state -> nvObj -> stat_t * state * nvObj)
    (st : state) (p : nat) : option (stat_t * state) :=
  nv ← nv_list st !! p;
  let '(r, st', nv') := f st nv in
  Some (r, set_nv_list (<[p := nv']> (nv_list st')) st').

(** [nv_reset_nvObj]: clear a single node, keep its links, set its depth
    from its predecessor. *)
Definition nv_reset_nvObj (st : state) (p : nat) : option state :=
  nv ← nv_list st !! p;
  let nv := set_valuetype TYPE_EMPTY nv in
  let nv := set_index 0 nv in
  let nv := set_value zero nv in
  let nv := set_precision 0 nv in
  let nv := set_token (poke (token nv) 0 [NUL]) nv in
  let nv := set_group (poke (group nv) 0 [NUL]) nv in
  let nv := set_stringp None nv in
  d ← match pv nv with
      | None => Some 0
      | Some q =>
          pvn ← nv_list st !! q;
          Some (if decide (valuetype pvn = TYPE_PARENT)
                then depth pvn + 1 else depth pvn)
      end;
  Some (set_nv_list (<[p := set_depth d nv]> (nv_list st)) st).

(** [nv_reset_nvObj_list]: clear the header and response body.  The loop
    leaves bogus links at both ends which the statements after it
    correct; the links are written here as corrected.  Returns
    [nv_body]. *)
Definition nv_reset_nvObj_list (st : state) : state * nat :=
  let n := length (nv_list st) in
  let clear (i : nat) (nv : nvObj) :=
    let nv := set_pv (match i with O => None | S j => Some j end) nv in
    let nv := set_nx (if decide (S i = n) then None else Some (S i)) nv in
    let nv := set_index 0 nv in
    let nv := set_depth 1 nv in
    let nv := set_precision 0 nv in
    let nv := set_valuetype TYPE_EMPTY nv in
    set_token (poke (token nv) 0 [NUL]) nv in
  let header (nv : nvObj) :=
    let nv := set_pv None nv in
    let nv := set_depth 0 nv in
    let nv := set_valuetype TYPE_PARENT nv in
    set_token (strcpy (token nv) (lit "r")) nv in
  let st := set_nvStr (Build_nvStr_t 0 (string_buf (nvStr st)) (spilled (nvStr st))) st in
  (set_nv_list (alter header 0%nat (imap clear (nv_list st))) st, nv_body).

(** [nv_copy_string]: write a string to the shared string storage and
    link it.  The bytes of [strcpy] that fall behind the array are
    recorded in [spilled]. *)
Definition nv_copy_string (st : state) (p : nat) (src : list char_t)
  : option (stat_t * state) :=
  let s := nvStr st in
  if (NV_SHARED_STRING_LEN <? wp s + strlen src)%nat then Some (STAT_BUFFER_FULL, st)
  else
    let dst := wp s in
    let bytes := chars src ++ [NUL] in
    let cap := length (string_buf s) in
    let out := imap (fun k c => ((Nat.max cap dst + k)%nat, c)) (drop (cap - dst) bytes) in
    let s := Build_nvStr_t (wp s + (strlen src + 1)) (poke (string_buf s) dst bytes)
                           (spilled s ++ out) in
    st ← node_upd (set_nvStr s st) p (set_stringp (Some dst));
    Some (STAT_OK, st).

(** [nv_get_index]: get the index from the group and the mnemonic
    token.  One pass over the table; the comparison of one entry is
    [token_cmp]. *)
Definition token_cmp (tok str : list char_t) : bool :=
  if negb (Ascii.eqb (byte_at tok 0) (byte_at str 0)) then false else
  if Ascii.eqb (byte_at tok 1) NUL && Ascii.eqb (byte_at str 1) NUL then true else
  if negb (Ascii.eqb (byte_at tok 1) (byte_at str 1)) then false else
  if Ascii.eqb (byte_at tok 2) NUL && Ascii.eqb (byte_at str 2) NUL then true else
  if negb (Ascii.eqb (byte_at tok 2) (byte_at str 2)) then false else
  if Ascii.eqb (byte_at tok 3) NUL && Ascii.eqb (byte_at str 3) NUL then true else
  if negb (Ascii.eqb (byte_at tok 3) (byte_at str 3)) then false else
  if Ascii.eqb (byte_at tok 4) NUL && Ascii.eqb (byte_at str 4) NUL then true else
  if negb (Ascii.eqb (byte_at tok 4) (byte_at str 4)) then false else
  true.

Fixpoint nv_get_index_scan (str : list char_t) (i : Z) (tbl : list cfgItem) : Z :=
  match tbl with
  | [] => NO_MATCH
  | d :: tbl' =>
      if token_cmp (cfg_token d) str then i
      else nv_get_index_scan str (i + 1) tbl'
  end.

Definition nv_get_index (group token : list char_t) : Z :=
  let str := auto_array (TOKEN_LEN + GROUP_LEN + 1) in
  let str := strncpy str group (GROUP_LEN + 1) in
  let str := strncat str token (TOKEN_LEN + 1) in
  nv_get_index_scan str 0 cfgArray.

(** *** Gatekeepers, group operations and defaults

    A bound behaviour is called through the table.  [call] stands for
    that call; [run_cmd] below ties it to the functions of this file. *)

Section Dispatch.

Variable call : fptrCmd -> state -> nat -> option (stat_t * state).

Definition nv_set_with (st : state) (p : nat) : option (stat_t * state) :=
  nv ← nv_list st !! p;
  if nv_index_max <=? index nv then Some (STAT_INTERNAL_RANGE_ERROR, st)
  else call (cfg_set (cfg_at (index nv))) st p.

Definition nv_get_with (st : state) (p : nat) : option (stat_t * state) :=
  nv ← nv_list st !! p;
  if nv_index_max <=? index nv then Some (STAT_INTERNAL_RANGE_ERROR, st)
  else call (cfg_get (cfg_at (index nv))) st p.

(** [nv_get_nvObj]: set up a node from its index and populate it. *)
Definition nv_get_nvObj_with (st : state) (p : nat) : option state :=
  nv ← nv_list st !! p;
  if nv_index_max <=? index nv then Some st
  else
    let tmp := index nv in
    st ← nv_reset_nvObj st p;
    st ← node_upd st p (set_index tmp);
    st ← node_upd st p (fun nv => set_token (strcpy (token nv) (cfg_token (cfg_at (index nv)))) nv);
    st ← node_upd st p (fun nv => set_group (strcpy (group nv) (cfg_group (cfg_at (index nv)))) nv);
    st ← node_upd st p (fun nv =>
            if negb (Ascii.eqb (byte_at (group nv) 0) NUL) then
              if flag_set (cfg_flags (cfg_at (index nv))) F_NOSTRIP
              then set_group (poke (group nv) 0 [NUL]) nv
              else set_token (strcpy (token nv) (drop (strlen (group nv)) (token nv))) nv
            else nv);
    nv ← nv_list st !! p;
    r ← call (cfg_get (cfg_at (index nv))) st p;
    Some r.2.

(** [get_grp]: the loop over the single-valued entries.  [parent] is
    the node whose token names the group ([parent_group] points into
    it), [cur] the node [nv] points to. *)
Fixpoint get_grp_loop (ixs : list Z) (st : state) (parent cur : nat) : option state :=
  match ixs with
  | [] => Some st
  | i :: ixs' =>
      pn ← nv_list st !! parent;
      let group := strcpy (auto_array (GROUP_LEN + 1)) (cfg_group (cfg_at i)) in
      if negb (streq (token pn) group) then get_grp_loop ixs' st parent cur
      else
        st ← node_upd st (S cur) (set_index i);
        st ← nv_get_nvObj_with st (S cur);
        get_grp_loop ixs' st parent (S cur)
  end.

Definition get_grp_with (st : state) (p : nat) : option (stat_t * state) :=
  st ← node_upd st p (set_valuetype TYPE_PARENT);
  st ← get_grp_loop (seqZ 0 (NV_INDEX_END_SINGLES + 1)) st p p;
  Some (STAT_OK, st).

(** [nv_persist] *)
Definition nv_persist (st : state) (p : nat) : option state :=
  nv ← nv_list st !! p;
  if DISABLE_PERSISTENCE then Some st
  else if negb (nv_index_lt_groups (index nv)) then Some st
  else if flag_set (cfg_flags (cfg_at (index nv))) F_PERSIST
       then Some (write_persistent_value st nv)
       else Some st.

(** [nv_print]; the bound printer is a function of another file. *)
Definition nv_print (st : state) (p : nat) : option state :=
  nv ← nv_list st !! p;
  if nv_index_max <=? index nv then Some st
  else Some (emit (EvPrint (cfg_print (cfg_at (index nv))) nv) st).

(** [set_grp]: get or set the members that follow the node. *)
Fixpoint set_grp_loop (n : nat) (st : state) (p : nat) : option state :=
  match n with
  | O => Some st
  | S n' =>
      nv ← nv_list st !! p;
      match nx nv with
      | None => Some st
      | Some q =>
          nvq ← nv_list st !! q;
          if decide (valuetype nvq = TYPE_EMPTY) then Some st
          else if decide (valuetype nvq = TYPE_NULL) then
            r ← nv_get_with st q;
            set_grp_loop n' r.2 q
          else
            r ← nv_set_with st q;
            st ← nv_persist r.2 q;
            set_grp_loop n' st q
      end
  end.

Definition set_grp_with (st : state) (p : nat) : option (stat_t * state) :=
  if decide (comm_mode st = TEXT_MODE) then Some (STAT_UNRECOGNIZED_COMMAND, st)
  else
    st ← set_grp_loop NV_MAX_OBJECTS st p;
    Some (STAT_OK, st).

(** [set_defaults]: the loop counts in [nv->index]; [n] bounds the
    number of times its condition is evaluated. *)
Fixpoint set_defaults_loop (n : nat) (st : state) (p : nat) : option state :=
  match n with
  | O => None
  | S n' =>
      nv ← nv_list st !! p;
      if nv_index_is_single (index nv) then
        st ← (if flag_set (cfg_flags (cfg_at (index nv))) F_INITIALIZE then
                st ← node_upd st p (fun nv => set_value (cfg_def_value (cfg_at (index nv))) nv);
                st ← node_upd st p (fun nv =>
                       set_token (strncpy (token nv) (cfg_token (cfg_at (index nv))) TOKEN_LEN) nv);
                r ← nv_set_with st p;
                nv_persist r.2 p
              else Some st);
        st ← node_upd st p (fun nv => set_index (index nv + 1) nv);
        set_defaults_loop n' st p
      else Some st
  end.

Definition set_defaults_with (n : nat) (st : state) (p : nat) : option (stat_t * state) :=
  nv ← nv_list st !! p;
  if fp_FALSE (value nv) then Some (STAT_OK, emit EvHelpDefa st)
  else
    let st := set_units_mode MILLIMETERS st in
    st ← node_upd st p (set_index 0);
    st ← set_defaults_loop n st p;
    Some (STAT_OK, emit EvSrInit (emit EvInitializing st)).

(** [config_init]: the loop of case (2), counting in [nv->index]. *)
Fixpoint config_init_loop (n : nat) (st : state) (p : nat) : option state :=
  match n with
  | O => None
  | S n' =>
      nv ← nv_list st !! p;
      if nv_index_is_single (index nv) then
        st ← (if flag_set (cfg_flags (cfg_at (index nv))) F_INITIALIZE then
                st ← node_upd st p (fun nv =>
                       set_token (strncpy (token nv) (cfg_token (cfg_at (index nv))) TOKEN_LEN) nv);
                st ← node_upd st p (read_persistent_value st);
                r ← nv_set_with st p;
                Some r.2
              else Some st);
        st ← node_upd st p (fun nv => set_index (index nv + 1) nv);
        config_init_loop n' st p
      else Some st
  end.

(** [config_init]: called once on hard reset.  The guard words it sets
    ([magic_start], [magic_end]) play no part in what follows and are
    left out. *)
Definition config_init_with (n : nat) (st : state) : option state :=
  let '(st, p) := nv_reset_nvObj_list st in
  let st := set_units_mode MILLIMETERS st in
  st ← node_upd st p (set_index 0);
  st ← node_upd st p (read_persistent_value st);
  nv ← nv_list st !! p;
  if negb (eqb (value nv) fw_build) then
    st ← node_upd st p (set_value one);
    r ← set_defaults_with n st p;
    Some r.2
  else
    let st := emit EvLoadingConfigs st in
    st ← node_upd st p (set_index 0);
    st ← config_init_loop n st p;
    Some (emit EvSrInit st).

End Dispatch.

(** The call of a bound behaviour.  [fuel] bounds how deep the group
    and defaults functions may call into each other through the table,
    and how often their loops evaluate their conditions. *)
Fixpoint run_cmd (fuel : nat) (f : fptrCmd) (st : state) (p : nat)
  : option (stat_t * state) :=
  match f with
  | Fget_nul => on_node get_nul st p
  | Fget_ui8 => on_node get_ui8 st p
  | Fget_int => on_node get_int st p
  | Fget_data => on_node get_data st p
  | Fget_flt => on_node get_flt st p
  | Fget_flu => on_node get_flu st p
  | Fset_nul => on_node set_nul st p
  | Fset_ui8 => on_node set_ui8 st p
  | Fset_01 => on_node set_01 st p
  | Fset_012 => on_node set_012 st p
  | Fset_0123 => on_node set_0123 st p
  | Fset_int => on_node set_int st p
  | Fset_data => on_node set_data st p
  | Fset_flt => on_node set_flt st p
  | Fset_flu => on_node set_flu st p
  | Fget_grp =>
      match fuel with O => None | S n => get_grp_with (run_cmd n) st p end
  | Fset_grp =>
      match fuel with O => None | S n => set_grp_with (run_cmd n) st p end
  | Fset_defaults =>
      match fuel with O => None | S n => set_defaults_with (run_cmd n) n st p end
  end.

Definition nv_set (fuel : nat) := nv_set_with (run_cmd fuel).
Definition nv_get (fuel : nat) := nv_get_with (run_cmd fuel).
Definition nv_get_nvObj (fuel : nat) := nv_get_nvObj_with (run_cmd fuel).
Definition get_grp (fuel : nat) := get_grp_with (run_cmd fuel).
Definition set_grp (fuel : nat) := set_grp_with (run_cmd fuel).
Definition set_defaults (fuel : nat) := set_defaults_with (run_cmd fuel) fuel.
Definition config_init (fuel : nat) := config_init_with (run_cmd fuel) fuel.

(** [nv_add_string]: add a string object to the end of the body.  The
    result is the node that was written, or [None] for the null
    pointer. *)
Fixpoint nv_add_string_loop (n : nat) (st : state) (p : nat)
    (tok str : list char_t) : option (option nat * state) :=
  match n with
  | O => Some (None, st)
  | S n' =>
      nv ← nv_list st !! p;
      if negb (bool_decide (valuetype nv = TYPE_EMPTY)) then
        match nx nv with
        | None => Some (None, st)
        | Some q => nv_add_string_loop n' st q tok str
        end
      else
        st ← node_upd st p (fun nv => set_token (strncpy (token nv) tok TOKEN_LEN) nv);
        r ← nv_copy_string st p str;
        if negb (bool_decide (r.1 = STAT_OK)) then Some (None, r.2)
        else
          st ← node_upd r.2 p (fun nv => set_index (nv_get_index [] (token nv)) nv);
          st ← node_upd st p (set_valuetype TYPE_STRING);
          Some (Some p, st)
  end.

Definition nv_add_string (st : state) (tok str : list char_t)
  : option (option nat * state) :=
  nv_add_string_loop NV_BODY_LEN st nv_body tok str.


(** ** Properties *)

(** *** Stores and arrays *)

Lemma upd_same {A : Type} (m : Z -> A) (a : Z) (v : A) : upd m a v a = v.
Proof. unfold upd. by rewrite Z.eqb_refl. Qed.

Lemma upd_other {A : Type} (m : Z -> A) (a b : Z) (v : A) :
  b <> a -> upd m a v b = m b.
Proof. intros Hne. unfold upd. destruct (Z.eqb_spec b a); [done | reflexivity]. Qed.

(** *** Bytes, 32-bit objects and memory *)

Lemma Z_of_byte_range (b : byte) : 0 <= Z_of_byte b < 2 ^ 8.
Proof.
  unfold Z_of_byte. pose proof (Byte.to_N_bounded b). lia.
Qed.

Lemma Z_of_byte_of_Z (z : Z) : Z_of_byte (byte_of_Z z) = z mod 2 ^ 8.
Proof.
  unfold Z_of_byte, byte_of_Z.
  pose proof (Z.mod_pos_bound z (2 ^ 8) ltac:(lia)) as Hr.
  destruct (Byte.of_N (Z.to_N (z mod 2 ^ 8))) as [b|] eqn:Hb.
  - apply Byte.to_of_N in Hb. rewrite Hb. lia.
  - apply Byte.of_N_None_iff in Hb. lia.
Qed.

Lemma byte_of_Z_eq (z : Z) (b : byte) : z mod 2 ^ 8 = Z_of_byte b -> byte_of_Z z = b.
Proof.
  intros Hz. unfold byte_of_Z, Z_of_byte in *. rewrite Hz, N2Z.id.
  by rewrite Byte.of_to_N.
Qed.

Lemma byte_of_Z_of_byte (b : byte) : byte_of_Z (Z_of_byte b) = b.
Proof.
  apply byte_of_Z_eq, Z.mod_small, Z_of_byte_range.
Qed.

Lemma to_bits_range (x : bytes4) : 0 <= to_bits x < 2 ^ 32.
Proof.
  unfold to_bits.
  pose proof (Z_of_byte_range (byte0 x)). pose proof (Z_of_byte_range (byte1 x)).
  pose proof (Z_of_byte_range (byte2 x)). pose proof (Z_of_byte_range (byte3 x)).
  lia.
Qed.


(** The pattern of the object of a number is its low 32 bits. *)
Lemma to_bits_of_bits (w : Z) : to_bits (of_bits w) = w mod 2 ^ 32.
Proof.
  unfold to_bits, of_bits. cbn [byte0 byte1 byte2 byte3].
  rewrite !Z_of_byte_of_Z.
  change (2 ^ 8) with 256. change (2 ^ 16) with 65536. change (2 ^ 24) with 16777216.
  change (2 ^ 32) with 4294967296.
  pose proof (Z.div_mod w 256 ltac:(lia)) as H0.
  pose proof (Z.div_mod (w / 256) 256 ltac:(lia)) as H1.
  pose proof (Z.div_mod (w / 65536) 256 ltac:(lia)) as H2.
  pose proof (Z.div_mod (w / 16777216) 256 ltac:(lia)) as H3.
  pose proof (Z.mod_pos_bound w 256 ltac:(lia)).
  pose proof (Z.mod_pos_bound (w / 256) 256 ltac:(lia)).
  pose proof (Z.mod_pos_bound (w / 65536) 256 ltac:(lia)).
  pose proof (Z.mod_pos_bound (w / 16777216) 256 ltac:(lia)).
  assert (E1 : w / 256 / 256 = w / 65536) by (rewrite Z.div_div by lia; reflexivity).
  assert (E2 : w / 65536 / 256 = w / 16777216) by (rewrite Z.div_div by lia; reflexivity).
  rewrite E1 in H1. rewrite E2 in H2.
  apply (Z.mod_unique_pos _ _ (w / 16777216 / 256)); lia.
Qed.

Lemma to_bits_of_bits_small (w : Z) : 0 <= w < 2 ^ 32 -> to_bits (of_bits w) = w.
Proof. intros Hw. rewrite to_bits_of_bits. by apply Z.mod_small. Qed.


Lemma ram_u8_store_u8 (st : state) (a z : Z) : ram_u8 (store_u8 st a z) a = z mod 2 ^ 8.
Proof. unfold ram_u8, store_u8. simpl. by rewrite upd_same, Z_of_byte_of_Z. Qed.

Lemma ram_flt_store_flt (st : state) (a : Z) (v : float) :
  ram_flt (store_flt st a v) a = v.
Proof.
  destruct v as [b0 b1 b2 b3]. unfold ram_flt, store_flt. simpl.
  rewrite upd_same. rewrite !(upd_other _ (a + 3)) by lia.
  rewrite upd_same. rewrite !(upd_other _ (a + 2)) by lia.
  rewrite upd_same. rewrite !(upd_other _ (a + 1)) by lia.
  by rewrite upd_same.
Qed.

Lemma ram_u32_store_u32 (st : state) (a w : Z) :
  ram_u32 (store_u32 st a w) a = w mod 2 ^ 32.
Proof. unfold ram_u32, store_u32. by rewrite ram_flt_store_flt, to_bits_of_bits. Qed.

(** A store changes the bytes of the object it writes and no other
    byte. *)
Lemma ram_store_u8_other (st : state) (a z x : Z) :
  x <> a -> ram (store_u8 st a z) x = ram st x.
Proof. intros Hx. unfold store_u8. simpl. by rewrite upd_other. Qed.

Lemma ram_store_flt_other (st : state) (a x : Z) (v : float) :
  x ∉ [a; a + 1; a + 2; a + 3] -> ram (store_flt st a v) x = ram st x.
Proof.
  rewrite !elem_of_cons, elem_of_nil. intros Hx. unfold store_flt. simpl.
  rewrite !upd_other by tauto. done.
Qed.

Lemma ram_store_u32_other (st : state) (a x w : Z) :
  x ∉ [a; a + 1; a + 2; a + 3] -> ram (store_u32 st a w) x = ram st x.
Proof. apply ram_store_flt_other. Qed.




Lemma ram_u8_set_ui8 (st : state) (a z : Z) :
  0 <= z < 2 ^ 8 -> ram_u8 (store_u8 st a z) a = z.
Proof. intros Hz. rewrite ram_u8_store_u8. by apply Z.mod_small. Qed.

Lemma ram_u32_set_int (st : state) (a w : Z) :
  0 <= w < 2 ^ 32 -> ram_u32 (store_u32 st a w) a = w.
Proof. intros Hw. rewrite ram_u32_store_u32. by apply Z.mod_small. Qed.


Lemma to_u8_range (x : float) : 0 <= to_u8 x < 2 ^ 8.
Proof. unfold to_u8. apply Z.mod_pos_bound. lia. Qed.

Lemma to_u32_range (x : float) : 0 <= to_u32 x < 2 ^ 32.
Proof. unfold to_u32. apply Z.mod_pos_bound. lia. Qed.

Lemma poke_inside (buf bytes : list char_t) (off : nat) :
  (off + length bytes <= length buf)%nat ->
  poke buf off bytes = take off buf ++ bytes ++ drop (off + length bytes) buf.
Proof.
  intros Hfit. unfold poke. apply take_ge.
  rewrite !length_app, length_take, length_drop. lia.
Qed.

Lemma length_poke (buf bytes : list char_t) (off : nat) :
  length (poke buf off bytes) = length buf.
Proof.
  unfold poke. rewrite length_take, !length_app, length_take, length_drop. lia.
Qed.

Lemma strlen_le (s : list char_t) : (strlen s <= length s)%nat.
Proof.
  induction s as [|c s IH]; simpl; [lia|].
  destruct (Ascii.eqb c NUL); simpl; lia.
Qed.

Lemma length_chars (s : list char_t) : length (chars s) = strlen s.
Proof. unfold chars. rewrite length_take. pose proof (strlen_le s). lia. Qed.

(** *** Length units: [get_flu] and [set_flu] *)

Lemma set_flu_inches (st : state) (nv : nvObj) :
  let r := set_flu (set_units_mode INCHES st) nv in
  r.1.1 = STAT_OK /\
  value r.2 = mul (value nv) MM_PER_INCH /\
  ram_flt r.1.2 (cfg_target (cfg_at (index nv))) = mul (value nv) MM_PER_INCH.
Proof.
  unfold set_flu. simpl. repeat split. apply ram_flt_store_flt.
Qed.

Lemma set_flu_millimeters (st : state) (nv : nvObj) :
  let r := set_flu (set_units_mode MILLIMETERS st) nv in
  r.1.1 = STAT_OK /\
  value r.2 = value nv /\
  ram_flt r.1.2 (cfg_target (cfg_at (index nv))) = value nv.
Proof.
  unfold set_flu. simpl. repeat split. apply ram_flt_store_flt.
Qed.

(** C10: whatever the units mode, [get_flu] is [get_flt]: it reports
    the float held in the backing storage location as it is, and
    changes no variable.  Only the setter converts, so what was set in
    inches mode reads back multiplied by [MM_PER_INCH]. *)
Theorem get_flu_reports_canonical_units (st : state) (nv : nvObj) (m : unitsMode) :
  let st_m := set_units_mode m st in
  get_flu st_m nv = get_flt st_m nv /\
  (get_flu st_m nv).1.1 = STAT_OK /\
  (get_flu st_m nv).1.2 = st_m /\
  value (get_flu st_m nv).2 = ram_flt st (cfg_target (cfg_at (index nv))) /\
  valuetype (get_flu st_m nv).2 = TYPE_FLOAT /\
  (let r := set_flu (set_units_mode INCHES st) nv in
   value (get_flu r.1.2 r.2).2 = mul (value nv) MM_PER_INCH).
Proof.
  simpl. repeat split.
  unfold get_flu, get_flt, set_flu. simpl. apply ram_flt_store_flt.
Qed.

(** *** Range-restricted setters *)

Lemma set_ui8_stores (st : state) (nv : nvObj) :
  let r := set_ui8 st nv in
  r.1.1 = STAT_OK /\
  ram_u8 r.1.2 (cfg_target (cfg_at (index nv))) = to_u8 (value nv).
Proof.
  unfold set_ui8. simpl. split; [done|].
  rewrite ram_u8_store_u8. apply Z.mod_small, to_u8_range.
Qed.

Lemma set_01_rejects (st : state) (nv : nvObj) :
  gtb (value nv) (of_Z 1) = true ->
  set_01 st nv = (STAT_INPUT_VALUE_UNSUPPORTED, st, nv).
Proof. intros H. unfold set_01. by rewrite H. Qed.

Lemma set_012_rejects (st : state) (nv : nvObj) :
  gtb (value nv) (of_Z 2) = true ->
  set_012 st nv = (STAT_INPUT_VALUE_UNSUPPORTED, st, nv).
Proof. intros H. unfold set_012. by rewrite H. Qed.

Lemma set_0123_rejects (st : state) (nv : nvObj) :
  gtb (value nv) (of_Z 3) = true ->
  set_0123 st nv = (STAT_INPUT_VALUE_UNSUPPORTED, st, nv).
Proof. intros H. unfold set_0123. by rewrite H. Qed.

(** Whatever is not greater than the bound is handed to [set_ui8]:
    the check has no lower bound and does not look at the fraction. *)
Lemma set_012_passes (st : state) (nv : nvObj) :
  gtb (value nv) (of_Z 2) = false -> set_012 st nv = set_ui8 st nv.
Proof. intros H. unfold set_012. by rewrite H. Qed.

Lemma set_01_legal (st : state) (nv : nvObj) (k : Z) :
  0 <= k <= 1 -> value nv = of_Z k ->
  (set_01 st nv).1.1 = STAT_OK /\
  ram_u8 (set_01 st nv).1.2 (cfg_target (cfg_at (index nv))) = k.
Proof.
  intros Hk Hv. unfold set_01, set_ui8. rewrite Hv.
  assert (k = 0 \/ k = 1) as [-> | ->] by lia;
    (replace (gtb _ _) with false by (vm_compute; reflexivity));
    simpl; (split; [done | rewrite ram_u8_store_u8; vm_compute; reflexivity]).
Qed.

Lemma set_012_legal (st : state) (nv : nvObj) (k : Z) :
  0 <= k <= 2 -> value nv = of_Z k ->
  (set_012 st nv).1.1 = STAT_OK /\
  ram_u8 (set_012 st nv).1.2 (cfg_target (cfg_at (index nv))) = k.
Proof.
  intros Hk Hv. unfold set_012, set_ui8. rewrite Hv.
  assert (k = 0 \/ k = 1 \/ k = 2) as [-> | [-> | ->]] by lia;
    (replace (gtb _ _) with false by (vm_compute; reflexivity));
    simpl; (split; [done | rewrite ram_u8_store_u8; vm_compute; reflexivity]).
Qed.

Lemma set_0123_legal (st : state) (nv : nvObj) (k : Z) :
  0 <= k <= 3 -> value nv = of_Z k ->
  (set_0123 st nv).1.1 = STAT_OK /\
  ram_u8 (set_0123 st nv).1.2 (cfg_target (cfg_at (index nv))) = k.
Proof.
  intros Hk Hv. unfold set_0123, set_ui8. rewrite Hv.
  assert (k = 0 \/ k = 1 \/ k = 2 \/ k = 3) as [-> | [-> | [-> | ->]]] by lia;
    (replace (gtb _ _) with false by (vm_compute; reflexivity));
    simpl; (split; [done | rewrite ram_u8_store_u8; vm_compute; reflexivity]).
Qed.

(** *** Gatekeepers *)

(** C7: on a node whose index is not below the descriptor count,
    [nv_get] and [nv_set] return [STAT_INTERNAL_RANGE_ERROR], and
    neither they nor [nv_print] and [nv_persist] change any variable:
    no bound behaviour runs, nothing is printed and nothing is written
    to the nonvolatile store.  For [nv_persist] this rests on the groups
    starting inside the table. *)
Theorem gatekeepers_check_the_index (fuel : nat) (st : state) (p : nat) (nv : nvObj) :
  nv_list st !! p = Some nv ->
  nv_index_max <= index nv ->
  NV_INDEX_START_GROUPS < nv_index_max ->
  nv_get fuel st p = Some (STAT_INTERNAL_RANGE_ERROR, st) /\
  nv_set fuel st p = Some (STAT_INTERNAL_RANGE_ERROR, st) /\
  nv_print st p = Some st /\
  nv_persist st p = Some st.
Proof.
  intros Hnv Hidx Hgrp.
  unfold nv_get, nv_set, nv_get_with, nv_set_with, nv_print, nv_persist.
  rewrite Hnv. simpl.
  assert ((nv_index_max <=? index nv) = true) as -> by (apply Z.leb_le; lia).
  repeat split.
  destruct DISABLE_PERSISTENCE; [done|].
  unfold nv_index_lt_groups.
  assert ((index nv <=? NV_INDEX_START_GROUPS) = false) as -> by (apply Z.leb_gt; lia).
  done.
Qed.

(** *** The shared string *)

Lemma nv_copy_string_full (st : state) (p : nat) (src : list char_t) :
  (NV_SHARED_STRING_LEN < wp (nvStr st) + strlen src)%nat ->
  nv_copy_string st p src = Some (STAT_BUFFER_FULL, st).
Proof.
  intros Hfull. unfold nv_copy_string.
  assert ((NV_SHARED_STRING_LEN <? wp (nvStr st) + strlen src)%nat = true) as ->
    by (apply Nat.ltb_lt; lia).
  done.
Qed.

(** A string that ends in front of the last element is appended with
    its terminator, and nothing is stored behind the array. *)
Lemma nv_copy_string_fits (st : state) (p : nat) (src : list char_t) (nv : nvObj) :
  nv_list st !! p = Some nv ->
  length (string_buf (nvStr st)) = NV_SHARED_STRING_LEN ->
  (wp (nvStr st) + strlen src < NV_SHARED_STRING_LEN)%nat ->
  exists st',
    nv_copy_string st p src = Some (STAT_OK, st') /\
    wp (nvStr st') = (wp (nvStr st) + strlen src + 1)%nat /\
    string_buf (nvStr st') =
      take (wp (nvStr st)) (string_buf (nvStr st)) ++ chars src ++ [NUL] ++
      drop (wp (nvStr st) + strlen src + 1) (string_buf (nvStr st)) /\
    spilled (nvStr st') = spilled (nvStr st) /\
    nv_list st' = <[p := set_stringp (Some (wp (nvStr st))) nv]> (nv_list st).
Proof.
  intros Hnv Hlen Hfit. unfold nv_copy_string.
  assert ((NV_SHARED_STRING_LEN <? wp (nvStr st) + strlen src)%nat = false) as ->
    by (apply Nat.ltb_ge; lia).
  unfold node_upd. simpl. rewrite Hnv. simpl.
  eexists. split; [reflexivity|]. simpl. repeat split.
  - lia.
  - rewrite poke_inside by (rewrite length_app, length_chars; simpl; lia).
    rewrite length_app, length_chars. simpl.
    rewrite <- !app_assoc. simpl. do 4 f_equal. lia.
  - rewrite drop_ge by (rewrite length_app, length_chars; simpl; lia).
    simpl. by rewrite app_nil_r.
Qed.

(** A string that ends exactly on the last element passes the test, and
    its terminator is stored one element behind the array. *)
Lemma nv_copy_string_overruns (st : state) (p : nat) (src : list char_t) (nv : nvObj) :
  nv_list st !! p = Some nv ->
  length (string_buf (nvStr st)) = NV_SHARED_STRING_LEN ->
  (wp (nvStr st) + strlen src = NV_SHARED_STRING_LEN)%nat ->
  exists st',
    nv_copy_string st p src = Some (STAT_OK, st') /\
    wp (nvStr st') = S NV_SHARED_STRING_LEN /\
    spilled (nvStr st') = spilled (nvStr st) ++ [(NV_SHARED_STRING_LEN, NUL)].
Proof.
  intros Hnv Hlen Hfit. unfold nv_copy_string.
  assert ((NV_SHARED_STRING_LEN <? wp (nvStr st) + strlen src)%nat = false) as ->
    by (apply Nat.ltb_ge; lia).
  unfold node_upd. simpl. rewrite Hnv. simpl.
  eexists. split; [reflexivity|]. simpl. split; [lia|].
  f_equal. rewrite Hlen.
  replace (NV_SHARED_STRING_LEN - wp (nvStr st))%nat with (length (chars src))
    by (rewrite length_chars; lia).
  rewrite drop_app_length. simpl.
  do 2 f_equal. lia.
Qed.

(** *** Integers in a single-precision float *)

Lemma digits2_shift_pos (p k : positive) :
  digits2_pos (shift_pos k p) = (digits2_pos p + k)%positive.
Proof.
  unfold shift_pos. induction k as [|k IH] using Pos.peano_ind.
  - simpl. lia.
  - rewrite Pos.iter_succ. simpl. rewrite IH. lia.
Qed.

Lemma digits2_lower (p : positive) : 2 ^ (Z.pos (digits2_pos p) - 1) <= Z.pos p.
Proof.
  induction p as [p IH|p IH|]; simpl digits2_pos.
  - rewrite Pos2Z.inj_succ.
    replace (Z.succ (Z.pos (digits2_pos p)) - 1) with (Z.succ (Z.pos (digits2_pos p) - 1)) by lia.
    rewrite Z.pow_succ_r by lia. lia.
  - rewrite Pos2Z.inj_succ.
    replace (Z.succ (Z.pos (digits2_pos p)) - 1) with (Z.succ (Z.pos (digits2_pos p) - 1)) by lia.
    rewrite Z.pow_succ_r by lia. lia.
  - simpl. lia.
Qed.

Lemma digits2_upper (p : positive) : Z.pos p < 2 ^ Z.pos (digits2_pos p).
Proof.
  induction p as [p IH|p IH|]; simpl digits2_pos.
  - rewrite Pos2Z.inj_succ, Z.pow_succ_r by lia. lia.
  - rewrite Pos2Z.inj_succ, Z.pow_succ_r by lia. lia.
  - simpl. lia.
Qed.

Lemma digits2_bound (p : positive) : Z.pos p < 2 ^ 24 -> Z.pos (digits2_pos p) <= 24.
Proof.
  intros Hp. destruct (Z_le_gt_dec (Z.pos (digits2_pos p)) 24) as [|Hgt]; [done|].
  pose proof (digits2_lower p) as Hlow.
  assert (2 ^ 24 <= 2 ^ (Z.pos (digits2_pos p) - 1)) by (apply Z.pow_le_mono_r; lia).
  lia.
Qed.

(** The number of digits of a mantissa between [2^(d-1)] and [2^d]. *)
Lemma digits2_between (p : positive) (d : Z) :
  2 ^ (d - 1) <= Z.pos p < 2 ^ d -> 0 < d -> Z.pos (digits2_pos p) = d.
Proof.
  intros [Hlo Hhi] Hd.
  pose proof (digits2_lower p) as Hl. pose proof (digits2_upper p) as Hu.
  destruct (Z.lt_trichotomy (Z.pos (digits2_pos p)) d) as [Hlt|[Heq|Hgt]]; [|done|].
  - assert (2 ^ Z.pos (digits2_pos p) <= 2 ^ (d - 1)) by (apply Z.pow_le_mono_r; lia). lia.
  - assert (2 ^ d <= 2 ^ (Z.pos (digits2_pos p) - 1)) by (apply Z.pow_le_mono_r; lia). lia.
Qed.

(** The three fields of a 32-bit pattern. *)
Lemma bit_fields (sb E M : Z) :
  0 <= sb <= 1 -> 0 <= E < 2 ^ 8 -> 0 <= M < 2 ^ 23 ->
  let w := sb * 2 ^ 31 + E * 2 ^ 23 + M in
  Z.testbit w 31 = (sb =? 1) /\
  Z.land (Z.shiftr w 23) 255 = E /\
  Z.land w (2 ^ 23 - 1) = M.
Proof.
  intros Hsb HE HM w.
  assert (Hdiv : Z.shiftr w 23 = sb * 2 ^ 8 + E).
  { rewrite Z.shiftr_div_pow2 by lia. symmetry.
    apply (Z.div_unique_pos w (2 ^ 23) (sb * 2 ^ 8 + E) M); [lia|]. subst w. lia. }
  split; [|split].
  - rewrite Z.testbit_odd, Z.shiftr_div_pow2 by lia.
    replace (w / 2 ^ 31) with sb.
    + assert (sb = 0 \/ sb = 1) as [-> | ->] by lia; reflexivity.
    + apply (Z.div_unique_pos w (2 ^ 31) sb (E * 2 ^ 23 + M)); [lia|]. subst w. lia.
  - rewrite Hdiv. change 255 with (Z.ones 8). rewrite Z.land_ones by lia.
    symmetry. apply (Z.mod_unique_pos _ _ sb); lia.
  - change (2 ^ 23 - 1) with (Z.ones 23). rewrite Z.land_ones by lia.
    symmetry. apply (Z.mod_unique_pos _ _ (sb * 2 ^ 8 + E)); [lia|]. subst w. lia.
Qed.

(** A number of the format other than a NaN is the number its pattern
    stands for, and its pattern has 32 bits. *)
Lemma decode_encode (f : spec_float) :
  valid_binary prec emax f = true ->
  decode (encode f) = f /\ 0 <= encode f < 2 ^ 32.
Proof.
  destruct f as [s|s| |s m e]; simpl valid_binary; intros Hv.
  - destruct s; split; (reflexivity || (vm_compute; split; congruence)).
  - destruct s; split; (reflexivity || (vm_compute; split; congruence)).
  - split; (reflexivity || (vm_compute; split; congruence)).
  - unfold bounded, canonical_mantissa in Hv.
    apply andb_true_iff in Hv as [Hc He].
    apply Z.eqb_eq in Hc. apply Z.leb_le in He.
    unfold fexp, emin, prec, emax in Hc, He.
    pose proof (digits2_lower m) as Hlo. pose proof (digits2_upper m) as Hup.
    set (D := Z.pos (digits2_pos m)) in *.
    unfold encode.
    destruct (Z.ltb_spec (Z.pos m) (2 ^ 23)) as [Hsub|Hnorm].
    + assert (HD : D <= 23).
      { destruct (Z_le_gt_dec D 23) as [|Hgt]; [done|].
        assert (2 ^ 23 <= 2 ^ (D - 1)) by (apply Z.pow_le_mono_r; lia). lia. }
      assert (e = -149) as -> by lia.
      destruct (bit_fields (if s then 1 else 0) 0 (Z.pos m)) as (Hs & HE & HM);
        [destruct s; lia | lia | lia |].
      split; [|destruct s; lia].
      replace ((if s then 2 ^ 31 else 0) + Z.pos m)
        with ((if s then 1 else 0) * 2 ^ 31 + 0 * 2 ^ 23 + Z.pos m) by (destruct s; lia).
      unfold decode. rewrite Hs, HE, HM. simpl. by destruct s.
    + assert (HD : D = 24).
      { assert (23 < D).
        { destruct (Z_le_gt_dec D 23) as [Hle|]; [|lia].
          assert (2 ^ D <= 2 ^ 23) by (apply Z.pow_le_mono_r; lia). lia. }
        lia. }
      assert (Hm24 : Z.pos m < 2 ^ 24) by (rewrite HD in Hup; exact Hup).
      assert (Hel : -149 <= e) by lia.
      destruct (bit_fields (if s then 1 else 0) (e + 150) (Z.pos m - 2 ^ 23))
        as (Hs & HE & HM); [destruct s; lia | lia | lia |].
      split; [|destruct s; lia].
      replace ((if s then 2 ^ 31 else 0) + ((e + 150) * 2 ^ 23 + (Z.pos m - 2 ^ 23)))
        with ((if s then 1 else 0) * 2 ^ 31 + (e + 150) * 2 ^ 23 + (Z.pos m - 2 ^ 23))
        by (destruct s; lia).
      unfold decode. rewrite Hs, HE, HM.
      assert ((e + 150 =? 0) = false) as -> by (apply Z.eqb_neq; lia).
      assert ((e + 150 =? 255) = false) as -> by (apply Z.eqb_neq; lia).
      replace (Z.pos m - 2 ^ 23 + 2 ^ 23) with (Z.pos m) by lia.
      replace (e + 150 - 150) with e by lia. by destruct s.
Qed.

Lemma to_spec_of_spec (f : spec_float) :
  valid_binary prec emax f = true -> to_spec (of_spec f) = f.
Proof.
  intros Hv. destruct (decode_encode f Hv) as [Hd Hr].
  unfold to_spec, of_spec. by rewrite to_bits_of_bits_small.
Qed.

(** A mantissa of 24 digits with an exponent in range is a number of
    the format, and the rounding leaves it as it is. *)
Lemma valid_binary_24 (s : bool) (m : positive) (e : Z) :
  Z.pos (digits2_pos m) = 24 -> -149 <= e <= 104 ->
  valid_binary prec emax (S754_finite s m e) = true.
Proof.
  intros Hd He. unfold valid_binary, bounded, canonical_mantissa, fexp, emin, prec, emax.
  rewrite Hd. apply andb_true_iff. split; [apply Z.eqb_eq | apply Z.leb_le]; lia.
Qed.

Lemma binary_round_aux_exact (m : positive) (e : Z) :
  Z.pos (digits2_pos m) = 24 -> -149 <= e <= 104 ->
  binary_round_aux prec emax false (Z.pos m) e loc_Exact = S754_finite false m e.
Proof.
  intros Hd He.
  assert (Hshift : fexp prec emax (Zdigits2 (Z.pos m) + e) - e = 0).
  { unfold fexp, emin, prec, emax. simpl Zdigits2. rewrite Hd. lia. }
  unfold binary_round_aux, shr_fexp. rewrite Hshift.
  cbn [shr shr_record_of_loc shr_m loc_of_shr_record round_nearest_even].
  rewrite Hshift.
  cbn [shr shr_record_of_loc shr_m loc_of_shr_record round_nearest_even].
  assert ((e <=? emax - prec) = true) as -> by (apply Z.leb_le; unfold emax, prec; lia).
  reflexivity.
Qed.

(** An integer of at most 24 digits is shifted up to 24 digits. *)
Lemma binary_normalize_small (p : positive) :
  Z.pos p < 2 ^ 24 ->
  exists m e, binary_normalize prec emax (Z.pos p) 0 false = S754_finite false m e /\
              Z.pos (digits2_pos m) = 24 /\
              -23 <= e <= 0 /\ Z.pos m = Z.pos p * 2 ^ (- e).
Proof.
  intros Hp. pose proof (digits2_bound p Hp) as Hd.
  unfold binary_normalize, binary_round, shl_align.
  assert (Hf : fexp prec emax (Z.pos (digits2_pos p) + 0) = Z.pos (digits2_pos p) - 24).
  { unfold fexp, emin, prec, emax. lia. }
  rewrite Hf.
  destruct (Z.pos (digits2_pos p) - 24 - 0) as [|k|k] eqn:Hk; try lia.
  - exists p, 0. split; [|split; [lia | split; [lia | simpl; lia]]].
    apply binary_round_aux_exact; lia.
  - exists (shift_pos k p), (Z.pos (digits2_pos p) - 24).
    assert (Hds : Z.pos (digits2_pos (shift_pos k p)) = 24)
      by (rewrite digits2_shift_pos; lia).
    split; [|split; [done | split; [lia|]]].
    + apply binary_round_aux_exact; [done | lia].
    + rewrite shift_pos_correct, Z.pow_pos_fold.
      replace (- (Z.pos (digits2_pos p) - 24)) with (Z.pos k) by lia. lia.
Qed.

Lemma iter_pos_iter {A : Type} (f : A -> A) (n : positive) :
  forall x, @SpecFloat.iter_pos A f n x = Pos.iter f x n.
Proof.
  induction n as [n IH|n IH|]; intros x; simpl.
  - by rewrite !IH, <- !Pos.iter_swap.
  - by rewrite !IH.
  - reflexivity.
Qed.

(** Shifting out digits that are zero loses nothing. *)
Lemma iter_shr_1_shift_pos (q k : positive) :
  @SpecFloat.iter_pos _ shr_1 k (Build_shr_record (Z.pos (shift_pos k q)) false false)
  = Build_shr_record (Z.pos q) false false.
Proof.
  rewrite iter_pos_iter. unfold shift_pos.
  induction k as [|k IH] using Pos.peano_ind.
  - reflexivity.
  - rewrite !Pos.iter_succ. rewrite <- Pos.iter_swap. simpl shr_1. exact IH.
Qed.

(** An integer of more than 24 digits whose digits behind the 24th
    are zero is kept as it is. *)
Lemma binary_normalize_large (q k : positive) :
  Z.pos (digits2_pos q) = 24 -> Z.pos k <= 104 ->
  binary_normalize prec emax (Z.pos (shift_pos k q)) 0 false = S754_finite false q (Z.pos k).
Proof.
  intros Hd Hk.
  assert (Hds : Z.pos (digits2_pos (shift_pos k q)) = 24 + Z.pos k)
    by (rewrite digits2_shift_pos; lia).
  unfold binary_normalize, binary_round, shl_align.
  assert (Hf : fexp prec emax (Z.pos (digits2_pos (shift_pos k q)) + 0) = Z.pos k).
  { unfold fexp, emin, prec, emax. lia. }
  rewrite Hf. replace (Z.pos k - 0) with (Z.pos k) by lia. cbv beta iota.
  unfold binary_round_aux, shr_fexp. cbn [Zdigits2]. rewrite Hf.
  replace (Z.pos k - 0) with (Z.pos k) by lia.
  cbn [shr shr_record_of_loc].
  rewrite iter_shr_1_shift_pos.
  cbn [shr_m loc_of_shr_record round_nearest_even Zdigits2].
  replace (0 + Z.pos k) with (Z.pos k) by lia.
  assert (Hs : fexp prec emax (Z.pos (digits2_pos q) + Z.pos k) - Z.pos k = 0).
  { unfold fexp, emin, prec, emax. lia. }
  rewrite Hs. cbn [shr shr_record_of_loc shr_m].
  assert ((Z.pos k <=? emax - prec) = true) as -> by (apply Z.leb_le; unfold emax, prec; lia).
  reflexivity.
Qed.

(** The integers a single-precision float holds exactly: those with at
    most 24 significant digits.  They are all the integers up to
    [2^24], every second one up to [2^25], and so on. *)
Definition representable (n : Z) : Prop :=
  exists m e, 0 <= m < 2 ^ 24 /\ 0 <= e /\ n = m * 2 ^ e.

Lemma representable_small (n : Z) : 0 <= n <= 2 ^ 24 -> representable n.
Proof.
  intros Hn. destruct (Z.eq_dec n (2 ^ 24)) as [->|Hne].
  - exists (2 ^ 23), 1. lia.
  - exists n, 0. lia.
Qed.

(** A representable integer of more than 24 digits is a 24-digit
    number followed by zeros. *)
Lemma representable_large (p : positive) :
  2 ^ 24 <= Z.pos p -> representable (Z.pos p) ->
  exists q k, p = shift_pos k q /\ Z.pos (digits2_pos q) = 24 /\
              Z.pos k = Z.pos (digits2_pos p) - 24.
Proof.
  intros Hbig (m & e & Hm & He & Hp).
  pose proof (digits2_lower p) as Hlo. pose proof (digits2_upper p) as Hup.
  set (d := Z.pos (digits2_pos p)) in *.
  assert (Hd : 24 < d).
  { destruct (Z_le_gt_dec d 24) as [Hle|]; [|lia].
    assert (2 ^ d <= 2 ^ 24) by (apply Z.pow_le_mono_r; lia). lia. }
  assert (Hke : d - 24 <= e).
  { destruct (Z_le_gt_dec (d - 24) e) as [|Hgt]; [done|]. exfalso.
    assert (H1 : 2 ^ e <= 2 ^ (d - 25)) by (apply Z.pow_le_mono_r; lia).
    assert (H2 : 2 ^ (d - 1) = 2 ^ 24 * 2 ^ (d - 25))
      by (rewrite <- Z.pow_add_r by lia; f_equal; lia).
    assert (H3 : 0 < 2 ^ e) by (apply Z.pow_pos_nonneg; lia).
    nia. }
  destruct (d - 24) as [|k|k] eqn:Hk; try lia.
  assert (He2 : 2 ^ e = 2 ^ (e - Z.pos k) * 2 ^ Z.pos k)
    by (rewrite <- Z.pow_add_r by lia; f_equal; lia).
  assert (Hpk : 0 < 2 ^ Z.pos k) by (apply Z.pow_pos_nonneg; lia).
  assert (Hpe : 0 < 2 ^ (e - Z.pos k)) by (apply Z.pow_pos_nonneg; lia).
  assert (Hd1 : 2 ^ (d - 1) = 2 ^ 23 * 2 ^ Z.pos k)
    by (rewrite <- Z.pow_add_r by lia; f_equal; lia).
  assert (Hd2 : 2 ^ d = 2 ^ 24 * 2 ^ Z.pos k)
    by (rewrite <- Z.pow_add_r by lia; f_equal; lia).
  destruct (m * 2 ^ (e - Z.pos k)) as [|q|q] eqn:Hq; try nia.
  exists q, k.
  assert (Hpq : Z.pos p = Z.pos q * 2 ^ Z.pos k) by (rewrite <- Hq; nia).
  split; [|split; [|lia]].
  - apply Pos2Z.inj. rewrite shift_pos_correct, Z.pow_pos_fold. lia.
  - apply digits2_between; [|lia]. change (24 - 1) with 23. nia.
Qed.

(** A representable integer below [2^32] goes through a float
    unchanged. *)
Lemma to_spec_of_Z (n : Z) :
  0 < n < 2 ^ 32 -> representable n ->
  exists m e, to_spec (of_Z n) = S754_finite false m e /\
              ((0 <= e /\ n = Z.pos m * 2 ^ e) \/ (e < 0 /\ Z.pos m = n * 2 ^ (- e))).
Proof.
  intros Hn Hrep. destruct n as [|p|p]; try lia.
  destruct (Z_lt_le_dec (Z.pos p) (2 ^ 24)) as [Hs|Hl].
  - destruct (binary_normalize_small p Hs) as (m & e & Hb & Hd & He & Hm).
    exists m, e. unfold of_Z. rewrite Hb.
    rewrite to_spec_of_spec by (apply valid_binary_24; [done | lia]).
    split; [done|].
    destruct (Z.eq_dec e 0) as [->|Hne].
    + left. simpl in Hm. lia.
    + right. lia.
  - destruct (representable_large p Hl Hrep) as (q & k & -> & Hd & Hk).
    assert (Hk8 : Z.pos k <= 8).
    { pose proof (digits2_lower (shift_pos k q)) as Hlo.
      destruct (Z_le_gt_dec (Z.pos k) 8) as [|Hgt]; [done|].
      assert (2 ^ 32 <= 2 ^ (Z.pos (digits2_pos (shift_pos k q)) - 1))
        by (apply Z.pow_le_mono_r; lia).
      lia. }
    exists q, (Z.pos k). unfold of_Z. rewrite binary_normalize_large by (done || lia).
    rewrite to_spec_of_spec by (apply valid_binary_24; [done | lia]).
    split; [done|]. left. split; [lia|].
    rewrite shift_pos_correct, Z.pow_pos_fold. lia.
Qed.

Lemma trunc_of_Z (n : Z) : 0 <= n < 2 ^ 32 -> representable n -> trunc (of_Z n) = n.
Proof.
  intros Hn Hrep.
  destruct (Z.eq_dec n 0) as [->|Hn0]; [vm_compute; reflexivity|].
  destruct (to_spec_of_Z n) as (m & e & Hs & [[He Hm]|[He Hm]]); [lia | done | |];
    unfold trunc; rewrite Hs.
  - assert ((0 <=? e) = true) as -> by (apply Z.leb_le; lia). lia.
  - assert ((0 <=? e) = false) as -> by (apply Z.leb_gt; lia).
    rewrite Hm. apply Z.div_mul. apply Z.pow_nonzero; lia.
Qed.

Lemma to_u32_of_Z (n : Z) : 0 <= n < 2 ^ 32 -> representable n -> to_u32 (of_Z n) = n.
Proof.
  intros Hn Hrep. unfold to_u32. rewrite trunc_of_Z by done.
  apply Z.mod_small. lia.
Qed.








(** *** Calls through the table *)

(** The bound behaviours that work on their node alone. *)
Definition leaf_fn (f : fptrCmd) : option (state -> nvObj -> stat_t * state * nvObj) :=
  match f with
  | Fget_nul => Some get_nul
  | Fget_ui8 => Some get_ui8
  | Fget_int => Some get_int
  | Fget_data => Some get_data
  | Fget_flt => Some get_flt
  | Fget_flu => Some get_flu
  | Fset_nul => Some set_nul
  | Fset_ui8 => Some set_ui8
  | Fset_01 => Some set_01
  | Fset_012 => Some set_012
  | Fset_0123 => Some set_0123
  | Fset_int => Some set_int
  | Fset_data => Some set_data
  | Fset_flt => Some set_flt
  | Fset_flu => Some set_flu
  | Fget_grp | Fset_grp | Fset_defaults => None
  end.

Lemma run_cmd_leaf (fuel : nat) (f : fptrCmd) g :
  leaf_fn f = Some g -> run_cmd fuel f = on_node g.
Proof. destruct fuel, f; simpl; intros [= <-]; reflexivity. Qed.

Lemma nv_set_in_range (fuel : nat) (st : state) (p : nat) (nv : nvObj) g :
  nv_list st !! p = Some nv ->
  index nv < nv_index_max ->
  leaf_fn (cfg_set (cfg_at (index nv))) = Some g ->
  nv_set fuel st p =
    Some ((g st nv).1.1, set_nv_list (<[p := (g st nv).2]> (nv_list (g st nv).1.2)) (g st nv).1.2).
Proof.
  intros Hnv Hidx Hg. unfold nv_set, nv_set_with. rewrite Hnv. simpl.
  assert ((nv_index_max <=? index nv) = false) as -> by (apply Z.leb_gt; lia).
  rewrite (run_cmd_leaf _ _ _ Hg). unfold on_node. rewrite Hnv. simpl.
  by destruct (g st nv) as [[r st'] nv'].
Qed.

Lemma nv_get_in_range (fuel : nat) (st : state) (p : nat) (nv : nvObj) g :
  nv_list st !! p = Some nv ->
  index nv < nv_index_max ->
  leaf_fn (cfg_get (cfg_at (index nv))) = Some g ->
  nv_get fuel st p =
    Some ((g st nv).1.1, set_nv_list (<[p := (g st nv).2]> (nv_list (g st nv).1.2)) (g st nv).1.2).
Proof.
  intros Hnv Hidx Hg. unfold nv_get, nv_get_with. rewrite Hnv. simpl.
  assert ((nv_index_max <=? index nv) = false) as -> by (apply Z.leb_gt; lia).
  rewrite (run_cmd_leaf _ _ _ Hg). unfold on_node. rewrite Hnv. simpl.
  by destruct (g st nv) as [[r st'] nv'].
Qed.

(** *** Set, then get *)






(** *** The resolver *)

(** A string literal without an embedded terminator. *)
Definition cstring (s : list char_t) : Prop := Forall (fun c => c <> NUL) s.

#[global] Instance cstring_dec (s : list char_t) : Decision (cstring s).
Proof. unfold cstring. apply _. Defined.

Lemma chars_cstring (s : list char_t) : cstring (chars s).
Proof.
  unfold chars, cstring. induction s as [|c s IH]; simpl; [constructor|].
  destruct (Ascii.eqb_spec c NUL); simpl; [constructor|].
  by constructor.
Qed.

Lemma strlen_cstring (s r : list char_t) :
  cstring s -> strlen (s ++ NUL :: r) = length s.
Proof.
  induction 1 as [|c s Hc _ IH]; simpl; [reflexivity|].
  destruct (Ascii.eqb_spec c NUL); [done|]. by rewrite IH.
Qed.

Lemma length_auto_array (n : nat) : length (auto_array n) = n.
Proof.
  unfold auto_array. rewrite length_take, length_app, length_replicate. lia.
Qed.

(** The rule of the resolver in the words of its description: the
    stored token [t] and the query [q] end together within the first 5
    characters, or their 5 leading characters are equal. *)
Definition prefix_match (t q : list char_t) : Prop :=
  ((length t < 5)%nat /\ t = q) \/
  ((5 <= length t)%nat /\ (5 <= length q)%nat /\ take 5 t = take 5 q).

#[global] Instance prefix_match_dec (t q : list char_t) : Decision (prefix_match t q).
Proof. unfold prefix_match. apply _. Defined.

Local Arguments Ascii.eqb : simpl never.

Local Ltac split_eqb :=
  repeat match goal with
         | |- context [Ascii.eqb ?x ?y] =>
             destruct (Ascii.eqb_spec x y); simpl; try subst; try done
         end.

(** [token_cmp] on a stored token and an array that holds the query, as
    far as the comparison looks. *)
Lemma token_cmp_spec (t q str : list char_t) :
  cstring t -> cstring q ->
  (forall k, (k <= 4)%nat -> (k <= Nat.max 1 (length q))%nat ->
             byte_at str k = nth k q NUL) ->
  token_cmp t str = bool_decide (prefix_match t q).
Proof.
  intros Ht Hq Hstr. unfold cstring in Ht, Hq.
  pose proof (Hstr 0%nat) as H0. pose proof (Hstr 1%nat) as H1.
  pose proof (Hstr 2%nat) as H2. pose proof (Hstr 3%nat) as H3.
  pose proof (Hstr 4%nat) as H4. clear Hstr.
  unfold token_cmp.
  destruct (bool_decide_reflect (prefix_match t q)) as [Hm|Hm]; unfold prefix_match in Hm;
  destruct q as [|q0 [|q1 [|q2 [|q3 [|q4 q']]]]]; simpl in H0, H1, H2, H3, H4;
    rewrite ?H0, ?H1, ?H2, ?H3, ?H4 by lia; clear H0 H1 H2 H3 H4;
    destruct t as [|t0 [|t1 [|t2 [|t3 [|t4 t']]]]]; unfold byte_at; simpl in *;
    repeat match goal with
           | H : Forall _ (_ :: _) |- _ => apply Forall_cons in H; destruct H
           end;
    try (destruct Hm as [[? ?]|[? [? ?]]]; simplify_eq/=; try lia);
    split_eqb.
  all: exfalso; apply Hm.
  all: try (left; split; [lia | done]).
  all: try (right; split; [lia | split; [lia | done]]).
Qed.

(** The array [str] of [nv_get_index] holds the group followed by the
    token, as far as the comparison looks; its indeterminate initial
    content does not show. *)
Lemma query_bytes (group token : list char_t) (k : nat) :
  (strlen group <= GROUP_LEN)%nat ->
  (k <= 4)%nat ->
  (k <= Nat.max 1 (length (chars group ++ chars token)))%nat ->
  byte_at (strncat (strncpy (auto_array (TOKEN_LEN + GROUP_LEN + 1)) group (GROUP_LEN + 1))
                   token (TOKEN_LEN + 1)) k
  = nth k (chars group ++ chars token) NUL.
Proof.
  intros Hg Hk Hkq.
  pose proof (chars_cstring group) as Hcg. pose proof (chars_cstring token) as Hct.
  pose proof (length_chars group) as Hlg.
  pose proof (length_auto_array (TOKEN_LEN + GROUP_LEN + 1)) as Hb.
  unfold strncat, strncpy, cstring, GROUP_LEN, TOKEN_LEN in *.
  revert Hcg Hct Hlg Hkq Hb.
  generalize (auto_array (5 + 3 + 1)) as b0.
  generalize (chars group) as g. generalize (chars token) as t.
  intros t g b0 Hcg Hct Hlg Hkq Hb.
  destruct b0 as [|j0 [|j1 [|j2 [|j3 [|j4 [|j5 [|j6 [|j7 [|j8 [|j9 b0]]]]]]]]]];
    simpl in Hb; try lia. clear Hb.
  destruct g as [|g0 [|g1 [|g2 [|g3 g]]]]; simpl in Hlg; try lia;
    repeat match goal with
           | H : Forall _ (_ :: _) |- _ => apply Forall_cons in H; destruct H
           end.
  all: destruct t as [|t0 [|t1 [|t2 [|t3 [|t4 [|t5 t]]]]]];
    repeat match goal with
           | H : Forall _ (_ :: _) |- _ => apply Forall_cons in H; destruct H
           end.
  all: destruct k as [|[|[|[|[|k]]]]]; simpl in Hkq; try lia.
  all: unfold byte_at, poke; simpl;
    repeat match goal with
           | H : ?c <> NUL |- context [Ascii.eqb ?c NUL] =>
               rewrite (proj2 (Ascii.eqb_neq c NUL) H)
           end;
    rewrite ?Ascii.eqb_refl; simpl; try reflexivity.
Qed.

Lemma nv_get_index_scan_spec (str q : list char_t) (tbl : list cfgItem) (i : Z) :
  Forall (fun d => cstring (cfg_token d)) tbl ->
  cstring q ->
  (forall k, (k <= 4)%nat -> (k <= Nat.max 1 (length q))%nat ->
             byte_at str k = nth k q NUL) ->
  nv_get_index_scan str i tbl =
    match list_find (fun d => prefix_match (cfg_token d) q) tbl with
    | Some (k, _) => i + Z.of_nat k
    | None => NO_MATCH
    end.
Proof.
  intros Htbl Hq Hstr. revert i.
  induction Htbl as [|d tbl Hd _ IH]; intros i; simpl; [reflexivity|].
  rewrite (token_cmp_spec _ q) by done.
  destruct (decide (prefix_match (cfg_token d) q)) as [Hm|Hm].
  - rewrite bool_decide_eq_true_2 by done. lia.
  - rewrite bool_decide_eq_false_2 by done. rewrite IH.
    destruct (list_find _ tbl) as [[k x]|]; simpl; [lia | reflexivity].
Qed.

(** C8: [nv_get_index] joins the group and the token, goes through the
    table in index order and returns the first index whose stored token
    matches the joined string under [prefix_match]: both end together
    within the first 5 characters, or their 5 leading characters are
    equal.  Without a match it returns [NO_MATCH].  The group has at
    most [GROUP_LEN] characters, as a node's group field has, and the
    stored tokens have no embedded terminator. *)
Theorem nv_get_index_first_match (group token : list char_t) :
  Forall (fun d => cstring (cfg_token d)) cfgArray ->
  (strlen group <= GROUP_LEN)%nat ->
  nv_get_index group token =
    match list_find (fun d => prefix_match (cfg_token d) (chars group ++ chars token))
                    cfgArray with
    | Some (i, _) => Z.of_nat i
    | None => NO_MATCH
    end.
Proof.
  intros Htbl Hg. unfold nv_get_index.
  rewrite (nv_get_index_scan_spec _ (chars group ++ chars token)).
  - destruct (list_find _ cfgArray) as [[k x]|]; [lia | reflexivity].
  - done.
  - apply Forall_app. split; apply chars_cstring.
  - intros k Hk Hkq. by apply query_bytes.
Qed.

(** *** Nodes in the list *)

Lemma node_upd_Some (st : state) (p : nat) (f : nvObj -> nvObj) (nv : nvObj) :
  nv_list st !! p = Some nv ->
  node_upd st p f = Some (set_nv_list (<[p := f nv]> (nv_list st)) st).
Proof. intros Hnv. unfold node_upd. by rewrite Hnv. Qed.

Lemma lookup_set_same (st : state) (p : nat) (nv x : nvObj) :
  nv_list st !! p = Some nv ->
  nv_list (set_nv_list (<[p := x]> (nv_list st)) st) !! p = Some x.
Proof.
  intros Hnv. simpl. apply list_lookup_insert_eq. by eapply lookup_lt_Some.
Qed.

Lemma set_nv_list_twice (st : state) (l1 l2 : list nvObj) :
  set_nv_list l2 (set_nv_list l1 st) = set_nv_list l2 st.
Proof. reflexivity. Qed.

(** *** [streq] and [strcpy] on arrays *)

Lemma streq_true (a b : list char_t) : streq a b = true <-> chars a = chars b.
Proof.
  unfold chars. revert b. induction a as [|x a IH]; intros [|y b]; simpl.
  - done.
  - destruct (Ascii.eqb_spec y NUL); simpl; split; intros H; done || discriminate.
  - destruct (Ascii.eqb_spec x NUL); simpl; split; intros H; done || discriminate.
  - destruct (Ascii.eqb_spec x y) as [->|Hxy].
    + destruct (Ascii.eqb_spec y NUL); simpl; [done|].
      rewrite IH. split; [by intros -> | by intros [= ->]].
    + destruct (Ascii.eqb_spec x NUL), (Ascii.eqb_spec y NUL); simpl;
        split; intros H; congruence.
Qed.

Lemma streq_spec (a b : list char_t) : streq a b = bool_decide (chars a = chars b).
Proof.
  destruct (streq a b) eqn:E; symmetry.
  - apply bool_decide_eq_true, streq_true, E.
  - apply bool_decide_eq_false. intros H%streq_true. congruence.
Qed.

Lemma chars_lit (s r : list char_t) : cstring s -> chars (s ++ NUL :: r) = s.
Proof.
  intros Hs. unfold chars. rewrite strlen_cstring by done.
  by rewrite take_app_length.
Qed.

Lemma chars_id (s : list char_t) : cstring s -> chars s = s.
Proof.
  intros Hs. unfold chars.
  assert (strlen s = length s) as ->.
  { induction Hs as [|c s Hc _ IH]; simpl; [done|].
    destruct (Ascii.eqb_spec c NUL); [done | by rewrite IH]. }
  apply firstn_all.
Qed.

Lemma strcpy_fits (buf s : list char_t) :
  cstring s -> (length s < length buf)%nat ->
  strcpy buf s = s ++ NUL :: drop (S (length s)) buf.
Proof.
  intros Hs Hlen. unfold strcpy. rewrite chars_id by done.
  rewrite poke_inside by (rewrite length_app; simpl; lia).
  rewrite length_app. simpl. rewrite <- app_assoc. simpl.
  do 2 f_equal. f_equal. lia.
Qed.

Lemma length_strcpy (buf s : list char_t) : length (strcpy buf s) = length buf.
Proof. apply length_poke. Qed.

(** *** Group expansion *)

(** The getters of this file that work on their node alone. *)
Definition getter_fn (f : fptrCmd) : option (state -> nvObj -> stat_t * state * nvObj) :=
  match f with
  | Fget_nul => Some get_nul
  | Fget_ui8 => Some get_ui8
  | Fget_int => Some get_int
  | Fget_data => Some get_data
  | Fget_flt => Some get_flt
  | Fget_flu => Some get_flu
  | _ => None
  end.

Lemma getter_is_leaf (f : fptrCmd) g : getter_fn f = Some g -> leaf_fn f = Some g.
Proof. destruct f; simpl; intros [= <-]; reflexivity. Qed.

Lemma getter_keeps (f : fptrCmd) g (st : state) (nv : nvObj) :
  getter_fn f = Some g ->
  (g st nv).1.2 = st /\
  pv (g st nv).2 = pv nv /\ nx (g st nv).2 = nx nv /\
  index (g st nv).2 = index nv /\ depth (g st nv).2 = depth nv /\
  token (g st nv).2 = token nv /\ group (g st nv).2 = group nv /\
  stringp (g st nv).2 = stringp nv /\
  valuetype (g st nv).2 <> TYPE_PARENT.
Proof. destruct f; simpl; intros [= <-]; simpl; repeat split; done. Qed.

Lemma getter_reads_ram (f : fptrCmd) g (st1 st2 : state) (nv : nvObj) :
  getter_fn f = Some g ->
  ram st1 = ram st2 ->
  (g st1 nv).2 = (g st2 nv).2.
Proof.
  destruct f; simpl; intros [= <-] Hr; try reflexivity;
    unfold get_flu, get_ui8, get_int, get_data, get_flt, ram_u8, ram_u32, ram_flt;
    by rewrite Hr.
Qed.

(** The node [nv_get_nvObj] hands to the bound getter: cleared, at depth
    [dep], with the index, and the token and group of the descriptor
    copied in and stripped. *)
Definition nvObj_for (i dep : Z) (o : nvObj) : nvObj :=
  let d := cfg_at i in
  let tok := strcpy (poke (token o) 0 [NUL]) (cfg_token d) in
  let grp := strcpy (poke (group o) 0 [NUL]) (cfg_group d) in
  let grouped := negb (Ascii.eqb (byte_at grp 0) NUL) in
  let nostrip := flag_set (cfg_flags d) F_NOSTRIP in
  Build_nvObj (pv o) (nx o) i dep TYPE_EMPTY 0 zero
    (if grouped && negb nostrip then strcpy tok (drop (strlen grp) tok) else tok)
    (if grouped && nostrip then poke grp 0 [NUL] else grp)
    None.

Lemma nv_get_nvObj_with_eq call (st : state) (q q' : nat) (o pvn : nvObj) :
  nv_list st !! q = Some o ->
  0 <= index o < nv_index_max ->
  pv o = Some q' ->
  nv_list st !! q' = Some pvn ->
  nv_get_nvObj_with call st q =
    (r ← call (cfg_get (cfg_at (index o)))
              (set_nv_list (<[q := nvObj_for (index o)
                                    (if decide (valuetype pvn = TYPE_PARENT)
                                     then depth pvn + 1 else depth pvn) o]>
                            (nv_list st)) st) q;
     Some r.2).
Proof.
  intros Ho Hi Hpv Hpvn.
  assert (Hq : (q < length (nv_list st))%nat) by (by eapply lookup_lt_Some).
  unfold nv_get_nvObj_with. rewrite Ho. simpl.
  assert ((nv_index_max <=? index o) = false) as -> by (apply Z.leb_gt; lia).
  unfold nv_reset_nvObj. rewrite Ho. simpl. rewrite Hpv. simpl. rewrite Hpvn. simpl.
  unfold node_upd. simpl.
  repeat (rewrite list_lookup_insert_eq by (rewrite ?length_insert; done); simpl).
  rewrite !list_insert_insert_eq.
  unfold nvObj_for.
  destruct (Ascii.eqb (byte_at (strcpy (poke (group o) 0 [NUL]) (cfg_group (cfg_at (index o)))) 0) NUL);
    destruct (flag_set (cfg_flags (cfg_at (index o))) F_NOSTRIP); reflexivity.
Qed.

Lemma strcpy_chars (buf src : list char_t) : strcpy buf src = strcpy buf (chars src).
Proof. unfold strcpy. by rewrite (chars_id (chars src)) by apply chars_cstring. Qed.

Lemma strcpy_form (buf src : list char_t) :
  (strlen src < length buf)%nat ->
  strcpy buf src = chars src ++ NUL :: drop (S (strlen src)) buf.
Proof.
  intros Hlen. rewrite strcpy_chars, strcpy_fits.
  - by rewrite length_chars.
  - apply chars_cstring.
  - by rewrite length_chars.
Qed.

Lemma chars_strcpy (buf src : list char_t) :
  (strlen src < length buf)%nat -> chars (strcpy buf src) = chars src.
Proof.
  intros Hlen. rewrite strcpy_form by done. apply chars_lit, chars_cstring.
Qed.

Lemma strlen_cstring_id (s : list char_t) : cstring s -> strlen s = length s.
Proof. intros Hs. by rewrite <- length_chars, chars_id. Qed.

Lemma chars_poke_NUL (buf : list char_t) :
  (0 < length buf)%nat -> chars (poke buf 0 [NUL]) = [].
Proof.
  intros Hlen. rewrite poke_inside by (simpl; lia).
  unfold chars. simpl. by rewrite ?Ascii.eqb_refl.
Qed.

(** What a child shows of its descriptor. *)
Definition shown_token (d : cfgItem) : list char_t :=
  if flag_set (cfg_flags d) F_NOSTRIP then cfg_token d
  else drop (length (cfg_group d)) (cfg_token d).
Definition shown_group (d : cfgItem) : list char_t :=
  if flag_set (cfg_flags d) F_NOSTRIP then [] else cfg_group d.

(** A descriptor whose strings fit the arrays of a node. *)
Definition fits_node (d : cfgItem) : Prop :=
  cstring (cfg_token d) /\ cstring (cfg_group d) /\
  (length (cfg_token d) <= TOKEN_LEN)%nat /\
  (length (cfg_group d) <= GROUP_LEN)%nat /\
  (flag_set (cfg_flags d) F_NOSTRIP = false ->
   (length (cfg_group d) <= length (cfg_token d))%nat).

#[global] Instance fits_node_dec (d : cfgItem) : Decision (fits_node d).
Proof. unfold fits_node. apply _. Defined.

Lemma nvObj_for_strings (i dep : Z) (o : nvObj) :
  fits_node (cfg_at i) ->
  length (token o) = S TOKEN_LEN -> length (group o) = S GROUP_LEN ->
  chars (token (nvObj_for i dep o)) = shown_token (cfg_at i) /\
  chars (group (nvObj_for i dep o)) = shown_group (cfg_at i).
Proof.
  intros (Ht & Hg & Hlt & Hlg & Hpre) Hto Hgo.
  unfold nvObj_for, shown_token, shown_group, TOKEN_LEN, GROUP_LEN in *. simpl.
  set (T := cfg_token (cfg_at i)) in *. set (G := cfg_group (cfg_at i)) in *.
  assert (HlT : strlen T = length T) by (by apply strlen_cstring_id).
  assert (HlG : strlen G = length G) by (by apply strlen_cstring_id).
  assert (Htok : strcpy (poke (token o) 0 [NUL]) T =
                 T ++ NUL :: drop (S (length T)) (poke (token o) 0 [NUL])).
  { rewrite strcpy_form by (rewrite length_poke; lia). by rewrite chars_id, HlT. }
  assert (Hgrp : strcpy (poke (group o) 0 [NUL]) G =
                 G ++ NUL :: drop (S (length G)) (poke (group o) 0 [NUL])).
  { rewrite strcpy_form by (rewrite length_poke; lia). by rewrite chars_id, HlG. }
  rewrite Htok, Hgrp.
  assert (HcT : forall r, chars (T ++ NUL :: r) = T) by (intros; by apply chars_lit).
  assert (HcG : forall r, chars (G ++ NUL :: r) = G) by (intros; by apply chars_lit).
  destruct G as [|g0 G'] eqn:EG.
  - simpl. unfold byte_at. simpl. rewrite ?Ascii.eqb_refl. simpl.
    rewrite HcT. destruct (flag_set _ _); split; try done.
    all: unfold chars; simpl; by rewrite ?Ascii.eqb_refl.
  - apply Forall_cons in Hg as [Hg0 Hg'].
    unfold byte_at. simpl nth.
    rewrite (proj2 (Ascii.eqb_neq g0 NUL) Hg0). simpl negb. simpl andb.
    destruct (flag_set (cfg_flags (cfg_at i)) F_NOSTRIP) eqn:Hns; simpl negb.
    + split; [apply HcT|].
      apply chars_poke_NUL. rewrite length_app. simpl. lia.
    + split; [|apply (HcG _)].
      specialize (Hpre eq_refl).
      rewrite <- EG in *.
      assert (Hsl : strlen (G ++ NUL :: drop (S (length G)) (poke (group o) 0 [NUL])) = length G).
      { apply strlen_cstring. rewrite EG. by constructor. }
      rewrite Hsl.
      rewrite drop_app_le by lia.
      assert (Hcd : cstring (drop (length G) T)) by (by apply Forall_drop).
      rewrite chars_strcpy.
      * by apply chars_lit.
      * rewrite strlen_cstring by done. rewrite length_drop, length_app. simpl. lia.
Qed.

Lemma group_test (a g : list char_t) :
  cstring g -> (length g <= GROUP_LEN)%nat ->
  streq a (strcpy (auto_array (GROUP_LEN + 1)) g) = bool_decide (chars a = g).
Proof.
  intros Hg Hlen. rewrite streq_spec.
  rewrite chars_strcpy.
  - rewrite (chars_id g) by done. reflexivity.
  - rewrite length_auto_array, strlen_cstring_id by done. lia.
Qed.

Lemma nvObj_for_set_index (i dep j : Z) (o : nvObj) :
  nvObj_for i dep (set_index j o) = nvObj_for i dep o.
Proof. reflexivity. Qed.

(** The loop of [get_grp], entered with [cur] as the last node written:
    every index of [ixs] whose descriptor carries the group of the
    parent [P] fills the next node; nothing else changes. *)
Lemma get_grp_loop_spec (fuel : nat) (l0 : list nvObj) (P : nvObj) (p : nat) :
  forall (ixs : list Z) (st : state) (cur : nat),
  (forall i, i ∈ ixs -> 0 <= i < nv_index_max /\ fits_node (cfg_at i)) ->
  (forall i, i ∈ ixs -> chars (token P) = cfg_group (cfg_at i) ->
             is_Some (getter_fn (cfg_get (cfg_at i)))) ->
  let kids := filter (fun i => chars (token P) = cfg_group (cfg_at i)) ixs in
  (p <= cur)%nat ->
  (cur + length kids < length l0)%nat ->
  length (nv_list st) = length l0 ->
  nv_list st !! p = Some P ->
  (exists c, nv_list st !! cur = Some c /\
             (if decide (valuetype c = TYPE_PARENT) then depth c + 1 else depth c)
             = depth P + 1) ->
  (forall q, (cur < q)%nat -> nv_list st !! q = l0 !! q) ->
  (forall q o, (cur < q)%nat -> l0 !! q = Some o ->
               pv o = Some (q - 1)%nat /\
               length (token o) = S TOKEN_LEN /\ length (group o) = S GROUP_LEN) ->
  exists st',
    get_grp_loop (run_cmd fuel) ixs st p cur = Some st' /\
    st' = set_nv_list (nv_list st') st /\
    length (nv_list st') = length l0 /\
    (forall q, (q <= cur)%nat -> nv_list st' !! q = nv_list st !! q) /\
    (forall q, (cur + length kids < q)%nat -> nv_list st' !! q = l0 !! q) /\
    (forall k i, kids !! k = Some i ->
       exists o g, l0 !! (cur + 1 + k)%nat = Some o /\
                   getter_fn (cfg_get (cfg_at i)) = Some g /\
                   nv_list st' !! (cur + 1 + k)%nat
                   = Some (g st (nvObj_for i (depth P + 1) o)).2).
Proof.
  induction ixs as [|i ixs IH]; intros st cur Htbl Hget kids Hp Hfit Hlen HP Hcur Hrest Hl0.
  { exists st. simpl. split; [done|]. split; [by destruct st|].
    split; [done|]. split; [done|]. split; [intros q Hq; apply Hrest; lia|].
    intros k i Hk. subst kids. by rewrite filter_nil, lookup_nil in Hk. }
  simpl. rewrite HP. simpl.
  destruct (Htbl i) as [Hi Hfits]; [by left|].
  destruct Hfits as (Hct & Hcg & Hlt & Hlg & Hpre).
  rewrite group_test by done.
  assert (Htbl' : forall j, j ∈ ixs -> 0 <= j < nv_index_max /\ fits_node (cfg_at j))
    by (intros j Hj; apply Htbl; by right).
  assert (Hget' : forall j, j ∈ ixs -> chars (token P) = cfg_group (cfg_at j) ->
                            is_Some (getter_fn (cfg_get (cfg_at j))))
    by (intros j Hj; apply Hget; by right).
  destruct (decide (chars (token P) = cfg_group (cfg_at i))) as [Hm|Hm].
  - (* a member of the group *)
    rewrite bool_decide_eq_true_2 by done. simpl.
    assert (Hk : kids = i :: filter (fun i => chars (token P) = cfg_group (cfg_at i)) ixs)
      by (subst kids; by rewrite filter_cons_True).
    set (kids' := filter (fun i => chars (token P) = cfg_group (cfg_at i)) ixs) in *.
    rewrite Hk in Hfit. simpl in Hfit.
    destruct (lookup_lt_is_Some_2 l0 (S cur)) as [o Ho]; [lia|].
    destruct (Hl0 (S cur) o) as (Hpv & Hlto & Hlgo); [lia | done |].
    replace (S cur - 1)%nat with cur in Hpv by lia.
    assert (Ho' : nv_list st !! S cur = Some o) by (rewrite Hrest by lia; done).
    destruct Hcur as (c & Hc & Hdep).
    destruct (Hget i) as [g Hg]; [by left | done |].
    rewrite (node_upd_Some _ _ _ _ Ho'). cbn [mbind option_bind].
    erewrite nv_get_nvObj_with_eq; cycle 1.
    { apply (lookup_set_same _ _ _ _ Ho'). }
    { simpl. lia. }
    { simpl. exact Hpv. }
    { simpl. rewrite list_lookup_insert_ne by lia. exact Hc. }
    simpl index. rewrite nvObj_for_set_index, Hdep.
    rewrite set_nv_list_twice. simpl nv_list. rewrite list_insert_insert_eq.
    set (c0 := nvObj_for i (depth P + 1) o).
    set (st2 := set_nv_list (<[S cur := c0]> (nv_list st)) st).
    rewrite (run_cmd_leaf _ _ _ (getter_is_leaf _ _ Hg)).
    unfold on_node.
    assert (Hc0 : nv_list st2 !! S cur = Some c0)
      by (subst st2; simpl; apply list_lookup_insert_eq; lia).
    rewrite Hc0. cbn [mbind option_bind].
    destruct (getter_keeps _ g st2 c0 Hg) as (Hst & Hkpv & Hknx & Hkix & Hkd & _ & _ & _ & Hkvt).
    assert (Hc1 : (g st2 c0).2 = (g st c0).2)
      by (by apply (getter_reads_ram _ g st2 st c0 Hg)).
    destruct (g st2 c0) as [[r st2'] c1] eqn:Hgr. simpl in Hst, Hkpv, Hknx, Hkix, Hkd, Hkvt, Hc1.
    subst st2'. cbn [mbind option_bind snd].
    assert (Hst3 : set_nv_list (<[S cur := c1]> (nv_list st2)) st2
                   = set_nv_list (<[S cur := c1]> (nv_list st)) st)
      by (subst st2; simpl; by rewrite list_insert_insert_eq).
    rewrite Hst3. clear Hgr Hc0 Hst3.
    set (st3 := set_nv_list (<[S cur := c1]> (nv_list st)) st).
    destruct (IH st3 (S cur)) as (st' & Hrun & Hsame & Hlen' & Hlow & Hhigh & Hkids); try done.
    + lia.
    + fold kids'. lia.
    + subst st3. simpl. by rewrite length_insert.
    + subst st3. simpl. rewrite list_lookup_insert_ne by lia. done.
    + exists c1. split.
      * subst st3. simpl. apply list_lookup_insert_eq. lia.
      * rewrite decide_False by done. rewrite Hkd. reflexivity.
    + intros q Hq. subst st3. simpl. rewrite list_lookup_insert_ne by lia.
      apply Hrest. lia.
    + intros q o' Hq. apply Hl0. lia.
    + exists st'. split; [exact Hrun|]. split.
      { rewrite Hsame at 1. by subst st3. }
      split; [done|]. split.
      { intros q Hq. rewrite Hlow by lia. subst st3. simpl.
        rewrite list_lookup_insert_ne by lia. done. }
      split.
      { intros q Hq. apply Hhigh. rewrite Hk in Hq. simpl in Hq. fold kids'. lia. }
      intros k j Hkj. rewrite Hk in Hkj. destruct k as [|k]; simpl in Hkj.
      * injection Hkj as <-. exists o, g.
        replace (cur + 1 + 0)%nat with (S cur) by lia.
        split; [done|]. split; [done|].
        rewrite Hlow by lia. subst st3. simpl.
        rewrite list_lookup_insert_eq by lia. by rewrite Hc1.
      * destruct (Hkids k j Hkj) as (o' & g' & Ho'' & Hg' & Hres).
        exists o', g'.
        replace (cur + 1 + S k)%nat with (S cur + 1 + k)%nat by lia.
        split; [done|]. split; [done|].
        rewrite Hres. f_equal.
        by apply (getter_reads_ram _ g' st3 st _ Hg').
  - (* another group *)
    rewrite bool_decide_eq_false_2 by done. simpl.
    assert (Hk : kids = filter (fun i => chars (token P) = cfg_group (cfg_at i)) ixs)
      by (subst kids; by rewrite filter_cons_False).
    rewrite Hk in *.
    apply IH; done.
Qed.

Lemma filter_none {A : Type} (Q : A -> Prop) `{forall x, Decision (Q x)} (l : list A) :
  Forall (fun x => ~ Q x) l -> filter Q l = [].
Proof.
  induction 1 as [|x l Hx _ IH]; [reflexivity|].
  by rewrite filter_cons_False.
Qed.

(** The indices [get_grp] visits are those of the whole table when no
    entry behind the single-valued ones carries the group. *)
Lemma group_members_singles (G : list char_t) :
  NV_INDEX_END_SINGLES < nv_index_max ->
  -1 <= NV_INDEX_END_SINGLES ->
  (forall i, NV_INDEX_END_SINGLES < i < nv_index_max -> G <> cfg_group (cfg_at i)) ->
  filter (fun i => G = cfg_group (cfg_at i)) (seqZ 0 nv_index_max)
  = filter (fun i => G = cfg_group (cfg_at i)) (seqZ 0 (NV_INDEX_END_SINGLES + 1)).
Proof.
  intros Hend Hneg Hrest.
  replace nv_index_max
    with ((NV_INDEX_END_SINGLES + 1) + (nv_index_max - (NV_INDEX_END_SINGLES + 1))) at 1 by lia.
  rewrite seqZ_app by lia. rewrite filter_app.
  rewrite (filter_none _ (seqZ (0 + (NV_INDEX_END_SINGLES + 1)) _)); [by rewrite app_nil_r|].
  apply Forall_forall. intros i Hi%elem_of_seqZ. apply Hrest. lia.
Qed.

(** C9: [get_grp] on a node whose token names a group marks the node as
    the parent and fills the nodes that follow it, one for each
    descriptor of the table whose group field is that group, in index
    order.  Each child is what its bound getter makes of a cleared
    node; it carries the index of its descriptor, the depth of the
    parent plus one, and the token with the group prefix stripped, or,
    under NO-STRIP, the whole token and a blank group.  No other node and
    no other variable changes.  The children are single-valued entries
    with getters of this file, and they fit into the list. *)
Theorem get_grp_expands (fuel : nat) (st : state) (p : nat) (parent : nvObj) :
  nv_list st !! p = Some parent ->
  -1 <= NV_INDEX_END_SINGLES < nv_index_max ->
  (forall i, 0 <= i <= NV_INDEX_END_SINGLES -> fits_node (cfg_at i)) ->
  (forall i, NV_INDEX_END_SINGLES < i < nv_index_max ->
             chars (token parent) <> cfg_group (cfg_at i)) ->
  let kids := filter (fun i => chars (token parent) = cfg_group (cfg_at i))
                     (seqZ 0 nv_index_max) in
  (forall i, i ∈ kids -> is_Some (getter_fn (cfg_get (cfg_at i)))) ->
  (p + length kids < length (nv_list st))%nat ->
  (forall q o, (p < q)%nat -> nv_list st !! q = Some o ->
               pv o = Some (q - 1)%nat /\
               length (token o) = S TOKEN_LEN /\ length (group o) = S GROUP_LEN) ->
  exists st',
    get_grp fuel st p = Some (STAT_OK, st') /\
    st' = set_nv_list (nv_list st') st /\
    nv_list st' !! p = Some (set_valuetype TYPE_PARENT parent) /\
    (forall q, (q < p \/ p + length kids < q)%nat -> nv_list st' !! q = nv_list st !! q) /\
    (forall k i, kids !! k = Some i ->
       exists c g c0,
         nv_list st' !! (p + 1 + k)%nat = Some c /\
         getter_fn (cfg_get (cfg_at i)) = Some g /\
         c = (g st c0).2 /\
         valuetype c0 = TYPE_EMPTY /\ value c0 = zero /\ precision c0 = 0 /\
         stringp c0 = None /\
         index c = i /\
         depth c = depth parent + 1 /\
         chars (token c) = shown_token (cfg_at i) /\
         chars (group c) = shown_group (cfg_at i)).
Proof.
  intros Hparent Hend Hfits Hrest kids Hget Hroom Hl0.
  assert (Hkids : kids = filter (fun i => chars (token parent) = cfg_group (cfg_at i))
                                (seqZ 0 (NV_INDEX_END_SINGLES + 1)))
    by (subst kids; apply group_members_singles; [lia | lia | done]).
  assert (Hp : (p < length (nv_list st))%nat) by (by eapply lookup_lt_Some).
  unfold get_grp, get_grp_with. rewrite (node_upd_Some _ _ _ _ Hparent).
  cbn [mbind option_bind].
  set (P := set_valuetype TYPE_PARENT parent).
  set (st1 := set_nv_list (<[p := P]> (nv_list st)) st).
  destruct (get_grp_loop_spec fuel (nv_list st1) P p
              (seqZ 0 (NV_INDEX_END_SINGLES + 1)) st1 p)
    as (st' & Hrun & Hsame & Hlen & Hlow & Hhigh & Hch).
  - intros i Hi%elem_of_seqZ. split; [lia | apply Hfits; lia].
  - intros i Hi Hm. apply Hget. rewrite Hkids. apply list_elem_of_filter. done.
  - done.
  - simpl token. fold kids. rewrite <- Hkids. subst st1. simpl. by rewrite length_insert.
  - done.
  - subst st1. simpl. by apply list_lookup_insert_eq.
  - exists P. split; [subst st1; simpl; by apply list_lookup_insert_eq|].
    rewrite decide_True by done. done.
  - done.
  - intros q o Hq Ho. apply Hl0; [done|].
    subst st1. simpl in Ho. by rewrite list_lookup_insert_ne in Ho by lia.
  - simpl token in Hhigh, Hch. rewrite <- Hkids in Hhigh, Hch.
    rewrite Hrun. cbn [mbind option_bind].
    exists st'. split; [done|]. split; [rewrite Hsame at 1; by subst st1|].
    split; [rewrite Hlow by lia; subst st1; simpl; by apply list_lookup_insert_eq|].
    split.
    + intros q [Hq|Hq].
      * rewrite Hlow by lia. subst st1. simpl. by rewrite list_lookup_insert_ne by lia.
      * rewrite Hhigh by lia. subst st1. simpl. by rewrite list_lookup_insert_ne by lia.
    + intros k i Hk. destruct (Hch k i Hk) as (o & g & Ho & Hg & Hres).
      assert (Hi : i ∈ seqZ 0 (NV_INDEX_END_SINGLES + 1)).
      { apply list_elem_of_lookup_2 in Hk. rewrite Hkids in Hk.
        by apply list_elem_of_filter in Hk as [_ ?]. }
      apply elem_of_seqZ in Hi.
      assert (Ho' : nv_list st !! (p + 1 + k)%nat = Some o).
      { subst st1. simpl in Ho. by rewrite list_lookup_insert_ne in Ho by lia. }
      destruct (Hl0 (p + 1 + k)%nat o) as (_ & Hlt & Hlg); [lia | done |].
      destruct (nvObj_for_strings i (depth P + 1) o) as [Htok Hgrp]; [apply Hfits; lia | done | done |].
      destruct (getter_keeps _ g st (nvObj_for i (depth P + 1) o) Hg)
        as (_ & _ & _ & Hkix & Hkd & Hkt & Hkg & _ & _).
      exists (g st (nvObj_for i (depth P + 1) o)).2, g, (nvObj_for i (depth P + 1) o).
      split; [rewrite Hres; f_equal; by apply (getter_reads_ram _ g st1 st _ Hg)|].
      split; [done|]. split; [done|].
      split; [done|]. split; [done|]. split; [done|]. split; [done|].
      split; [by rewrite Hkix|]. split; [by rewrite Hkd|].
      split; [by rewrite Hkt | by rewrite Hkg].
Qed.

(** *** Adding a string object *)

(** The [nx] links stay inside the list. *)
Definition nx_inside (l : list nvObj) : Prop :=
  Forall (fun nv => from_option (fun q => (q < length l)%nat) True (nx nv)) l.

#[global] Instance nx_inside_dec (l : list nvObj) : Decision (nx_inside l).
Proof.
  unfold nx_inside. apply Forall_dec. intros nv. destruct (nx nv); simpl; apply _.
Defined.


(** *** Defaults and loading at boot *)

(** The setters of this file that work on their node alone. *)
Definition setter_fn (f : fptrCmd) : option (state -> nvObj -> stat_t * state * nvObj) :=
  match f with
  | Fset_nul => Some set_nul
  | Fset_ui8 => Some set_ui8
  | Fset_01 => Some set_01
  | Fset_012 => Some set_012
  | Fset_0123 => Some set_0123
  | Fset_int => Some set_int
  | Fset_data => Some set_data
  | Fset_flt => Some set_flt
  | Fset_flu => Some set_flu
  | _ => None
  end.

Lemma setter_is_leaf (f : fptrCmd) g : setter_fn f = Some g -> leaf_fn f = Some g.
Proof. destruct f; simpl; intros [= <-]; reflexivity. Qed.

(** The bytes a setter stores to, if it stores: those of the object
    its cast of the target address [a] points to, one byte for a
    [uint8_t], four for a [uint32_t] or a [float]. *)
Definition footprint (f : fptrCmd) (a : Z) : list Z :=
  match f with
  | Fset_ui8 | Fset_01 | Fset_012 | Fset_0123 => [a]
  | Fset_int | Fset_data | Fset_flt | Fset_flu => [a; a + 1; a + 2; a + 3]
  | _ => []
  end.

(** Two objects that share no byte. *)
Definition apart (l1 l2 : list Z) : Prop := forall a, a ∈ l1 -> a ∉ l2.

#[global] Instance apart_dec (l1 l2 : list Z) : Decision (apart l1 l2).
Proof.
  destruct (decide (Forall (fun a => a ∉ l2) l1)) as [H|H]; [left | right];
    unfold apart; by rewrite <- Forall_forall.
Defined.

(** The value passes the check of the setter. *)
Definition accepts (f : fptrCmd) (v : float) : Prop :=
  match f with
  | Fset_01 => gtb v (of_Z 1) = false
  | Fset_012 => gtb v (of_Z 2) = false
  | Fset_0123 => gtb v (of_Z 3) = false
  | _ => True
  end.

(** The location behind setter [f] at address [a] holds [v], in the
    form [f] stores it. *)
Definition holds (st : state) (f : fptrCmd) (a : Z) (v : float) : Prop :=
  match f with
  | Fset_ui8 | Fset_01 | Fset_012 | Fset_0123 => ram_u8 st a = to_u8 v
  | Fset_int => ram_u32 st a = to_u32 v
  | Fset_data => ram_u32 st a = to_bits v
  | Fset_flt | Fset_flu => ram_flt st a = v
  | _ => True
  end.

Definition same_ram (st st' : state) : Prop := ram st' = ram st.

Definition same_rest (st st' : state) : Prop :=
  nvStr st' = nvStr st /\ nv_list st' = nv_list st /\ units_mode st' = units_mode st /\
  comm_mode st' = comm_mode st /\ nvm st' = nvm st /\ trace st' = trace st.

Lemma holds_same_ram (st st' : state) (f : fptrCmd) (a : Z) (v : float) :
  same_ram st st' -> holds st f a v -> holds st' f a v.
Proof.
  unfold same_ram. intros Hr.
  destruct f; simpl; unfold ram_u8, ram_u32, ram_flt; rewrite ?Hr; done.
Qed.

(** What a location holds depends on its bytes alone. *)
Lemma holds_frame (st st' : state) (f : fptrCmd) (a : Z) (v : float) :
  (forall x, x ∈ footprint f a -> ram st' x = ram st x) ->
  holds st f a v -> holds st' f a v.
Proof.
  intros Hr.
  destruct f; simpl in *; try done; unfold ram_u8, ram_u32, ram_flt;
    rewrite ?(Hr a), ?(Hr (a + 1)), ?(Hr (a + 2)), ?(Hr (a + 3))
      by (rewrite !elem_of_cons; auto 10);
    done.
Qed.

Lemma setter_node (f : fptrCmd) g (st : state) (nv : nvObj) :
  setter_fn f = Some g ->
  units_mode st = MILLIMETERS ->
  same_rest st (g st nv).1.2 /\
  index (g st nv).2 = index nv /\ value (g st nv).2 = value nv.
Proof.
  intros Hg Hmm. unfold same_rest.
  destruct f; simpl in Hg; try done; injection Hg as <-;
    unfold set_01, set_012, set_0123, set_flu; rewrite ?Hmm;
    repeat match goal with |- context [gtb ?x ?y] => destruct (gtb x y) end;
    simpl; repeat split; done.
Qed.

Lemma setter_stores (f : fptrCmd) g (st : state) (nv : nvObj) :
  setter_fn f = Some g ->
  units_mode st = MILLIMETERS ->
  accepts f (value nv) ->
  holds (g st nv).1.2 f (cfg_target (cfg_at (index nv))) (value nv).
Proof.
  intros Hg Hmm Hacc.
  destruct f; simpl in Hg; try done; injection Hg as <-; cbn [accepts] in Hacc;
    unfold set_01, set_012, set_0123, set_flu; rewrite ?Hmm, ?Hacc;
    simpl; try done.
  - apply ram_u8_set_ui8, to_u8_range.
  - apply ram_u8_set_ui8, to_u8_range.
  - apply ram_u8_set_ui8, to_u8_range.
  - apply ram_u8_set_ui8, to_u8_range.
  - apply ram_u32_set_int, to_u32_range.
  - apply ram_u32_set_int, to_bits_range.
  - apply ram_flt_store_flt.
  - apply ram_flt_store_flt.
Qed.

(** A setter leaves every byte outside the object it stores to as it
    was. *)
Lemma setter_frames (f : fptrCmd) g (st : state) (nv : nvObj) (a : Z) :
  setter_fn f = Some g ->
  a ∉ footprint f (cfg_target (cfg_at (index nv))) ->
  ram (g st nv).1.2 a = ram st a.
Proof.
  intros Hg Ha.
  destruct f; simpl in Hg; try done; injection Hg as <-;
    unfold set_01, set_012, set_0123, set_flu, set_ui8, set_int, set_data, set_flt, set_nul;
    repeat match goal with |- context [gtb ?x ?y] => destruct (gtb x y) end;
    repeat match goal with |- context [decide ?P] => destruct (decide P) end;
    cbn [fst snd index set_value]; try done; cbn [footprint] in Ha;
    first [ apply ram_store_u8_other; rewrite elem_of_cons, elem_of_nil in Ha; tauto
          | by apply ram_store_u32_other
          | by apply ram_store_flt_other ].
Qed.

(** The descriptor is flagged INITIALIZE. *)
Definition inits (i : Z) : bool := flag_set (cfg_flags (cfg_at i)) F_INITIALIZE.

(** [nv_persist] on a node with index [i] reaches the nonvolatile
    store. *)
Definition persisted (i : Z) : bool :=
  negb DISABLE_PERSISTENCE && nv_index_lt_groups i &&
  flag_set (cfg_flags (cfg_at i)) F_PERSIST.

Lemma nv_persist_eq (st : state) (p : nat) (nv : nvObj) :
  nv_list st !! p = Some nv ->
  nv_persist st p =
    Some (if persisted (index nv) then write_persistent_value st nv else st).
Proof.
  intros Hnv. unfold nv_persist, persisted. rewrite Hnv. simpl.
  destruct DISABLE_PERSISTENCE; simpl; [done|].
  destruct (nv_index_lt_groups (index nv)); simpl; [|done].
  by destruct (flag_set _ _).
Qed.

(** The records written while the indices from [k] on are initialized. *)
Definition written (persist : bool) (k : Z) : list Z :=
  if persist
  then filter (fun j => inits j && persisted j = true)
              (seqZ k (NV_INDEX_END_SINGLES + 1 - k))
  else [].

(** What one pass of an initializing loop over index [k] does, [val k]
    being the value handed to the setter. *)
Definition step_post (persist : bool) (val : Z -> float) (k : Z) (p : nat)
    (st st' : state) : Prop :=
  nvStr st' = nvStr st /\ units_mode st' = units_mode st /\
  comm_mode st' = comm_mode st /\
  length (nv_list st') = length (nv_list st) /\
  (forall q, q <> p -> nv_list st' !! q = nv_list st !! q) /\
  nvm st' = (if persist && inits k && persisted k
             then upd (nvm st) k (val k) else nvm st) /\
  trace st' = trace st ++ (if persist && inits k && persisted k
                           then [EvWritePersistent k (val k)] else []) /\
  (inits k = true -> accepts (cfg_set (cfg_at k)) (val k) ->
   holds st' (cfg_set (cfg_at k)) (cfg_target (cfg_at k)) (val k)) /\
  (forall a,
     (inits k = true -> a ∉ footprint (cfg_set (cfg_at k)) (cfg_target (cfg_at k))) ->
     ram st' a = ram st a).

(** What the loop does from index [k] to the last single-valued
    entry. *)
Definition loop_post (persist : bool) (val : Z -> float) (k : Z) (p : nat)
    (st st' : state) : Prop :=
  nvStr st' = nvStr st /\ units_mode st' = units_mode st /\
  comm_mode st' = comm_mode st /\
  length (nv_list st') = length (nv_list st) /\
  (forall q, q <> p -> nv_list st' !! q = nv_list st !! q) /\
  (forall j, nvm st' j = if bool_decide (j ∈ written persist k) then val j else nvm st j) /\
  trace st' = trace st ++ map (fun j => EvWritePersistent j (val j)) (written persist k) /\
  (forall i, k <= i <= NV_INDEX_END_SINGLES -> inits i = true ->
     accepts (cfg_set (cfg_at i)) (val i) ->
     (forall j, i < j <= NV_INDEX_END_SINGLES -> inits j = true ->
        apart (footprint (cfg_set (cfg_at i)) (cfg_target (cfg_at i)))
              (footprint (cfg_set (cfg_at j)) (cfg_target (cfg_at j)))) ->
     holds st' (cfg_set (cfg_at i)) (cfg_target (cfg_at i)) (val i)) /\
  (forall a,
     (forall j, k <= j <= NV_INDEX_END_SINGLES -> inits j = true ->
        a ∉ footprint (cfg_set (cfg_at j)) (cfg_target (cfg_at j))) ->
     ram st' a = ram st a).

Lemma written_done (persist : bool) (k : Z) :
  NV_INDEX_END_SINGLES < k -> written persist k = [].
Proof.
  intros Hk. unfold written. destruct persist; [|done].
  rewrite seqZ_nil by lia. done.
Qed.

Lemma written_step (persist : bool) (k : Z) :
  k <= NV_INDEX_END_SINGLES ->
  written persist k =
    (if persist && inits k && persisted k then [k] else []) ++ written persist (k + 1).
Proof.
  intros Hk. unfold written. destruct persist; [|done]. simpl.
  rewrite seqZ_cons by lia. rewrite filter_cons.
  replace (Z.succ k) with (k + 1) by lia.
  replace (Z.pred (NV_INDEX_END_SINGLES + 1 - k)) with (NV_INDEX_END_SINGLES + 1 - (k + 1)) by lia.
  destruct (inits k && persisted k) eqn:E.
  - by rewrite decide_True.
  - by rewrite decide_False.
Qed.

Lemma written_from (persist : bool) (k j : Z) : j ∈ written persist k -> k <= j.
Proof.
  unfold written. destruct persist; [|by intros ?%elem_of_nil].
  intros [_ Hj%elem_of_seqZ]%list_elem_of_filter. lia.
Qed.

Lemma loop_post_done (persist : bool) (val : Z -> float) (k : Z) (p : nat) (st : state) :
  NV_INDEX_END_SINGLES < k -> loop_post persist val k p st st.
Proof.
  intros Hk. unfold loop_post. rewrite written_done by done. simpl.
  rewrite app_nil_r. repeat split; try done. intros i Hi. lia.
Qed.

Lemma loop_post_step (persist : bool) (val : Z -> float) (k : Z) (p : nat)
    (st st1 st' : state) :
  k <= NV_INDEX_END_SINGLES ->
  step_post persist val k p st st1 ->
  loop_post persist val (k + 1) p st1 st' ->
  loop_post persist val k p st st'.
Proof.
  intros Hk (S1 & S2 & S3 & S4 & S5 & S6 & S7 & S8 & S9)
            (L1 & L2 & L3 & L4 & L5 & L6 & L7 & L8 & L9).
  unfold loop_post. rewrite (written_step persist k Hk).
  split; [congruence|]. split; [congruence|]. split; [congruence|].
  split; [congruence|].
  split; [intros q Hq; rewrite L5, S5; done|].
  split; [|split; [|split]].
  - intros j. rewrite L6, S6.
    destruct (persist && inits k && persisted k) eqn:E; simpl.
    + destruct (decide (j = k)) as [->|Hjk].
      * rewrite (bool_decide_eq_false_2 (k ∈ written persist (k + 1)))
          by (intros H%written_from; lia).
        rewrite bool_decide_eq_true_2 by (by left).
        by rewrite upd_same.
      * rewrite upd_other by done.
        apply (f_equal (fun b : bool => if b then val j else nvm st j)).
        apply bool_decide_ext. rewrite elem_of_cons.
        split; [intros ?; by right | intros [?|?]; done].
    + done.
  - rewrite L7, S7, map_app, app_assoc. f_equal.
    by destruct (persist && inits k && persisted k).
  - intros i Hi Hin Hacc Hfree.
    destruct (decide (i = k)) as [->|Hik].
    + apply (holds_frame st1); [|by apply S8].
      intros x Hx. apply L9. intros j Hj Hinj. apply Hfree; [lia | done | done].
    + apply L8; try done; lia.
  - intros a Hfree. rewrite L9, S9; [done | |].
    + intros Hin. apply Hfree; [lia | done].
    + intros j Hj Hinj. apply Hfree; [lia | done].
Qed.

Lemma step_post_skip (persist : bool) (val : Z -> float) (k : Z) (p : nat) (st : state) :
  inits k = false -> step_post persist val k p st st.
Proof.
  intros Hk. unfold step_post. rewrite Hk, andb_false_r. simpl.
  rewrite app_nil_r. repeat split; done.
Qed.

Lemma step_post_node (persist : bool) (val : Z -> float) (k : Z) (p : nat)
    (st st1 : state) (x : nvObj) :
  step_post persist val k p st st1 ->
  step_post persist val k p st (set_nv_list (<[p := x]> (nv_list st1)) st1).
Proof.
  intros (S1 & S2 & S3 & S4 & S5 & S6 & S7 & S8 & S9).
  unfold step_post. simpl.
  split; [done|]. split; [done|]. split; [done|].
  split; [by rewrite length_insert|].
  split; [intros q Hq; by rewrite list_lookup_insert_ne, S5 by done|].
  split; [done|]. split; [done|]. split.
  - intros Hin Hacc. eapply holds_same_ram; [|by apply S8]. done.
  - intros a Hfree. simpl. by apply S9.
Qed.

(** One setter call of an initializing loop, with or without the
    [nv_persist] that follows it in [set_defaults]. *)
Lemma init_call (fuel : nat) (persist : bool) (val : Z -> float) (k : Z) (p : nat)
    (st0 st : state) (nv : nvObj) g :
  same_rest st0 (set_nv_list (nv_list st0) st) -> same_ram st0 st ->
  length (nv_list st) = length (nv_list st0) ->
  (forall q, q <> p -> nv_list st !! q = nv_list st0 !! q) ->
  nv_list st !! p = Some nv ->
  index nv = k -> value nv = val k ->
  0 <= k < nv_index_max ->
  units_mode st = MILLIMETERS ->
  inits k = true ->
  setter_fn (cfg_set (cfg_at k)) = Some g ->
  exists st1 nv1,
    (r ← nv_set_with (run_cmd fuel) st p;
     if persist then nv_persist r.2 p else Some r.2) = Some st1 /\
    nv_list st1 !! p = Some nv1 /\ index nv1 = k /\
    step_post persist val k p st0 st1.
Proof.
  intros (R1 & R2 & R3 & R4 & R5 & R6) Hram Hlen Hoth Hnv Hk Hv Hrange Hmm Hin Hg.
  simpl in R1, R2, R3, R4, R5, R6.
  assert (Hp : (p < length (nv_list st))%nat) by (by eapply lookup_lt_Some).
  pose proof (nv_set_in_range fuel st p nv g Hnv) as Hset.
  unfold nv_set in Hset. rewrite Hset; [|lia|subst k; by apply setter_is_leaf].
  clear Hset. cbn [mbind option_bind snd].
  destruct (setter_node _ g st nv ltac:(subst k; exact Hg) Hmm)
    as ((G1 & G2 & G3 & G4 & G5 & G6) & Gi & Gv).
  pose proof (setter_stores _ g st nv ltac:(subst k; exact Hg) Hmm) as Gs.
  pose proof (fun a => setter_frames _ g st nv a ltac:(subst k; exact Hg)) as Gf.
  rewrite Hk in Gs, Gf. rewrite Hv in Gs.
  set (stg := (g st nv).1.2) in *. set (nvg := (g st nv).2) in *.
  set (stc := set_nv_list (<[p := nvg]> (nv_list stg)) stg).
  assert (Hc : nv_list stc !! p = Some nvg).
  { subst stc. simpl. apply list_lookup_insert_eq. by rewrite G2. }
  assert (Hpost : forall stx, same_ram stc stx ->
            nvStr stx = nvStr stc -> units_mode stx = units_mode stc ->
            comm_mode stx = comm_mode stc -> nv_list stx = nv_list stc ->
            nvm stx = (if persist && inits k && persisted k
                       then upd (nvm st0) k (val k) else nvm st0) ->
            trace stx = trace st0 ++ (if persist && inits k && persisted k
                                      then [EvWritePersistent k (val k)] else []) ->
            step_post persist val k p st0 stx).
  { intros stx Hsr X1 X2 X3 X4 X5 X6. unfold step_post.
    split; [by rewrite X1, <- R1|]. split; [by rewrite X2, <- R3|].
    split; [by rewrite X3, <- R4|].
    split; [rewrite X4; subst stc; simpl; rewrite length_insert, G2; done|].
    split; [intros q Hq; rewrite X4; subst stc; simpl;
            rewrite list_lookup_insert_ne, G2 by done; by apply Hoth|].
    split; [done|]. split; [done|]. split.
    - intros _ Hacc. eapply holds_same_ram; [exact Hsr|].
      eapply holds_same_ram; [|by apply Gs]. done.
    - intros a Hfree. rewrite Hsr. subst stc. simpl.
      rewrite Gf by (by apply Hfree). unfold same_ram in Hram. by rewrite Hram. }
  destruct persist; simpl in Hpost |- *.
  - rewrite (nv_persist_eq _ _ _ Hc). rewrite Gi, Hk. rewrite Hin in Hpost. simpl in Hpost.
    destruct (persisted k) eqn:Hper.
    + exists (write_persistent_value stc nvg), nvg.
      split; [done|]. split; [done|]. split; [by rewrite Gi|].
      apply Hpost; try done.
      * unfold write_persistent_value. simpl. rewrite Gi, Gv, Hk, Hv, G5, <- R5. done.
      * unfold write_persistent_value. simpl. rewrite Gi, Gv, Hk, Hv, G6, <- R6. done.
    + exists stc, nvg. split; [done|]. split; [done|]. split; [by rewrite Gi|].
      apply Hpost; try done.
      * subst stc. simpl. by rewrite G5, <- R5.
      * subst stc. simpl. by rewrite G6, <- R6, app_nil_r.
  - exists stc, nvg. split; [done|]. split; [done|]. split; [by rewrite Gi|].
    apply Hpost; try done.
    * subst stc. simpl. by rewrite G5, <- R5.
    * subst stc. simpl. by rewrite G6, <- R6, app_nil_r.
Qed.

Lemma same_rest_node (st : state) (l : list nvObj) :
  same_rest st (set_nv_list (nv_list st) (set_nv_list l st)).
Proof. unfold same_rest. simpl. repeat split; done. Qed.

(** The loop of [set_defaults] from index [k] on. *)
Lemma set_defaults_loop_spec (fuel : nat) (p : nat) :
  forall (n : nat) (st : state) (k : Z) (nv : nvObj),
  nv_list st !! p = Some nv -> index nv = k -> 0 <= k ->
  units_mode st = MILLIMETERS ->
  NV_INDEX_END_SINGLES < nv_index_max ->
  (forall i, k <= i <= NV_INDEX_END_SINGLES -> inits i = true ->
             is_Some (setter_fn (cfg_set (cfg_at i)))) ->
  (Z.to_nat (NV_INDEX_END_SINGLES + 1 - k) < n)%nat ->
  exists st',
    set_defaults_loop (run_cmd fuel) n st p = Some st' /\
    loop_post true (fun i => cfg_def_value (cfg_at i)) k p st st'.
Proof.
  induction n as [|n IH]; intros st k nv Hnv Hk Hk0 Hmm Hend Hset Hn; [lia|].
  simpl. rewrite Hnv. cbn [mbind option_bind]. unfold nv_index_is_single. rewrite Hk.
  destruct (Z.leb_spec k NV_INDEX_END_SINGLES) as [Hle|Hgt];
    [|eexists; split; [reflexivity | by apply loop_post_done]].
  assert (Hnext : forall st1 nv1,
            nv_list st1 !! p = Some nv1 -> index nv1 = k ->
            step_post true (fun i => cfg_def_value (cfg_at i)) k p st st1 ->
            exists st',
              (st2 ← node_upd st1 p (fun nv => set_index (index nv + 1) nv);
               set_defaults_loop (run_cmd fuel) n st2 p) = Some st' /\
              loop_post true (fun i => cfg_def_value (cfg_at i)) k p st st').
  { intros st1 nv1 Hnv1 Hi1 Hpost.
    rewrite (node_upd_Some _ _ _ _ Hnv1). cbn [mbind option_bind].
    destruct (IH (set_nv_list (<[p := set_index (index nv1 + 1) nv1]> (nv_list st1)) st1)
                 (k + 1) (set_index (index nv1 + 1) nv1))
      as (st' & Hrun & Hloop).
    - by apply (lookup_set_same _ _ _ _ Hnv1).
    - simpl. lia.
    - lia.
    - simpl. destruct Hpost as (_ & -> & _). done.
    - done.
    - intros i Hi. apply Hset. lia.
    - lia.
    - exists st'. split; [done|].
      eapply loop_post_step; [done | | exact Hloop].
      by apply step_post_node. }
  fold (inits k).
  destruct (inits k) eqn:Hin.
  - destruct (Hset k) as [g Hg]; [lia | done |].
    rewrite (node_upd_Some _ _ _ _ Hnv). cbn [mbind option_bind].
    erewrite node_upd_Some by (by apply (lookup_set_same _ _ _ _ Hnv)).
    cbn [mbind option_bind]. rewrite set_nv_list_twice. simpl nv_list.
    rewrite list_insert_insert_eq.
    set (nv2 := set_token _ _).
    destruct (init_call fuel true (fun i => cfg_def_value (cfg_at i)) k p st
                (set_nv_list (<[p := nv2]> (nv_list st)) st) nv2 g)
      as (st1 & nv1 & Hrun & Hnv1 & Hi1 & Hpost).
    + apply same_rest_node.
    + done.
    + simpl. by rewrite length_insert.
    + intros q Hq. simpl. by rewrite list_lookup_insert_ne.
    + by apply (lookup_set_same _ _ _ _ Hnv).
    + subst nv2. simpl. done.
    + subst nv2. simpl. by rewrite Hk.
    + lia.
    + done.
    + done.
    + done.
    + cbn [mbind option_bind] in Hrun |- *.
      rewrite Hrun. by apply (Hnext st1 nv1).
  - cbn [mbind option_bind]. apply (Hnext st nv); [done | done |].
    by apply step_post_skip.
Qed.

(** The loop of [config_init] from index [k] on; nothing is written to
    the nonvolatile store, so every pass reads the records [val] the
    loop started with. *)
Lemma config_init_loop_spec (fuel : nat) (p : nat) (val : Z -> float) :
  forall (n : nat) (st : state) (k : Z) (nv : nvObj),
  nv_list st !! p = Some nv -> index nv = k -> 0 <= k ->
  units_mode st = MILLIMETERS ->
  nvm st = val ->
  NV_INDEX_END_SINGLES < nv_index_max ->
  (forall i, k <= i <= NV_INDEX_END_SINGLES -> inits i = true ->
             is_Some (setter_fn (cfg_set (cfg_at i)))) ->
  (Z.to_nat (NV_INDEX_END_SINGLES + 1 - k) < n)%nat ->
  exists st',
    config_init_loop (run_cmd fuel) n st p = Some st' /\
    loop_post false val k p st st'.
Proof.
  induction n as [|n IH]; intros st k nv Hnv Hk Hk0 Hmm Hval Hend Hset Hn; [lia|].
  simpl. rewrite Hnv. cbn [mbind option_bind]. unfold nv_index_is_single. rewrite Hk.
  destruct (Z.leb_spec k NV_INDEX_END_SINGLES) as [Hle|Hgt];
    [|eexists; split; [reflexivity | by apply loop_post_done]].
  assert (Hnext : forall st1 nv1,
            nv_list st1 !! p = Some nv1 -> index nv1 = k ->
            step_post false val k p st st1 ->
            exists st',
              (st2 ← node_upd st1 p (fun nv => set_index (index nv + 1) nv);
               config_init_loop (run_cmd fuel) n st2 p) = Some st' /\
              loop_post false val k p st st').
  { intros st1 nv1 Hnv1 Hi1 Hpost.
    rewrite (node_upd_Some _ _ _ _ Hnv1). cbn [mbind option_bind].
    destruct (IH (set_nv_list (<[p := set_index (index nv1 + 1) nv1]> (nv_list st1)) st1)
                 (k + 1) (set_index (index nv1 + 1) nv1))
      as (st' & Hrun & Hloop).
    - by apply (lookup_set_same _ _ _ _ Hnv1).
    - simpl. lia.
    - lia.
    - simpl. destruct Hpost as (_ & -> & _). done.
    - simpl. destruct Hpost as (_ & _ & _ & _ & _ & -> & _). done.
    - done.
    - intros i Hi. apply Hset. lia.
    - lia.
    - exists st'. split; [done|].
      eapply loop_post_step; [done | | exact Hloop].
      by apply step_post_node. }
  fold (inits k).
  destruct (inits k) eqn:Hin.
  - destruct (Hset k) as [g Hg]; [lia | done |].
    rewrite (node_upd_Some _ _ _ _ Hnv). cbn [mbind option_bind].
    erewrite node_upd_Some by (by apply (lookup_set_same _ _ _ _ Hnv)).
    cbn [mbind option_bind]. rewrite set_nv_list_twice. simpl nv_list.
    rewrite list_insert_insert_eq.
    set (nv2 := read_persistent_value _ _).
    destruct (init_call fuel false val k p st
                (set_nv_list (<[p := nv2]> (nv_list st)) st) nv2 g)
      as (st1 & nv1 & Hrun & Hnv1 & Hi1 & Hpost).
    + apply same_rest_node.
    + done.
    + simpl. by rewrite length_insert.
    + intros q Hq. simpl. by rewrite list_lookup_insert_ne.
    + by apply (lookup_set_same _ _ _ _ Hnv).
    + subst nv2. simpl. done.
    + subst nv2. simpl. by rewrite Hk, Hval.
    + lia.
    + done.
    + done.
    + done.
    + cbn [mbind option_bind] in Hrun |- *.
      rewrite Hrun. by apply (Hnext st1 nv1).
  - cbn [mbind option_bind]. apply (Hnext st nv); [done | done |].
    by apply step_post_skip.
Qed.

Lemma elem_of_written (j : Z) :
  j ∈ written true 0 <->
  0 <= j <= NV_INDEX_END_SINGLES /\ inits j = true /\ persisted j = true.
Proof.
  unfold written. rewrite list_elem_of_filter, elem_of_seqZ, andb_true_iff. 
  split; [intros [[??] ?] | intros (? & ? & ?)]; repeat split; try done; lia.
Qed.

Lemma nv_reset_nvObj_list_body (st : state) :
  (1 < length (nv_list st))%nat ->
  exists nv,
    (nv_reset_nvObj_list st).2 = nv_body /\
    nv_list (nv_reset_nvObj_list st).1 !! nv_body = Some nv /\
    same_ram st (nv_reset_nvObj_list st).1 /\
    units_mode (nv_reset_nvObj_list st).1 = units_mode st /\
    comm_mode (nv_reset_nvObj_list st).1 = comm_mode st /\
    nvm (nv_reset_nvObj_list st).1 = nvm st /\
    trace (nv_reset_nvObj_list st).1 = trace st.
Proof.
  intros Hlen.
  destruct (lookup_lt_is_Some_2 (nv_list (nv_reset_nvObj_list st).1) nv_body) as [nv Hnv].
  { unfold nv_reset_nvObj_list, nv_body. simpl. rewrite length_alter, length_imap. lia. }
  exists nv. unfold same_ram. repeat split; done.
Qed.

(** C6, as the code has it.  [config_init] leaves the units mode at
    millimeters.  If record 0 of the nonvolatile store differs from the
    build number, every single-valued descriptor flagged INITIALIZE has
    its default handed to its setter, in table order, and the default
    is written to its record only where [nv_persist] lets it through
    (PERSIST flag, persistence not disabled); all other records stay.
    If record 0 matches, no record is written, and the setters are
    handed the records.  In both cases a location holds the value
    handed to its setter when the setter accepts it and no later
    initialized descriptor stores to a byte of the location, and a
    byte that belongs to the location of no initialized descriptor
    keeps its content.  A location is the object behind the target
    address in the type the setter stores, one byte or four.  The
    descriptors flagged INITIALIZE bind setters of this file, and
    [fuel] covers the passes of the loop. *)
Theorem config_init_sequencer (fuel : nat) (st : state) :
  (1 < length (nv_list st))%nat ->
  NV_INDEX_END_SINGLES < nv_index_max ->
  fp_FALSE one = false ->
  (forall i, 0 <= i <= NV_INDEX_END_SINGLES -> inits i = true ->
             is_Some (setter_fn (cfg_set (cfg_at i)))) ->
  (Z.to_nat (NV_INDEX_END_SINGLES + 1) < fuel)%nat ->
  let defaults := negb (eqb (nvm st 0) fw_build) in
  let val := if defaults then (fun i => cfg_def_value (cfg_at i)) else nvm st in
  exists st',
    config_init fuel st = Some st' /\
    units_mode st' = MILLIMETERS /\
    (forall j, nvm st' j =
       if bool_decide (defaults = true /\ 0 <= j <= NV_INDEX_END_SINGLES /\
                       inits j = true /\ persisted j = true)
       then cfg_def_value (cfg_at j) else nvm st j) /\
    trace st' = trace st ++
      (if defaults
       then map (fun j => EvWritePersistent j (cfg_def_value (cfg_at j))) (written true 0)
            ++ [EvInitializing; EvSrInit]
       else [EvLoadingConfigs; EvSrInit]) /\
    (forall i, 0 <= i <= NV_INDEX_END_SINGLES -> inits i = true ->
       accepts (cfg_set (cfg_at i)) (val i) ->
       (forall j, i < j <= NV_INDEX_END_SINGLES -> inits j = true ->
          apart (footprint (cfg_set (cfg_at i)) (cfg_target (cfg_at i)))
                (footprint (cfg_set (cfg_at j)) (cfg_target (cfg_at j)))) ->
       holds st' (cfg_set (cfg_at i)) (cfg_target (cfg_at i)) (val i)) /\
    (forall a,
       (forall j, 0 <= j <= NV_INDEX_END_SINGLES -> inits j = true ->
          a ∉ footprint (cfg_set (cfg_at j)) (cfg_target (cfg_at j))) ->
       ram st' a = ram st a).
Proof.
  intros Hlen Hend Hfp Hset Hfuel defaults val.
  destruct (nv_reset_nvObj_list_body st Hlen) as (nv & Hp & Hnv & Hram & Hu & Hc & Hn & Ht).
  unfold config_init, config_init_with.
  destruct (nv_reset_nvObj_list st) as [st1 p]. simpl in Hp, Hnv, Hram, Hu, Hc, Hn, Ht.
  subst p.
  set (body := nv_body) in *.
  assert (Hnv1 : nv_list (set_units_mode MILLIMETERS st1) !! body = Some nv) by done.
  rewrite (node_upd_Some _ _ _ _ Hnv1). cbn [mbind option_bind].
  erewrite node_upd_Some by (by apply (lookup_set_same _ _ _ _ Hnv1)).
  cbn [mbind option_bind]. rewrite set_nv_list_twice. simpl nv_list.
  rewrite list_insert_insert_eq.
  set (nv2 := read_persistent_value _ _).
  set (st2 := set_nv_list (<[body := nv2]> (nv_list st1)) (set_units_mode MILLIMETERS st1)).
  assert (Hnv2 : nv_list st2 !! body = Some nv2).
  { subst st2. simpl. apply list_lookup_insert_eq. by eapply lookup_lt_Some. }
  change (<[body := nv2]> (nv_list st1) !! body) with (nv_list st2 !! body).
  rewrite Hnv2. cbn [mbind option_bind].
  assert (Hval2 : value nv2 = nvm st 0) by (subst nv2; simpl; by rewrite Hn).
  rewrite Hval2. fold defaults.
  destruct defaults eqn:Hdef; subst val; cbn [negb].
  - (* defaults *)
    rewrite (node_upd_Some _ _ _ _ Hnv2). cbn [mbind option_bind].
    unfold set_defaults_with.
    set (nv3 := set_value one nv2).
    set (st3 := set_nv_list (<[body := nv3]> (nv_list st2)) st2).
    assert (Hnv3 : nv_list st3 !! body = Some nv3)
      by (by apply (lookup_set_same _ _ _ _ Hnv2)).
    rewrite Hnv3. cbn [mbind option_bind]. simpl value. rewrite Hfp.
    assert (Hnv3' : nv_list (set_units_mode MILLIMETERS st3) !! body = Some nv3) by done.
    rewrite (node_upd_Some _ _ _ _ Hnv3'). cbn [mbind option_bind].
    set (st4 := set_nv_list _ (set_units_mode MILLIMETERS st3)).
    destruct (set_defaults_loop_spec fuel body fuel st4 0 (set_index 0 nv3))
      as (st' & Hrun & L1 & L2 & L3 & L4 & L5 & L6 & L7 & L8 & L9).
    + by apply (lookup_set_same _ _ _ _ Hnv3').
    + done.
    + lia.
    + done.
    + done.
    + done.
    + replace (NV_INDEX_END_SINGLES + 1 - 0) with (NV_INDEX_END_SINGLES + 1) by lia. done.
    + rewrite Hrun. cbn [mbind option_bind snd].
      eexists. split; [reflexivity|]. simpl.
      split; [by rewrite L2|]. split; [|split; [|split]].
      * intros j. rewrite L6. simpl. rewrite Hn.
        apply (f_equal (fun b : bool => if b then cfg_def_value (cfg_at j) else nvm st j)).
        apply bool_decide_ext. rewrite elem_of_written.
        split; [intros ?; by split | intros [_ ?]; done].
      * rewrite L7. simpl. rewrite Ht. by rewrite <- !app_assoc.
      * intros i Hi Hin Hacc Hfree.
        eapply holds_same_ram; [|by apply L8]. done.
      * intros a Hfree. rewrite L9 by done. simpl.
        unfold same_ram in Hram. by rewrite Hram.
  - (* the records are loaded *)
    assert (Hnv2' : nv_list (emit EvLoadingConfigs st2) !! body = Some nv2) by done.
    rewrite (node_upd_Some _ _ _ _ Hnv2'). cbn [mbind option_bind].
    set (st4 := set_nv_list _ (emit EvLoadingConfigs st2)).
    destruct (config_init_loop_spec fuel body (nvm st) fuel st4 0 (set_index 0 nv2))
      as (st' & Hrun & L1 & L2 & L3 & L4 & L5 & L6 & L7 & L8 & L9).
    + by apply (lookup_set_same _ _ _ _ Hnv2').
    + done.
    + lia.
    + done.
    + done.
    + done.
    + done.
    + replace (NV_INDEX_END_SINGLES + 1 - 0) with (NV_INDEX_END_SINGLES + 1) by lia. done.
    + rewrite Hrun. cbn [mbind option_bind].
      eexists. split; [reflexivity|]. simpl.
      split; [by rewrite L2|]. split; [|split; [|split]].
      * intros j. rewrite L6. simpl. by rewrite Hn.
      * rewrite L7. simpl. rewrite Ht, app_nil_r. by rewrite <- !app_assoc.
      * intros i Hi Hin Hacc Hfree.
        eapply holds_same_ram; [|by apply L8]. done.
      * intros a Hfree. rewrite L9 by done. simpl.
        unfold same_ram in Hram. by rewrite Hram.
Qed.

(** *** The list after a reset *)

Lemma nv_reset_nvObj_list_links (st : state) (q : nat) (o : nvObj) :
  nv_list (nv_reset_nvObj_list st).1 !! q = Some o ->
  (0 < q)%nat ->
  pv o = Some (q - 1)%nat /\
  nx o = (if decide (S q = length (nv_list st)) then None else Some (S q)) /\
  valuetype o = TYPE_EMPTY /\
  exists o', nv_list st !! q = Some o' /\
             length (token o) = length (token o') /\ group o = group o'.
Proof.
  intros Ho Hq. unfold nv_reset_nvObj_list in Ho. simpl in Ho.
  rewrite list_lookup_alter_ne in Ho by lia.
  rewrite list_lookup_imap in Ho.
  destruct (nv_list st !! q) as [o'|] eqn:Ho'; simpl in Ho; [|done].
  injection Ho as <-. simpl.
  split; [destruct q; [lia | f_equal; lia]|].
  split; [done|]. split; [done|].
  exists o'. split; [done|]. split; [by rewrite length_poke | done].
Qed.

Lemma nv_reset_nvObj_list_header (st : state) (o' : nvObj) :
  nv_list st !! 0%nat = Some o' ->
  exists o, nv_list (nv_reset_nvObj_list st).1 !! 0%nat = Some o /\
            pv o = None /\ depth o = 0 /\ valuetype o = TYPE_PARENT /\
            token o = strcpy (poke (token o') 0 [NUL]) (lit "r").
Proof.
  intros Ho'. unfold nv_reset_nvObj_list. simpl.
  rewrite list_lookup_alter_eq, list_lookup_imap, Ho'. simpl.
  eexists. split; [reflexivity|]. simpl. repeat split.
Qed.

(** ** The rest of config.c *)

(** *** Token classes and objects added to the body *)

(** [nv_group_is_prefixed]: the groups whose members do not carry the
    group as a prefix of their token. *)
Definition nv_group_is_prefixed (group : list char_t) : bool :=
  if streq (lit "sr") group then false
  else if streq (lit "sys") group then false
  else true.

(** The command types [nv_get_type] tells apart. *)
Inductive nvType :=
  | NV_TYPE_NULL | NV_TYPE_CONFIG | NV_TYPE_GCODE
  | NV_TYPE_REPORT | NV_TYPE_MESSAGE | NV_TYPE_LINENUM.

#[global] Instance nvType_eq_dec : EqDecision nvType.
Proof. solve_decision. Defined.

Definition nv_get_type (nv : nvObj) : nvType :=
  if Ascii.eqb (byte_at (token nv) 0) NUL then NV_TYPE_NULL
  else if streq (lit "gc") (token nv) then NV_TYPE_GCODE
  else if streq (lit "sr") (token nv) then NV_TYPE_REPORT
  else if streq (lit "qr") (token nv) then NV_TYPE_REPORT
  else if streq (lit "msg") (token nv) then NV_TYPE_MESSAGE
  else if streq (lit "err") (token nv) then NV_TYPE_MESSAGE
  else if streq (lit "n") (token nv) then NV_TYPE_LINENUM
  else NV_TYPE_CONFIG.

(** The loop the [nv_add_] functions share: from [p] on, at most [n]
    nodes are looked at; [fill] is what the function does with the
    first empty node.  The result is the node that was written, or
    [None] for the null pointer. *)
Fixpoint nv_add_loop (fill : state -> nat -> option (option nat * state))
    (n : nat) (st : state) (p : nat) : option (option nat * state) :=
  match n with
  | O => Some (None, st)
  | S n' =>
      nv ← nv_list st !! p;
      if negb (bool_decide (valuetype nv = TYPE_EMPTY)) then
        match nx nv with
        | None => Some (None, st)
        | Some q => nv_add_loop fill n' st q
        end
      else fill st p
  end.

(** [nv_add_object]: add an object to the body using a token. *)
Definition nv_add_object (fuel : nat) (st : state) (tok : list char_t)
  : option (option nat * state) :=
  nv_add_loop (fun st p =>
      st ← node_upd st p (set_index (nv_get_index [] tok));
      nv ← nv_list st !! p;
      if index nv =? NO_MATCH then Some (None, st)
      else
        st ← nv_get_nvObj fuel st p;
        Some (Some p, st))
    NV_BODY_LEN st nv_body.

(** [nv_add_integer]: [value] is a [uint32_t]. *)
Definition nv_add_integer (st : state) (tok : list char_t) (v : Z)
  : option (option nat * state) :=
  nv_add_loop (fun st p =>
      st ← node_upd st p (fun nv => set_token (strncpy (token nv) tok TOKEN_LEN) nv);
      st ← node_upd st p (set_value (of_Z v));
      st ← node_upd st p (set_valuetype TYPE_INTEGER);
      Some (Some p, st))
    NV_BODY_LEN st nv_body.

(** [nv_add_data]: the 32 bits of [value] are taken as a float. *)
Definition nv_add_data (st : state) (tok : list char_t) (v : Z)
  : option (option nat * state) :=
  nv_add_loop (fun st p =>
      st ← node_upd st p (fun nv => set_token (strcpy (token nv) tok) nv);
      st ← node_upd st p (set_value (of_bits v));
      st ← node_upd st p (set_valuetype TYPE_DATA);
      Some (Some p, st))
    NV_BODY_LEN st nv_body.

Definition nv_add_float (st : state) (tok : list char_t) (v : float)
  : option (option nat * state) :=
  nv_add_loop (fun st p =>
      st ← node_upd st p (fun nv => set_token (strncpy (token nv) tok TOKEN_LEN) nv);
      st ← node_upd st p (set_value v);
      st ← node_upd st p (set_valuetype TYPE_FLOAT);
      Some (Some p, st))
    NV_BODY_LEN st nv_body.

(** [nv_add_conditional_message]; [echo_json_messages] is the setting
    [js.echo_json_messages] of the JSON parser. *)
Definition nv_add_conditional_message (echo_json_messages : bool)
    (st : state) (str : list char_t) : option (option nat * state) :=
  if bool_decide (comm_mode st = JSON_MODE) && negb echo_json_messages
  then Some (None, st)
  else nv_add_string st (lit "msg") str.

(** *** Resetting the list *)

Lemma poke_head (a c : char_t) (t : list char_t) : poke (a :: t) 0 [c] = c :: t.
Proof. rewrite poke_inside by (simpl; lia). reflexivity. Qed.

Lemma poke_NUL_twice (t : list char_t) : poke (poke t 0 [NUL]) 0 [NUL] = poke t 0 [NUL].
Proof. destruct t; [reflexivity|]. by rewrite !poke_head. Qed.

Lemma strcpy_r_twice (t : list char_t) :
  strcpy (poke (strcpy (poke t 0 [NUL]) (lit "r")) 0 [NUL]) (lit "r")
  = strcpy (poke t 0 [NUL]) (lit "r").
Proof.
  destruct t as [|a [|b t]]; try reflexivity.
  rewrite poke_head.
  assert (forall x y, strcpy (x :: y :: t) (lit "r") = "r"%char :: NUL :: t) as Hr.
  { intros x y. rewrite strcpy_fits; [reflexivity | by repeat constructor | simpl; lia]. }
  by rewrite !Hr, poke_head, Hr.
Qed.

Lemma strlen_poke_NUL (t : list char_t) : strlen (poke t 0 [NUL]) = 0%nat.
Proof. destruct t; [reflexivity|]. rewrite poke_head. simpl. by rewrite ?Ascii.eqb_refl. Qed.

Lemma nvObj_ext (a b : nvObj) :
  pv a = pv b -> nx a = nx b -> index a = index b -> depth a = depth b ->
  valuetype a = valuetype b -> precision a = precision b -> value a = value b ->
  token a = token b -> group a = group b -> stringp a = stringp b -> a = b.
Proof. destruct a, b; simpl; intros; congruence. Qed.

(** X1: [nv_reset_nvObj_list] is idempotent: a second reset right
    after the first changes no variable and returns the same node. *)
Theorem nv_reset_nvObj_list_idempotent (st : state) :
  nv_reset_nvObj_list (nv_reset_nvObj_list st).1 = nv_reset_nvObj_list st.
Proof.
  unfold nv_reset_nvObj_list.
  cbn [fst snd nv_list nvStr set_nvStr set_nv_list wp string_buf spilled
       ram_u8 ram_u32 ram_flt units_mode comm_mode nvm trace].
  rewrite length_alter, length_imap.
  match goal with
  | |- (set_nv_list ?l2 _, _) = (set_nv_list ?l1 _, _) =>
      assert (Hl : l2 = l1); [|rewrite Hl; reflexivity]
  end.
  apply list_eq. intros i.
  destruct (decide (i = 0%nat)) as [->|Hi].
  - rewrite !list_lookup_alter_eq, !list_lookup_imap, list_lookup_alter_eq, list_lookup_imap.
    destruct (nv_list st !! 0%nat) as [o|]; [|reflexivity].
    cbn [fmap option_fmap option_map]. f_equal.
    apply nvObj_ext; simpl; try reflexivity.
    apply strcpy_r_twice.
  - rewrite !list_lookup_alter_ne by done.
    rewrite !list_lookup_imap, list_lookup_alter_ne, list_lookup_imap by done.
    destruct (nv_list st !! i) as [o|]; [|reflexivity].
    cbn [fmap option_fmap option_map]. f_equal.
    apply nvObj_ext; simpl; try reflexivity.
    apply poke_NUL_twice.
Qed.

(** The nodes of a list that was just reset. *)
Lemma nv_reset_nvObj_list_nodes (st : state) (q : nat) (o : nvObj) :
  nv_list (nv_reset_nvObj_list st).1 !! q = Some o ->
  pv o = match q with O => None | S j => Some j end /\
  nx o = (if decide (S q = length (nv_list st)) then None else Some (S q)) /\
  index o = 0 /\ precision o = 0 /\
  (if decide (q = 0%nat)
   then valuetype o = TYPE_PARENT /\ depth o = 0 /\
        ((2 <= length (token o))%nat -> chars (token o) = lit "r")
   else valuetype o = TYPE_EMPTY /\ depth o = 1 /\ chars (token o) = []) /\
  exists o', nv_list st !! q = Some o' /\
             value o = value o' /\ group o = group o' /\ stringp o = stringp o' /\
             length (token o) = length (token o').
Proof.
  intros Ho. unfold nv_reset_nvObj_list in Ho. simpl in Ho.
  destruct (decide (q = 0%nat)) as [->|Hq].
  - rewrite list_lookup_alter_eq, list_lookup_imap in Ho.
    destruct (nv_list st !! 0%nat) as [o'|] eqn:Ho'; simpl in Ho; [|done].
    injection Ho as <-. simpl. repeat split.
    + rewrite length_strcpy, length_poke. intros Hlen.
      rewrite chars_strcpy; [reflexivity|]. rewrite length_poke. simpl. lia.
    + exists o'. repeat split. by rewrite length_strcpy, length_poke.
  - rewrite list_lookup_alter_ne, list_lookup_imap in Ho by done.
    destruct (nv_list st !! q) as [o'|] eqn:Ho'; simpl in Ho; [|done].
    injection Ho as <-. simpl. repeat split.
    + unfold chars. by rewrite strlen_poke_NUL.
    + exists o'. repeat split. by rewrite length_poke.
Qed.

Lemma length_nv_reset_nvObj_list (st : state) :
  length (nv_list (nv_reset_nvObj_list st).1) = length (nv_list st).
Proof. unfold nv_reset_nvObj_list. simpl. by rewrite length_alter, length_imap. Qed.

(** X2: what [nv_reset_nvObj_list] leaves behind.  The write offset of
    the shared string is 0 and its content is kept.  The list keeps its
    length and is linked in order, forward and backward, with null
    links at both ends.  The header is a parent at depth 0 named "r";
    every other node is empty at depth 1 with an empty token.  Index
    and precision are 0 everywhere.  The value, the group and the
    string reference of a node are not cleared: they are what they were
    before the reset.  No storage location, record or mode changes. *)
Theorem nv_reset_nvObj_list_fresh (st : state) :
  let st' := (nv_reset_nvObj_list st).1 in
  (nv_reset_nvObj_list st).2 = nv_body /\
  wp (nvStr st') = 0%nat /\
  string_buf (nvStr st') = string_buf (nvStr st) /\
  length (nv_list st') = length (nv_list st) /\
  nx_inside (nv_list st') /\
  (forall q o, nv_list st' !! q = Some o ->
     pv o = match q with O => None | S j => Some j end /\
     nx o = (if decide (S q = length (nv_list st)) then None else Some (S q)) /\
     index o = 0 /\ precision o = 0 /\
     (if decide (q = 0%nat)
      then valuetype o = TYPE_PARENT /\ depth o = 0 /\
           ((2 <= length (token o))%nat -> chars (token o) = lit "r")
      else valuetype o = TYPE_EMPTY /\ depth o = 1 /\ chars (token o) = []) /\
     exists o', nv_list st !! q = Some o' /\
                value o = value o' /\ group o = group o' /\ stringp o = stringp o' /\
                length (token o) = length (token o')) /\
  same_ram st st' /\ nvm st' = nvm st /\ trace st' = trace st /\
  units_mode st' = units_mode st /\ comm_mode st' = comm_mode st.
Proof.
  intros st'. subst st'.
  pose proof (length_nv_reset_nvObj_list st) as Hlen.
  split; [reflexivity|]. split; [reflexivity|]. split; [reflexivity|].
  split; [exact Hlen|]. split; [|split; [apply nv_reset_nvObj_list_nodes|]].
  - unfold nx_inside. apply Forall_lookup. intros q o Ho.
    destruct (nv_reset_nvObj_list_nodes st q o Ho) as (_ & Hnx & _). rewrite Hnx.
    apply lookup_lt_Some in Ho. rewrite Hlen in Ho |- *.
    destruct (decide (S q = length (nv_list st))); simpl; [done | lia].
  - unfold same_ram. repeat split.
Qed.

(** *** Adding objects to the body *)

(** The nodes from [nv_body] up to, not including, [q] are in use, each
    linked to the node behind it. *)
Definition occupied_to (l : list nvObj) (q : nat) : Prop :=
  forall j, (nv_body <= j < q)%nat ->
    exists nvj, l !! j = Some nvj /\ valuetype nvj <> TYPE_EMPTY /\ nx nvj = Some (S j).

Lemma occupied_to_Forall (l : list nvObj) (q : nat) :
  occupied_to l q <->
  Forall (fun j => from_option (fun nvj => valuetype nvj <> TYPE_EMPTY /\ nx nvj = Some (S j))
                               False (l !! j))
         (seq nv_body (q - nv_body)).
Proof.
  unfold occupied_to, nv_body. rewrite Forall_forall. split.
  - intros H j Hj%elem_of_seq. destruct (H j) as (nvj & -> & ?); [lia | done].
  - intros H j Hj. specialize (H j). rewrite elem_of_seq in H.
    destruct (l !! j) as [nvj|]; simpl in H; [|exfalso; apply H; lia].
    exists nvj. split; [done | apply H; lia].
Qed.

#[global] Instance occupied_to_dec (l : list nvObj) (q : nat) : Decision (occupied_to l q).
Proof.
  assert (Hdec : forall j, Decision
            (from_option (fun nvj => valuetype nvj <> TYPE_EMPTY /\ nx nvj = Some (S j))
                         False (l !! j)))
    by (intros j; destruct (l !! j); simpl; apply _).
  destruct (@Forall_dec _ _ Hdec (seq nv_body (q - nv_body))) as [H|H]; [left | right];
    by rewrite occupied_to_Forall.
Defined.

Lemma nv_add_loop_skips fill (st : state) (k : nat) :
  forall (n p : nat),
  (forall j, (p <= j < p + k)%nat ->
     exists nvj, nv_list st !! j = Some nvj /\ valuetype nvj <> TYPE_EMPTY /\
                 nx nvj = Some (S j)) ->
  nv_add_loop fill (k + n) st p = nv_add_loop fill n st (p + k).
Proof.
  induction k as [|k IH]; intros n p Hocc.
  - by rewrite Nat.add_0_r.
  - simpl. destruct (Hocc p ltac:(lia)) as (nvp & Hp & Hne & Hnx).
    rewrite Hp. cbn [mbind option_bind].
    rewrite bool_decide_eq_false_2 by done. cbn [negb]. rewrite Hnx.
    rewrite IH by (intros j Hj; apply Hocc; lia).
    f_equal. lia.
Qed.

(** The loop hands the first empty node of the body to [fill]. *)
Lemma nv_add_loop_first_empty fill (st : state) (q : nat) (nvq : nvObj) :
  occupied_to (nv_list st) q -> (nv_body <= q <= NV_BODY_LEN)%nat ->
  nv_list st !! q = Some nvq -> valuetype nvq = TYPE_EMPTY ->
  nv_add_loop fill NV_BODY_LEN st nv_body = fill st q.
Proof.
  intros Hocc Hq Hnvq He. unfold nv_body in *.
  replace NV_BODY_LEN with ((q - 1) + S (NV_BODY_LEN - q))%nat by lia.
  rewrite nv_add_loop_skips by (intros j Hj; apply Hocc; unfold nv_body; lia).
  replace (1 + (q - 1))%nat with q by lia.
  simpl. rewrite Hnvq. cbn [mbind option_bind].
  by rewrite bool_decide_eq_true_2 by done.
Qed.

(** A body without an empty node: the loop ends on its count. *)
Lemma nv_add_loop_full fill (st : state) :
  occupied_to (nv_list st) (nv_body + NV_BODY_LEN) ->
  nv_add_loop fill NV_BODY_LEN st nv_body = Some (None, st).
Proof.
  intros Hocc.
  replace NV_BODY_LEN with (NV_BODY_LEN + 0)%nat at 1 by lia.
  rewrite nv_add_loop_skips by (intros j Hj; apply Hocc; lia).
  reflexivity.
Qed.

Lemma nv_add_string_loop_eq (tok str : list char_t) (n : nat) :
  forall (st : state) (p : nat),
  nv_add_string_loop n st p tok str =
  nv_add_loop (fun st p =>
      st ← node_upd st p (fun nv => set_token (strncpy (token nv) tok TOKEN_LEN) nv);
      r ← nv_copy_string st p str;
      if negb (bool_decide (r.1 = STAT_OK)) then Some (None, r.2)
      else
        st ← node_upd r.2 p (fun nv => set_index (nv_get_index [] (token nv)) nv);
        st ← node_upd st p (set_valuetype TYPE_STRING);
        Some (Some p, st)) n st p.
Proof.
  induction n as [|n IH]; intros st p; simpl; [reflexivity|].
  destruct (nv_list st !! p) as [nv|]; [|reflexivity]. cbn [mbind option_bind].
  destruct (negb _); [|reflexivity].
  destruct (nx nv); [apply IH | reflexivity].
Qed.

(** Three assignments to the fields of one node. *)
Lemma node_upd_thrice (st : state) (p : nat) (nv : nvObj) (f1 f2 f3 : nvObj -> nvObj) :
  nv_list st !! p = Some nv ->
  (st ← node_upd st p f1; st ← node_upd st p f2; node_upd st p f3)
  = Some (set_nv_list (<[p := f3 (f2 (f1 nv))]> (nv_list st)) st).
Proof.
  intros Hnv. assert (Hp : (p < length (nv_list st))%nat) by (by eapply lookup_lt_Some).
  unfold node_upd. rewrite Hnv. simpl.
  repeat (rewrite list_lookup_insert_eq by (rewrite ?length_insert; done); simpl).
  by rewrite !list_insert_insert_eq.
Qed.

(** [strncpy] of a token into the token array of a node: its first
    [TOKEN_LEN] characters, ended by the last byte of the array, which
    [strncpy] does not write. *)
Lemma chars_strncpy_token (buf tok : list char_t) :
  length buf = S TOKEN_LEN -> byte_at buf TOKEN_LEN = NUL ->
  chars (strncpy buf tok TOKEN_LEN) = take TOKEN_LEN (chars tok).
Proof.
  intros Hlen Hlast. pose proof (chars_cstring tok) as Hc.
  unfold strncpy, TOKEN_LEN, cstring, byte_at in *. revert Hc.
  generalize (chars tok) as c. intros c Hc.
  destruct buf as [|b0 [|b1 [|b2 [|b3 [|b4 [|b5 [|b6 buf]]]]]]]; simpl in Hlen; try lia.
  simpl in Hlast. subst b5.
  destruct c as [|c0 [|c1 [|c2 [|c3 [|c4 c]]]]];
    repeat match goal with
           | H : Forall _ (_ :: _) |- _ => apply Forall_cons in H; destruct H
           end;
    unfold chars, poke; simpl;
    repeat match goal with
           | H : ?c <> NUL |- context [Ascii.eqb ?c NUL] =>
               rewrite (proj2 (Ascii.eqb_neq c NUL) H)
           end;
    rewrite ?Ascii.eqb_refl; simpl; reflexivity.
Qed.

(** C5, as the code has it: when the shared string cannot take the
    string, [nv_add_string] returns no node, and every variable is as
    before except the token of the first empty node of the body, the
    node the string would have gone to: [strncpy] has overwritten it
    with the first [TOKEN_LEN] characters of the new token before the
    copy of the string was tried.  The node stays empty; its value, its
    index, its string reference and its other fields are as before, and
    so are the shared string and the other nodes.  The nodes in front
    of the empty one are in use and linked as [nv_reset_nvObj_list]
    links them. *)
Theorem nv_add_string_buffer_full (st : state) (tok str : list char_t)
    (q : nat) (nvq : nvObj) :
  occupied_to (nv_list st) q -> (nv_body <= q <= NV_BODY_LEN)%nat ->
  nv_list st !! q = Some nvq -> valuetype nvq = TYPE_EMPTY ->
  (NV_SHARED_STRING_LEN < wp (nvStr st) + strlen str)%nat ->
  exists nv',
    nv_add_string st tok str = Some (None, set_nv_list (<[q := nv']> (nv_list st)) st) /\
    token nv' = strncpy (token nvq) tok TOKEN_LEN /\
    (length (token nvq) = S TOKEN_LEN -> byte_at (token nvq) TOKEN_LEN = NUL ->
     chars (token nv') = take TOKEN_LEN (chars tok)) /\
    valuetype nv' = TYPE_EMPTY /\ value nv' = value nvq /\ index nv' = index nvq /\
    stringp nv' = stringp nvq /\ group nv' = group nvq /\ depth nv' = depth nvq /\
    precision nv' = precision nvq /\ pv nv' = pv nvq /\ nx nv' = nx nvq.
Proof.
  intros Hocc Hq Hnvq He Hfull. unfold nv_add_string.
  rewrite nv_add_string_loop_eq, (nv_add_loop_first_empty _ st q nvq) by done.
  rewrite (node_upd_Some _ _ _ _ Hnvq). cbn [mbind option_bind].
  rewrite nv_copy_string_full by done. cbn [mbind option_bind fst snd].
  rewrite bool_decide_eq_false_2 by done. cbn [negb].
  eexists. split; [reflexivity|]. cbn [token set_token].
  split; [reflexivity|].
  split; [intros Hlen Hlast; by apply chars_strncpy_token|].
  repeat split; done.
Qed.

(** X3: [nv_add_integer] writes the first empty node of the body and
    returns it: the node becomes an integer that carries [v], exactly
    for [v] up to [2^24], under the first [TOKEN_LEN] characters of the
    token; its links, index, depth, precision, group and string
    reference stay, and no other node or variable changes.  The nodes
    in front of it are in use and linked in order, and the last byte of
    its token array is a terminator. *)
Theorem nv_add_integer_first_empty (st : state) (tok : list char_t) (v : Z)
    (q : nat) (nvq : nvObj) :
  occupied_to (nv_list st) q -> (nv_body <= q <= NV_BODY_LEN)%nat ->
  nv_list st !! q = Some nvq -> valuetype nvq = TYPE_EMPTY ->
  length (token nvq) = S TOKEN_LEN -> byte_at (token nvq) TOKEN_LEN = NUL ->
  0 <= v <= 2 ^ 24 ->
  exists nv',
    nv_add_integer st tok v = Some (Some q, set_nv_list (<[q := nv']> (nv_list st)) st) /\
    valuetype nv' = TYPE_INTEGER /\
    to_u32 (value nv') = v /\
    chars (token nv') = take TOKEN_LEN (chars tok) /\
    pv nv' = pv nvq /\ nx nv' = nx nvq /\ index nv' = index nvq /\
    depth nv' = depth nvq /\ precision nv' = precision nvq /\
    group nv' = group nvq /\ stringp nv' = stringp nvq.
Proof.
  intros Hocc Hq Hnvq He Hlen Hlast Hv. unfold nv_add_integer.
  rewrite (nv_add_loop_first_empty _ st q nvq) by done.
  pose proof (node_upd_thrice st q nvq
                (fun nv => set_token (strncpy (token nv) tok TOKEN_LEN) nv)
                (set_value (of_Z v)) (set_valuetype TYPE_INTEGER) Hnvq) as H3.
  cbn [mbind option_bind] in H3 |- *.
  destruct (node_upd st q _) as [st1|]; [|done]. cbn [mbind option_bind] in H3 |- *.
  destruct (node_upd st1 q _) as [st2|]; [|done]. cbn [mbind option_bind] in H3 |- *.
  rewrite H3. cbn [mbind option_bind].
  eexists. split; [reflexivity|]. simpl.
  split; [done|]. split; [apply to_u32_of_Z; [lia | by apply representable_small]|].
  split; [by apply chars_strncpy_token|]. repeat split.
Qed.

(** X4: with every node of the body in use, each of [nv_add_object],
    [nv_add_integer], [nv_add_data], [nv_add_float] and [nv_add_string]
    returns the null pointer and changes no variable; the footer behind
    the body is never written. *)
Theorem nv_add_to_full_body (fuel : nat) (st : state) (tok str : list char_t)
    (v : Z) (x : float) :
  occupied_to (nv_list st) (nv_body + NV_BODY_LEN) ->
  nv_add_object fuel st tok = Some (None, st) /\
  nv_add_integer st tok v = Some (None, st) /\
  nv_add_data st tok v = Some (None, st) /\
  nv_add_float st tok x = Some (None, st) /\
  nv_add_string st tok str = Some (None, st).
Proof.
  intros Hocc.
  unfold nv_add_object, nv_add_integer, nv_add_data, nv_add_float, nv_add_string.
  rewrite nv_add_string_loop_eq. rewrite !nv_add_loop_full by done. done.
Qed.

(** X5: [nv_add_object] with a token the table does not hold returns
    the null pointer, but not without a trace: the first empty node of
    the body, still empty, has its index overwritten with [NO_MATCH]. *)
Theorem nv_add_object_unknown_token (fuel : nat) (st : state) (tok : list char_t)
    (q : nat) (nvq : nvObj) :
  occupied_to (nv_list st) q -> (nv_body <= q <= NV_BODY_LEN)%nat ->
  nv_list st !! q = Some nvq -> valuetype nvq = TYPE_EMPTY ->
  nv_get_index [] tok = NO_MATCH ->
  nv_add_object fuel st tok
  = Some (None, set_nv_list (<[q := set_index NO_MATCH nvq]> (nv_list st)) st).
Proof.
  intros Hocc Hq Hnvq He Hno. unfold nv_add_object.
  rewrite (nv_add_loop_first_empty _ st q nvq) by done.
  rewrite (node_upd_Some _ _ _ _ Hnvq). cbn [mbind option_bind].
  rewrite (lookup_set_same _ _ _ _ Hnvq). cbn [mbind option_bind].
  simpl index. rewrite Hno. reflexivity.
Qed.

(** X6: [nv_add_object] with a token that resolves to the index [i] of
    a descriptor with a getter of this file fills the first empty node
    of the body and returns it.  The node is what the getter makes of a
    cleared node with index [i]: it carries the value read from the
    storage location, the token and the group the descriptor shows, the
    depth its predecessor gives it, and its links as before.  No other
    node and no other variable changes. *)
Theorem nv_add_object_known_token (fuel : nat) (st : state) (tok : list char_t)
    (q q' : nat) (nvq pvn : nvObj) (i : Z) g :
  occupied_to (nv_list st) q -> (nv_body <= q <= NV_BODY_LEN)%nat ->
  nv_list st !! q = Some nvq -> valuetype nvq = TYPE_EMPTY ->
  pv nvq = Some q' -> nv_list st !! q' = Some pvn -> q' <> q ->
  length (token nvq) = S TOKEN_LEN -> length (group nvq) = S GROUP_LEN ->
  nv_get_index [] tok = i -> 0 <= i < nv_index_max -> i <> NO_MATCH ->
  fits_node (cfg_at i) ->
  getter_fn (cfg_get (cfg_at i)) = Some g ->
  exists nv' c0,
    nv_add_object fuel st tok
      = Some (Some q, set_nv_list (<[q := nv']> (nv_list st)) st) /\
    nv' = (g st c0).2 /\
    valuetype c0 = TYPE_EMPTY /\ value c0 = zero /\ precision c0 = 0 /\
    stringp c0 = None /\
    index nv' = i /\
    depth nv' = (if decide (valuetype pvn = TYPE_PARENT) then depth pvn + 1 else depth pvn) /\
    chars (token nv') = shown_token (cfg_at i) /\
    chars (group nv') = shown_group (cfg_at i) /\
    pv nv' = pv nvq /\ nx nv' = nx nvq.
Proof.
  intros Hocc Hq Hnvq He Hpv Hpvn Hne Hlt Hlg Hi Hrange Hnm Hfits Hg.
  assert (Hqlt : (q < length (nv_list st))%nat) by (by eapply lookup_lt_Some).
  unfold nv_add_object.
  rewrite (nv_add_loop_first_empty _ st q nvq) by done.
  rewrite (node_upd_Some _ _ _ _ Hnvq). cbn [mbind option_bind].
  rewrite (lookup_set_same _ _ _ _ Hnvq). cbn [mbind option_bind].
  simpl index. rewrite Hi.
  assert ((i =? NO_MATCH) = false) as -> by (by apply Z.eqb_neq).
  unfold nv_get_nvObj.
  set (st1 := set_nv_list (<[q := set_index i nvq]> (nv_list st)) st).
  rewrite (nv_get_nvObj_with_eq _ st1 q q' (set_index i nvq) pvn);
    [|by apply (lookup_set_same _ _ _ _ Hnvq) | done | done
     |subst st1; simpl; by rewrite list_lookup_insert_ne by done].
  simpl index. rewrite nvObj_for_set_index.
  set (dep := if decide (valuetype pvn = TYPE_PARENT) then depth pvn + 1 else depth pvn).
  rewrite (run_cmd_leaf _ _ _ (getter_is_leaf _ _ Hg)).
  unfold on_node. subst st1. simpl nv_list. rewrite list_insert_insert_eq.
  rewrite list_lookup_insert_eq by done. cbn [mbind option_bind].
  rewrite set_nv_list_twice.
  set (st2 := set_nv_list (<[q := nvObj_for i dep nvq]> (nv_list st)) st).
  destruct (getter_keeps _ g st2 (nvObj_for i dep nvq) Hg)
    as (Hst & Hkp & Hkn & Hki & Hkd & Hkt & Hkg & _ & _).
  pose proof (getter_reads_ram _ g st2 st (nvObj_for i dep nvq) Hg eq_refl)
    as Hsame.
  destruct (g st2 (nvObj_for i dep nvq)) as [[r stg] nvg] eqn:Eg.
  cbn [fst snd] in Hst, Hkp, Hkn, Hki, Hkd, Hkt, Hkg, Hsame. subst stg.
  cbn [mbind option_bind snd].
  destruct (nvObj_for_strings i dep nvq Hfits Hlt Hlg) as [Htok Hgrp].
  exists nvg, (nvObj_for i dep nvq).
  split; [subst st2; simpl; by rewrite list_insert_insert_eq|].
  split; [done|]. split; [done|]. split; [done|]. split; [done|]. split; [done|].
  split; [by rewrite Hki|]. split; [by rewrite Hkd|].
  split; [by rewrite Hkt|]. split; [by rewrite Hkg|].
  split; [by rewrite Hkp | by rewrite Hkn].
Qed.

(** *** Strings in the shared string *)

(** The characters of a string are found in front of its terminator:
    two arrays that agree up to and including it hold the same
    string. *)
Lemma chars_prefix (s : list char_t) :
  forall (s' : list char_t) (n : nat),
  take n s' = take n s -> (strlen s < n)%nat -> chars s' = chars s.
Proof.
  unfold chars. induction s as [|c s IH]; intros s' n Ht Hn.
  - destruct n; [simpl in Hn; lia|]. destruct s'; [done | discriminate].
  - destruct n; [lia|]. destruct s' as [|c' s']; [discriminate|].
    simpl in Ht. injection Ht as -> Ht. simpl in Hn |- *.
    destruct (Ascii.eqb c NUL); [done|]. simpl. f_equal.
    apply (IH s' n); [done | lia].
Qed.

Lemma chars_drop_stable (buf buf' : list char_t) (r w : nat) :
  take w buf' = take w buf ->
  (r + strlen (drop r buf) < w)%nat ->
  chars (drop r buf') = chars (drop r buf).
Proof.
  intros Ht Hr. apply (chars_prefix _ _ (w - r)); [|lia].
  rewrite !take_drop_commute. replace (r + (w - r))%nat with w by lia.
  by rewrite Ht.
Qed.

(** X7: a string that fits is copied to the write offset of the shared
    string, and the node refers to it: read from the reference, the
    shared string gives back the characters of the source.  The write
    offset moves behind the terminator.  Every string that ends in
    front of the old write offset still reads as before, nothing is
    stored behind the array, and no other node or variable changes. *)
Theorem nv_copy_string_reads_back (st : state) (p : nat) (src : list char_t) (nv : nvObj) :
  nv_list st !! p = Some nv ->
  length (string_buf (nvStr st)) = NV_SHARED_STRING_LEN ->
  (wp (nvStr st) + strlen src < NV_SHARED_STRING_LEN)%nat ->
  exists st',
    nv_copy_string st p src = Some (STAT_OK, st') /\
    nv_list st' = <[p := set_stringp (Some (wp (nvStr st))) nv]> (nv_list st) /\
    chars (drop (wp (nvStr st)) (string_buf (nvStr st'))) = chars src /\
    wp (nvStr st') = (wp (nvStr st) + strlen src + 1)%nat /\
    length (string_buf (nvStr st')) = NV_SHARED_STRING_LEN /\
    spilled (nvStr st') = spilled (nvStr st) /\
    (forall r, (r + strlen (drop r (string_buf (nvStr st))) < wp (nvStr st))%nat ->
       chars (drop r (string_buf (nvStr st'))) = chars (drop r (string_buf (nvStr st)))) /\
    st' = set_nvStr (nvStr st') (set_nv_list (nv_list st') st).
Proof.
  intros Hnv Hlen Hfit.
  destruct (nv_copy_string_fits st p src nv Hnv Hlen Hfit)
    as (st' & Hrun & Hwp & Hbuf & Hsp & Hl).
  pose proof (strlen_le src) as Hsl.
  assert (Htk : take (wp (nvStr st)) (string_buf (nvStr st'))
                = take (wp (nvStr st)) (string_buf (nvStr st))).
  { rewrite Hbuf. rewrite take_app_le by (rewrite length_take; lia).
    by rewrite take_take, Nat.min_id. }
  exists st'. split; [done|]. split; [done|]. split; [|split; [done|split; [|split; [done|split]]]].
  - rewrite Hbuf. rewrite drop_app_length' by (rewrite length_take; lia).
    apply chars_lit, chars_cstring.
  - rewrite Hbuf. rewrite !length_app, length_take, length_chars, length_drop. simpl. lia.
  - intros r Hr. by apply (chars_drop_stable _ _ r (wp (nvStr st))).
  - unfold nv_copy_string in Hrun.
    assert ((NV_SHARED_STRING_LEN <? wp (nvStr st) + strlen src)%nat = false) as Hno
      by (apply Nat.ltb_ge; lia).
    rewrite Hno in Hrun. unfold node_upd in Hrun. simpl in Hrun. rewrite Hnv in Hrun.
    simpl in Hrun. by injection Hrun as <-.
Qed.

(** X8: [nv_copy_string] refuses the string exactly when the write
    offset plus its length exceeds [NV_SHARED_STRING_LEN]; it then
    returns [STAT_BUFFER_FULL] and changes no variable.  Otherwise it
    returns [STAT_OK] and the write offset grows by the length of the
    string plus one. *)
Theorem nv_copy_string_status (st : state) (p : nat) (src : list char_t) (nv : nvObj) :
  nv_list st !! p = Some nv ->
  exists r st',
    nv_copy_string st p src = Some (r, st') /\
    (r = STAT_BUFFER_FULL <-> (NV_SHARED_STRING_LEN < wp (nvStr st) + strlen src)%nat) /\
    (r = STAT_BUFFER_FULL -> st' = st) /\
    (r <> STAT_BUFFER_FULL ->
       r = STAT_OK /\ wp (nvStr st') = (wp (nvStr st) + strlen src + 1)%nat).
Proof.
  intros Hnv. unfold nv_copy_string.
  destruct (Nat.ltb_spec NV_SHARED_STRING_LEN (wp (nvStr st) + strlen src)) as [Hfull|Hfit].
  - exists STAT_BUFFER_FULL, st. repeat split; done.
  - unfold node_upd. simpl. rewrite Hnv. simpl.
    eexists _, _. split; [reflexivity|]. simpl.
    split; [split; [discriminate | lia]|]. split; [discriminate|].
    intros _. split; [reflexivity | lia].
Qed.

(** [nv_add_string] with room in the shared string. *)
Lemma nv_add_string_fills (st : state) (tok str : list char_t) (q : nat) (nvq : nvObj) :
  occupied_to (nv_list st) q -> (nv_body <= q <= NV_BODY_LEN)%nat ->
  nv_list st !! q = Some nvq -> valuetype nvq = TYPE_EMPTY ->
  length (string_buf (nvStr st)) = NV_SHARED_STRING_LEN ->
  (wp (nvStr st) + strlen str < NV_SHARED_STRING_LEN)%nat ->
  exists st' nv',
    nv_add_string st tok str = Some (Some q, st') /\
    nv_list st' = <[q := nv']> (nv_list st) /\
    valuetype nv' = TYPE_STRING /\
    token nv' = strncpy (token nvq) tok TOKEN_LEN /\
    index nv' = nv_get_index [] (token nv') /\
    stringp nv' = Some (wp (nvStr st)) /\
    chars (drop (wp (nvStr st)) (string_buf (nvStr st'))) = chars str /\
    wp (nvStr st') = (wp (nvStr st) + strlen str + 1)%nat /\
    value nv' = value nvq /\ precision nv' = precision nvq /\ depth nv' = depth nvq /\
    group nv' = group nvq /\ pv nv' = pv nvq /\ nx nv' = nx nvq.
Proof.
  intros Hocc Hq Hnvq He Hlen Hfit.
  assert (Hqlt : (q < length (nv_list st))%nat) by (by eapply lookup_lt_Some).
  unfold nv_add_string. rewrite nv_add_string_loop_eq.
  rewrite (nv_add_loop_first_empty _ st q nvq) by done.
  rewrite (node_upd_Some _ _ _ _ Hnvq). cbn [mbind option_bind].
  set (nv1 := set_token (strncpy (token nvq) tok TOKEN_LEN) nvq).
  set (st1 := set_nv_list (<[q := nv1]> (nv_list st)) st).
  assert (Hnv1 : nv_list st1 !! q = Some nv1) by (by apply (lookup_set_same _ _ _ _ Hnvq)).
  destruct (nv_copy_string_fits st1 q str nv1 Hnv1 Hlen Hfit)
    as (st2 & Hrun & Hwp & Hbuf & Hsp & Hl).
  rewrite Hrun. cbn [mbind option_bind fst snd].
  rewrite bool_decide_eq_true_2 by done. cbn [negb].
  set (nv2 := set_stringp (Some (wp (nvStr st1))) nv1) in *.
  assert (Hnv2 : nv_list st2 !! q = Some nv2).
  { rewrite Hl. subst st1. simpl. rewrite list_insert_insert_eq.
    by apply list_lookup_insert_eq. }
  rewrite (node_upd_Some _ _ _ _ Hnv2). cbn [mbind option_bind].
  erewrite node_upd_Some by (by apply (lookup_set_same _ _ _ _ Hnv2)).
  cbn [mbind option_bind].
  eexists _, _. split; [reflexivity|]. simpl.
  split; [rewrite Hl; subst st1; simpl; by rewrite !list_insert_insert_eq|].
  split; [done|]. split; [done|]. split; [done|]. split; [done|].
  split.
  { rewrite Hbuf. subst st1. simpl.
    rewrite drop_app_length' by (rewrite length_take; pose proof (strlen_le str); lia).
    apply chars_lit, chars_cstring. }
  split; [exact Hwp|]. repeat split.
Qed.

(** X9: [nv_add_string] with room in the shared string writes the first
    empty node of the body and returns it.  The node becomes a string
    under the first [TOKEN_LEN] characters of the token; its index is
    what [nv_get_index] finds for the token as stored in the node; its
    string reference is the old write offset, where the shared string
    now reads as the string.  The value and the other fields of the
    node stay as they were, and so do the other nodes. *)
Theorem nv_add_string_adds (st : state) (tok str : list char_t) (q : nat) (nvq : nvObj) :
  occupied_to (nv_list st) q -> (nv_body <= q <= NV_BODY_LEN)%nat ->
  nv_list st !! q = Some nvq -> valuetype nvq = TYPE_EMPTY ->
  length (string_buf (nvStr st)) = NV_SHARED_STRING_LEN ->
  (wp (nvStr st) + strlen str < NV_SHARED_STRING_LEN)%nat ->
  exists st' nv',
    nv_add_string st tok str = Some (Some q, st') /\
    nv_list st' = <[q := nv']> (nv_list st) /\
    valuetype nv' = TYPE_STRING /\
    token nv' = strncpy (token nvq) tok TOKEN_LEN /\
    index nv' = nv_get_index [] (token nv') /\
    stringp nv' = Some (wp (nvStr st)) /\
    chars (drop (wp (nvStr st)) (string_buf (nvStr st'))) = chars str /\
    wp (nvStr st') = (wp (nvStr st) + strlen str + 1)%nat /\
    value nv' = value nvq /\ precision nv' = precision nvq /\ depth nv' = depth nvq /\
    group nv' = group nvq /\ pv nv' = pv nvq /\ nx nv' = nx nvq.
Proof. apply nv_add_string_fills. Qed.

(** *** Token classes *)

Lemma first_byte_NUL (s : list char_t) :
  Ascii.eqb (byte_at s 0) NUL = bool_decide (chars s = []).
Proof.
  unfold byte_at, chars. destruct s as [|c s]; simpl.
  - by rewrite ?Ascii.eqb_refl.
  - destruct (Ascii.eqb_spec c NUL); simpl; done.
Qed.

Lemma streq_lit (l s : list char_t) :
  cstring l -> streq l s = bool_decide (chars s = l).
Proof.
  intros Hl. rewrite streq_spec, (chars_id l) by done.
  apply bool_decide_ext. split; congruence.
Qed.

Lemma nv_get_type_spec (nv : nvObj) :
  nv_get_type nv =
    if bool_decide (chars (token nv) = []) then NV_TYPE_NULL
    else if bool_decide (chars (token nv) = lit "gc") then NV_TYPE_GCODE
    else if bool_decide (chars (token nv) = lit "sr") then NV_TYPE_REPORT
    else if bool_decide (chars (token nv) = lit "qr") then NV_TYPE_REPORT
    else if bool_decide (chars (token nv) = lit "msg") then NV_TYPE_MESSAGE
    else if bool_decide (chars (token nv) = lit "err") then NV_TYPE_MESSAGE
    else if bool_decide (chars (token nv) = lit "n") then NV_TYPE_LINENUM
    else NV_TYPE_CONFIG.
Proof.
  unfold nv_get_type. rewrite first_byte_NUL.
  rewrite !streq_lit by (by repeat constructor). reflexivity.
Qed.

(** X10: the class of a node and the prefix rule of a group depend on
    the string alone, not on what the array holds behind its
    terminator.  [nv_get_type] gives a configuration item exactly for
    the tokens other than the empty one, "gc", "sr", "qr", "msg", "err"
    and "n"; [nv_group_is_prefixed] is false exactly for the groups
    "sr" and "sys". *)
Theorem token_classes_by_string (nv : nvObj) (group : list char_t) :
  (nv_get_type nv = NV_TYPE_CONFIG <->
   chars (token nv) ∉ [[]; lit "gc"; lit "sr"; lit "qr"; lit "msg"; lit "err"; lit "n"]) /\
  (nv_get_type nv = NV_TYPE_NULL <-> chars (token nv) = []) /\
  (nv_get_type nv = NV_TYPE_MESSAGE <->
   chars (token nv) = lit "msg" \/ chars (token nv) = lit "err") /\
  (nv_group_is_prefixed group = false <->
   chars group = lit "sr" \/ chars group = lit "sys").
Proof.
  rewrite nv_get_type_spec. unfold nv_group_is_prefixed.
  rewrite !streq_lit by (by repeat constructor).
  rewrite !elem_of_cons, elem_of_nil. cbv [lit list_ascii_of_string].
  generalize (chars (token nv)) as t. generalize (chars group) as g. intros g t.
  repeat split; repeat case_bool_decide; intuition congruence.
Qed.

(** X11: [nv_add_conditional_message] adds nothing and changes nothing
    in JSON mode when messages are not echoed.  Otherwise it adds the
    string under the token "msg" to the first empty node of the body,
    and [nv_get_type] classes that node as a message.  There is room in
    the shared string, and the last byte of the token array is a
    terminator. *)
Theorem nv_add_conditional_message_cases (echo_json_messages : bool) (st : state)
    (str : list char_t) (q : nat) (nvq : nvObj) :
  occupied_to (nv_list st) q -> (nv_body <= q <= NV_BODY_LEN)%nat ->
  nv_list st !! q = Some nvq -> valuetype nvq = TYPE_EMPTY ->
  length (token nvq) = S TOKEN_LEN -> byte_at (token nvq) TOKEN_LEN = NUL ->
  length (string_buf (nvStr st)) = NV_SHARED_STRING_LEN ->
  (wp (nvStr st) + strlen str < NV_SHARED_STRING_LEN)%nat ->
  if bool_decide (comm_mode st = JSON_MODE /\ echo_json_messages = false)
  then nv_add_conditional_message echo_json_messages st str = Some (None, st)
  else exists st' nv',
         nv_add_conditional_message echo_json_messages st str = Some (Some q, st') /\
         nv_list st' !! q = Some nv' /\
         nv_get_type nv' = NV_TYPE_MESSAGE /\
         valuetype nv' = TYPE_STRING /\
         stringp nv' = Some (wp (nvStr st)) /\
         chars (drop (wp (nvStr st)) (string_buf (nvStr st'))) = chars str.
Proof.
  intros Hocc Hq Hnvq He Hlt Hlast Hlen Hfit. unfold nv_add_conditional_message.
  destruct (nv_add_string_fills st (lit "msg") str q nvq Hocc Hq Hnvq He Hlen Hfit)
    as (st' & nv' & Hrun & Hl & Hty & Htok & _ & Hsp & Hrd & _).
  assert (Hmsg : nv_get_type nv' = NV_TYPE_MESSAGE).
  { rewrite nv_get_type_spec, Htok, chars_strncpy_token by done. reflexivity. }
  assert (Hnv' : nv_list st' !! q = Some nv').
  { rewrite Hl. apply list_lookup_insert_eq. by eapply lookup_lt_Some. }
  destruct (comm_mode st), echo_json_messages; simpl;
    try (exists st', nv'; repeat split; done).
  reflexivity.
Qed.

(** *** The resolver and the table *)



(** The tokens of the table differ within their first 5 characters:
    no query matches two entries. *)
Definition distinct_tokens : Prop :=
  NoDup ((fun d => take 5 (cfg_token d)) <$> cfgArray).

#[global] Instance distinct_tokens_dec : Decision distinct_tokens.
Proof. unfold distinct_tokens. apply _. Defined.

Lemma prefix_match_take (t q : list char_t) : prefix_match t q -> take 5 t = take 5 q.
Proof. intros [[_ ->]|(_ & _ & ?)]; done. Qed.

Lemma prefix_match_refl (t : list char_t) : prefix_match t t.
Proof.
  unfold prefix_match. destruct (decide (length t < 5)%nat).
  - left. split; [lia | done].
  - right. split; [lia | split; [lia | done]].
Qed.

(** The query built from the strings of an entry finds the entry. *)
Lemma nv_get_index_entry (group token : list char_t) (k : nat) (d : cfgItem) :
  Forall (fun d => cstring (cfg_token d)) cfgArray ->
  distinct_tokens ->
  cfgArray !! k = Some d ->
  (strlen group <= GROUP_LEN)%nat ->
  chars group ++ chars token = cfg_token d ->
  nv_get_index group token = Z.of_nat k.
Proof.
  intros Htbl Hdist Hk Hg Hq. unfold nv_get_index.
  rewrite (nv_get_index_scan_spec _ (chars group ++ chars token));
    [|done | apply Forall_app; split; apply chars_cstring
     |intros j Hj Hjq; by apply query_bytes].
  rewrite Hq.
  assert (Hfind : list_find (fun d' => prefix_match (cfg_token d') (cfg_token d)) cfgArray
                  = Some (k, d)).
  { apply list_find_Some. split; [done|]. split; [apply prefix_match_refl|].
    intros j y Hj Hlt Hm. apply prefix_match_take in Hm.
    unfold distinct_tokens in Hdist.
    assert (j = k); [|lia].
    apply (NoDup_lookup _ j k (take 5 (cfg_token d)) Hdist).
    - by rewrite list_lookup_fmap, Hj, <- Hm.
    - by rewrite list_lookup_fmap, Hk. }
  rewrite Hfind. lia.
Qed.

(** X13: in a table whose tokens have no embedded terminator and differ
    within their first 5 characters, [nv_get_index] finds every entry
    by its own token: the lookup of the token of entry [k] gives
    [k]. *)
Theorem nv_get_index_own_token (k : nat) (d : cfgItem) :
  Forall (fun d => cstring (cfg_token d)) cfgArray ->
  distinct_tokens ->
  cfgArray !! k = Some d ->
  nv_get_index [] (cfg_token d) = Z.of_nat k.
Proof.
  intros Htbl Hdist Hk. apply (nv_get_index_entry _ _ k d); try done.
  - simpl. lia.
  - simpl. apply chars_id.
    rewrite Forall_lookup in Htbl. by apply (Htbl k d).
Qed.

(** The token of the descriptor starts with its group, unless the
    descriptor is flagged NO-STRIP. *)
Definition group_leads (d : cfgItem) : Prop :=
  flag_set (cfg_flags d) F_NOSTRIP = false ->
  take (length (cfg_group d)) (cfg_token d) = cfg_group d.

#[global] Instance group_leads_dec (d : cfgItem) : Decision (group_leads d).
Proof. unfold group_leads. apply _. Defined.

(** X14: from the index to the node and back.  [nv_get_nvObj] on a node
    that carries the index of a descriptor with a getter of this file
    leaves the index in the node, and the group and the token it puts
    into the node resolve to that index again: [nv_get_index] on them
    gives the index the node was set up from.  The strings of the
    descriptor fit the arrays of the node, its token starts with its
    group, and the tokens of the table differ within their first 5
    characters. *)
Theorem nv_get_nvObj_resolves_back (fuel : nat) (st : state) (q q' : nat)
    (o pvn : nvObj) g :
  nv_list st !! q = Some o ->
  0 <= index o < nv_index_max ->
  pv o = Some q' -> nv_list st !! q' = Some pvn ->
  length (token o) = S TOKEN_LEN -> length (group o) = S GROUP_LEN ->
  Forall (fun d => cstring (cfg_token d)) cfgArray ->
  distinct_tokens ->
  fits_node (cfg_at (index o)) -> group_leads (cfg_at (index o)) ->
  getter_fn (cfg_get (cfg_at (index o))) = Some g ->
  exists st' nv',
    nv_get_nvObj fuel st q = Some st' /\
    nv_list st' !! q = Some nv' /\
    index nv' = index o /\
    nv_get_index (group nv') (token nv') = index o.
Proof.
  intros Ho Hrange Hpv Hpvn Hlt Hlg Htbl Hdist Hfits Hlead Hg.
  assert (Hq : (q < length (nv_list st))%nat) by (by eapply lookup_lt_Some).
  unfold nv_get_nvObj.
  rewrite (nv_get_nvObj_with_eq _ st q q' o pvn) by done.
  set (dep := if decide (valuetype pvn = TYPE_PARENT) then depth pvn + 1 else depth pvn).
  set (c0 := nvObj_for (index o) dep o).
  rewrite (run_cmd_leaf _ _ _ (getter_is_leaf _ _ Hg)).
  unfold on_node.
  rewrite (lookup_set_same _ _ _ _ Ho). cbn [mbind option_bind].
  set (st1 := set_nv_list (<[q := c0]> (nv_list st)) st).
  destruct (getter_keeps _ g st1 c0 Hg) as (Hst & _ & _ & Hki & _ & Hkt & Hkg & _ & _).
  destruct (g st1 c0) as [[r stg] nvg].
  cbn [fst snd] in Hst, Hki, Hkt, Hkg. subst stg. cbn [mbind option_bind snd].
  destruct (nvObj_for_strings (index o) dep o Hfits Hlt Hlg) as [Htok Hgrp].
  fold c0 in Htok, Hgrp.
  exists (set_nv_list (<[q := nvg]> (nv_list st1)) st1), nvg.
  split; [reflexivity|].
  split; [subst st1; simpl; rewrite list_insert_insert_eq; by apply list_lookup_insert_eq|].
  assert (Hi0 : index nvg = index o) by (by rewrite Hki).
  split; [exact Hi0|].
  destruct Hfits as (Hct & Hcg & Hltk & Hlgr & Hpre).
  assert (Hd : cfgArray !! Z.to_nat (index o) = Some (cfg_at (index o))).
  { unfold cfg_at, nv_index_max in *.
    destruct (lookup_lt_is_Some_2 cfgArray (Z.to_nat (index o))) as [d Hd]; [lia|].
    rewrite Hd. f_equal. symmetry. by apply nth_lookup_Some. }
  rewrite (nv_get_index_entry _ _ (Z.to_nat (index o)) (cfg_at (index o))); try done.
  - lia.
  - rewrite <- length_chars, Hkg, Hgrp. unfold shown_group.
    destruct (flag_set _ _); simpl; lia.
  - rewrite Hkt, Hkg, Htok, Hgrp. unfold shown_token, shown_group.
    destruct (flag_set (cfg_flags (cfg_at (index o))) F_NOSTRIP) eqn:Hns; [done|].
    rewrite <- (Hlead Hns) at 1. apply take_drop.
Qed.

(** *** Raw 32-bit data *)


(** X16: [nv_add_data] writes the first empty node of the body and
    returns it: the node is typed as data under the token, and its
    value is the float whose 32 bits are the word [v], whatever the
    word.  The other fields of the node stay, and so do the other nodes
    and variables.  The token fits the token array. *)
Theorem nv_add_data_first_empty (st : state) (tok : list char_t) (v : Z)
    (q : nat) (nvq : nvObj) :
  occupied_to (nv_list st) q -> (nv_body <= q <= NV_BODY_LEN)%nat ->
  nv_list st !! q = Some nvq -> valuetype nvq = TYPE_EMPTY ->
  (strlen tok < length (token nvq))%nat ->
  0 <= v < 2 ^ 32 ->
  exists nv',
    nv_add_data st tok v = Some (Some q, set_nv_list (<[q := nv']> (nv_list st)) st) /\
    valuetype nv' = TYPE_DATA /\
    to_bits (value nv') = v /\
    chars (token nv') = chars tok /\
    pv nv' = pv nvq /\ nx nv' = nx nvq /\ index nv' = index nvq /\
    depth nv' = depth nvq /\ precision nv' = precision nvq /\
    group nv' = group nvq /\ stringp nv' = stringp nvq.
Proof.
  intros Hocc Hq Hnvq He Hlen Hv. unfold nv_add_data.
  rewrite (nv_add_loop_first_empty _ st q nvq) by done.
  pose proof (node_upd_thrice st q nvq
                (fun nv => set_token (strcpy (token nv) tok) nv)
                (set_value (of_bits v)) (set_valuetype TYPE_DATA) Hnvq) as H3.
  cbn [mbind option_bind] in H3 |- *.
  destruct (node_upd st q _) as [st1|]; [|done]. cbn [mbind option_bind] in H3 |- *.
  destruct (node_upd st1 q _) as [st2|]; [|done]. cbn [mbind option_bind] in H3 |- *.
  rewrite H3. cbn [mbind option_bind].
  eexists. split; [reflexivity|].
  cbn [valuetype value token pv nx index depth precision group stringp
       set_valuetype set_value set_token].
  split; [done|]. split; [by apply to_bits_of_bits_small|].
  split; [by apply chars_strcpy|]. repeat split.
Qed.

(** *** What a get and a set leave alone *)

Lemma set_nv_list_id (st : state) : set_nv_list (nv_list st) st = st.
Proof. by destruct st. Qed.

Lemma setter_keeps (f : fptrCmd) g (st : state) (nv : nvObj) :
  setter_fn f = Some g ->
  same_rest st (g st nv).1.2 /\
  pv (g st nv).2 = pv nv /\ nx (g st nv).2 = nx nv /\
  index (g st nv).2 = index nv /\ depth (g st nv).2 = depth nv /\
  token (g st nv).2 = token nv /\ group (g st nv).2 = group nv /\
  stringp (g st nv).2 = stringp nv /\
  ((g st nv).1.1 <> STAT_OK -> (g st nv).1.2 = st /\ (g st nv).2 = nv).
Proof.
  intros Hg. unfold same_rest.
  destruct f; simpl in Hg; try done; injection Hg as <-;
    unfold set_01, set_012, set_0123, set_flu;
    repeat match goal with |- context [gtb ?x ?y] => destruct (gtb x y) end;
    repeat match goal with |- context [decide ?P] => destruct (decide P) end;
    simpl; repeat split; done.
Qed.

(** X17: [nv_get] through a getter of this file only reads.  It changes
    the node it is called on and nothing else: no storage location, no
    record, no other node, not the shared string.  In the node the
    links, the index, the depth, the token, the group and the string
    reference stay; the node is typed as null, integer, data or float.
    The status is [STAT_NOOP] for [get_nul] and [STAT_OK] otherwise. *)
Theorem nv_get_only_reads (fuel : nat) (st : state) (p : nat) (nv : nvObj) g :
  nv_list st !! p = Some nv ->
  0 <= index nv < nv_index_max ->
  getter_fn (cfg_get (cfg_at (index nv))) = Some g ->
  exists r nv',
    nv_get fuel st p = Some (r, set_nv_list (<[p := nv']> (nv_list st)) st) /\
    r = match cfg_get (cfg_at (index nv)) with Fget_nul => STAT_NOOP | _ => STAT_OK end /\
    pv nv' = pv nv /\ nx nv' = nx nv /\ index nv' = index nv /\ depth nv' = depth nv /\
    token nv' = token nv /\ group nv' = group nv /\ stringp nv' = stringp nv /\
    valuetype nv' ∈ [TYPE_NULL; TYPE_INTEGER; TYPE_DATA; TYPE_FLOAT].
Proof.
  intros Hnv Hidx Hg.
  rewrite (nv_get_in_range fuel st p nv g Hnv) by (lia || by apply getter_is_leaf).
  destruct (getter_keeps _ g st nv Hg) as (Hst & H1 & H2 & H3 & H4 & H5 & H6 & H7 & _).
  exists (g st nv).1.1, (g st nv).2. rewrite Hst.
  split; [reflexivity|].
  repeat (split; [first [assumption | idtac]|]).
  - clear -Hg. destruct (cfg_get (cfg_at (index nv))); simpl in Hg; try done;
      injection Hg as <-; reflexivity.
  - clear -Hg. destruct (cfg_get (cfg_at (index nv))); simpl in Hg; try done;
      injection Hg as <-; simpl; rewrite !elem_of_cons; auto 10.
Qed.

(** X18: [nv_set] through a setter of this file stores to one location
    at most: the object behind the target address of the descriptor, in
    the type the setter stores, one byte for a [uint8_t] and four for a
    [uint32_t] or a [float].  Every byte outside this object keeps its
    content, no record of the nonvolatile store is written, and the
    shared string, the modes and the other nodes stay.  When the status
    is not [STAT_OK] (a value a range-restricted setter rejects, or
    [set_nul]), no variable changes at all. *)
Theorem nv_set_stores_to_one_location (fuel : nat) (st : state) (p : nat) (nv : nvObj) g :
  nv_list st !! p = Some nv ->
  0 <= index nv < nv_index_max ->
  setter_fn (cfg_set (cfg_at (index nv))) = Some g ->
  exists r st',
    nv_set fuel st p = Some (r, st') /\
    (r <> STAT_OK -> st' = st) /\
    nvm st' = nvm st /\ trace st' = trace st /\ nvStr st' = nvStr st /\
    units_mode st' = units_mode st /\ comm_mode st' = comm_mode st /\
    (forall q, q <> p -> nv_list st' !! q = nv_list st !! q) /\
    (forall a, a ∉ footprint (cfg_set (cfg_at (index nv))) (cfg_target (cfg_at (index nv))) ->
               ram st' a = ram st a).
Proof.
  intros Hnv Hidx Hg.
  rewrite (nv_set_in_range fuel st p nv g Hnv) by (lia || by apply setter_is_leaf).
  destruct (setter_keeps _ g st nv Hg)
    as ((R1 & R2 & R3 & R4 & R5 & R6) & _ & _ & _ & _ & _ & _ & _ & Hrej).
  eexists _, _. split; [reflexivity|]. simpl.
  split.
  { intros Hr. destruct (Hrej Hr) as [-> ->].
    rewrite list_insert_id by done. apply set_nv_list_id. }
  split; [done|]. split; [done|]. split; [done|]. split; [done|]. split; [done|].
  split; [intros q Hq; by rewrite list_lookup_insert_ne, R2 by done|].
  intros a Ha. by apply (setter_frames _ g st nv a Hg).
Qed.

(** *** Setting the members of a group *)

(** Behind node [q] the members end: [q] has no successor, or its
    successor is another node, which is empty. *)
Definition ends_after (l : list nvObj) (q : nat) (nvq : nvObj) : Prop :=
  match nx nvq with
  | None => True
  | Some r => r <> q /\ exists nvr, l !! r = Some nvr /\ valuetype nvr = TYPE_EMPTY
  end.

#[global] Instance ends_after_dec (l : list nvObj) (q : nat) (nvq : nvObj) :
  Decision (ends_after l q nvq).
Proof.
  unfold ends_after. destruct (nx nvq) as [r|]; [|apply _].
  destruct (l !! r) as [nvr|].
  - destruct (decide (r <> q /\ valuetype nvr = TYPE_EMPTY)) as [H|H]; [left | right].
    + destruct H. split; [done|]. by exists nvr.
    + intros (? & nvr' & [= <-] & ?). by apply H.
  - right. by intros (_ & nvr & ? & _).
Defined.

(** [set_grp] on a parent with one member to set. *)
Lemma set_grp_single (fuel : nat) (st : state) (p q : nat) (parent nvq : nvObj) g :
  comm_mode st = JSON_MODE -> (0 < NV_MAX_OBJECTS)%nat ->
  nv_list st !! p = Some parent -> nx parent = Some q ->
  nv_list st !! q = Some nvq ->
  valuetype nvq <> TYPE_EMPTY -> valuetype nvq <> TYPE_NULL ->
  0 <= index nvq < nv_index_max ->
  setter_fn (cfg_set (cfg_at (index nvq))) = Some g ->
  ends_after (nv_list st) q nvq ->
  let st1 := set_nv_list (<[q := (g st nvq).2]> (nv_list st)) (g st nvq).1.2 in
  set_grp fuel st p =
    Some (STAT_OK, if persisted (index nvq)
                   then write_persistent_value st1 (g st nvq).2 else st1).
Proof.
  intros Hjson Hmax Hp Hnx Hq Hne Hnn Hidx Hg Hend st1.
  assert (Hqlt : (q < length (nv_list st))%nat) by (by eapply lookup_lt_Some).
  destruct (setter_keeps _ g st nvq Hg)
    as ((R1 & R2 & R3 & R4 & R5 & R6) & _ & Hknx & Hki & _).
  unfold set_grp, set_grp_with. rewrite decide_False by (rewrite Hjson; done).
  destruct NV_MAX_OBJECTS as [|n]; [lia|]. simpl set_grp_loop.
  rewrite Hp. cbn [mbind option_bind]. rewrite Hnx, Hq. cbn [mbind option_bind].
  rewrite !decide_False by done.
  pose proof (nv_set_in_range fuel st q nvq g Hq) as Hset. unfold nv_set in Hset.
  rewrite Hset by (lia || by apply setter_is_leaf). clear Hset.
  cbn [mbind option_bind snd]. rewrite R2. fold st1.
  assert (Hq1 : nv_list st1 !! q = Some (g st nvq).2)
    by (subst st1; simpl; by apply list_lookup_insert_eq).
  rewrite (nv_persist_eq _ _ _ Hq1). cbn [mbind option_bind]. rewrite Hki.
  set (st2 := if persisted (index nvq) then _ else _).
  assert (Hl2 : nv_list st2 = nv_list st1) by (subst st2; by destruct (persisted _)).
  assert (Hstop : set_grp_loop (run_cmd fuel) n st2 q = Some st2).
  { destruct n as [|n]; [reflexivity|]. simpl. rewrite Hl2, Hq1. cbn [mbind option_bind].
    rewrite Hknx. unfold ends_after in Hend. destruct (nx nvq) as [r|]; [|reflexivity].
    destruct Hend as (Hrq & nvr & Hr & He).
    subst st1. simpl. rewrite list_lookup_insert_ne by done. rewrite Hr.
    cbn [mbind option_bind]. by rewrite decide_True by done. }
  rewrite Hstop. reflexivity.
Qed.

(** X19: [set_grp] on a parent with one member to set, in JSON mode.
    The member carries a value its setter accepts, in millimeters mode.
    [set_grp] returns [STAT_OK]; the location behind the descriptor of
    the member holds the value; the value is written to the record of
    the member's index when [nv_persist] lets it through, and no other
    record is written; every byte outside the location keeps its
    content, and so does every node but the member. *)
Theorem set_grp_sets_member (fuel : nat) (st : state) (p q : nat) (parent nvq : nvObj) g :
  comm_mode st = JSON_MODE -> (0 < NV_MAX_OBJECTS)%nat ->
  nv_list st !! p = Some parent -> nx parent = Some q ->
  nv_list st !! q = Some nvq ->
  valuetype nvq <> TYPE_EMPTY -> valuetype nvq <> TYPE_NULL ->
  0 <= index nvq < nv_index_max ->
  setter_fn (cfg_set (cfg_at (index nvq))) = Some g ->
  ends_after (nv_list st) q nvq ->
  units_mode st = MILLIMETERS ->
  accepts (cfg_set (cfg_at (index nvq))) (value nvq) ->
  exists st',
    set_grp fuel st p = Some (STAT_OK, st') /\
    holds st' (cfg_set (cfg_at (index nvq))) (cfg_target (cfg_at (index nvq))) (value nvq) /\
    nvm st' = (if persisted (index nvq)
               then upd (nvm st) (index nvq) (value nvq) else nvm st) /\
    (forall a,
       a ∉ footprint (cfg_set (cfg_at (index nvq))) (cfg_target (cfg_at (index nvq))) ->
       ram st' a = ram st a) /\
    (forall q', q' <> q -> nv_list st' !! q' = nv_list st !! q').
Proof.
  intros Hjson Hmax Hp Hnx Hq Hne Hnn Hidx Hg Hend Hmm Hacc.
  rewrite (set_grp_single fuel st p q parent nvq g) by done.
  destruct (setter_node _ g st nvq Hg Hmm) as ((R1 & R2 & R3 & R4 & R5 & R6) & Gi & Gv).
  pose proof (setter_stores _ g st nvq Hg Hmm Hacc) as Gs.
  pose proof (fun a => setter_frames _ g st nvq a Hg) as Gf.
  eexists. split; [reflexivity|].
  destruct (persisted (index nvq)); simpl.
  - rewrite Gi, Gv, R5. split; [exact Gs|]. split; [done|].
    split; [intros a Ha; by apply Gf|].
    intros q' Hq'. by rewrite list_lookup_insert_ne by done.
  - rewrite R5. split; [exact Gs|]. split; [done|].
    split; [intros a Ha; by apply Gf|].
    intros q' Hq'. by rewrite list_lookup_insert_ne by done.
Qed.

(** X20: [set_grp] does not look at the status of the member's set.
    With a member whose value the range-restricted setter of its
    descriptor rejects, [set_grp] still returns [STAT_OK], and
    [nv_persist] still runs: no storage location and no node changes,
    but the rejected value is written to the record of the member's
    index in the nonvolatile store. *)
Theorem set_grp_persists_rejected_value (fuel : nat) (st : state) (p q : nat)
    (parent nvq : nvObj) g :
  comm_mode st = JSON_MODE -> (0 < NV_MAX_OBJECTS)%nat ->
  nv_list st !! p = Some parent -> nx parent = Some q ->
  nv_list st !! q = Some nvq ->
  valuetype nvq <> TYPE_EMPTY -> valuetype nvq <> TYPE_NULL ->
  0 <= index nvq < nv_index_max ->
  setter_fn (cfg_set (cfg_at (index nvq))) = Some g ->
  ends_after (nv_list st) q nvq ->
  ~ accepts (cfg_set (cfg_at (index nvq))) (value nvq) ->
  persisted (index nvq) = true ->
  (g st nvq).1.1 = STAT_INPUT_VALUE_UNSUPPORTED /\
  exists st',
    set_grp fuel st p = Some (STAT_OK, st') /\
    same_ram st st' /\ nv_list st' = nv_list st /\
    nvm st' = upd (nvm st) (index nvq) (value nvq) /\
    trace st' = trace st ++ [EvWritePersistent (index nvq) (value nvq)].
Proof.
  intros Hjson Hmax Hp Hnx Hq Hne Hnn Hidx Hg Hend Hrej Hper.
  rewrite (set_grp_single fuel st p q parent nvq g) by done. rewrite Hper.
  assert (Hg' : g st nvq = (STAT_INPUT_VALUE_UNSUPPORTED, st, nvq)).
  { clear -Hg Hrej. destruct (cfg_set (cfg_at (index nvq))); simpl in Hg, Hrej; try done;
      injection Hg as <-; unfold set_01, set_012, set_0123;
      destruct (gtb (value nvq) _); done. }
  rewrite Hg'. simpl. split; [reflexivity|].
  eexists. split; [reflexivity|]. simpl.
  rewrite list_insert_id by done. unfold same_ram. repeat split.
Qed.

(** *** [set_defaults] on its own *)

(** X21: [set_defaults] called on a node.  With a value that is false
    it only prints the help text.  With any other value it sets the
    units mode to millimeters, whatever it was, and hands every
    single-valued descriptor flagged INITIALIZE its default: a location
    holds the default when its setter accepts it and no later
    initialized descriptor stores to a byte of the location; the default is
    written to the record of the descriptor where [nv_persist] lets it
    through, and no other record changes.  It returns [STAT_OK] in both
    cases.  The descriptors flagged INITIALIZE bind setters of this
    file, and [fuel] covers the passes of the loop. *)
Theorem set_defaults_resets (fuel : nat) (st : state) (p : nat) (nv : nvObj) :
  nv_list st !! p = Some nv ->
  NV_INDEX_END_SINGLES < nv_index_max ->
  (forall i, 0 <= i <= NV_INDEX_END_SINGLES -> inits i = true ->
             is_Some (setter_fn (cfg_set (cfg_at i)))) ->
  (Z.to_nat (NV_INDEX_END_SINGLES + 1) < fuel)%nat ->
  if fp_FALSE (value nv)
  then set_defaults fuel st p = Some (STAT_OK, emit EvHelpDefa st)
  else exists st',
    set_defaults fuel st p = Some (STAT_OK, st') /\
    units_mode st' = MILLIMETERS /\
    (forall j, nvm st' j =
       if bool_decide (0 <= j <= NV_INDEX_END_SINGLES /\ inits j = true /\ persisted j = true)
       then cfg_def_value (cfg_at j) else nvm st j) /\
    trace st' = trace st ++
      map (fun j => EvWritePersistent j (cfg_def_value (cfg_at j))) (written true 0)
      ++ [EvInitializing; EvSrInit] /\
    (forall i, 0 <= i <= NV_INDEX_END_SINGLES -> inits i = true ->
       accepts (cfg_set (cfg_at i)) (cfg_def_value (cfg_at i)) ->
       (forall j, i < j <= NV_INDEX_END_SINGLES -> inits j = true ->
          apart (footprint (cfg_set (cfg_at i)) (cfg_target (cfg_at i)))
                (footprint (cfg_set (cfg_at j)) (cfg_target (cfg_at j)))) ->
       holds st' (cfg_set (cfg_at i)) (cfg_target (cfg_at i)) (cfg_def_value (cfg_at i))) /\
    (forall q, q <> p -> nv_list st' !! q = nv_list st !! q) /\
    nvStr st' = nvStr st /\ comm_mode st' = comm_mode st.
Proof.
  intros Hnv Hend Hset Hfuel.
  unfold set_defaults, set_defaults_with. rewrite Hnv. cbn [mbind option_bind].
  destruct (fp_FALSE (value nv)); [reflexivity|].
  assert (Hnv' : nv_list (set_units_mode MILLIMETERS st) !! p = Some nv) by done.
  rewrite (node_upd_Some _ _ _ _ Hnv'). cbn [mbind option_bind].
  set (st1 := set_nv_list _ (set_units_mode MILLIMETERS st)).
  destruct (set_defaults_loop_spec fuel p fuel st1 0 (set_index 0 nv))
    as (st' & Hrun & L1 & L2 & L3 & L4 & L5 & L6 & L7 & L8 & L9).
  - by apply (lookup_set_same _ _ _ _ Hnv').
  - done.
  - lia.
  - done.
  - done.
  - done.
  - replace (NV_INDEX_END_SINGLES + 1 - 0) with (NV_INDEX_END_SINGLES + 1) by lia. done.
  - rewrite Hrun. cbn [mbind option_bind].
    eexists. split; [reflexivity|]. simpl.
    split; [by rewrite L2|]. split; [|split; [|split; [|split; [|split]]]].
    + intros j. rewrite L6. simpl.
      apply (f_equal (fun b : bool => if b then cfg_def_value (cfg_at j) else nvm st j)).
      apply bool_decide_ext. by rewrite elem_of_written.
    + rewrite L7. simpl. by rewrite <- !app_assoc.
    + intros i Hi Hin Hacc Hfree.
      eapply holds_same_ram; [|by apply L8]. done.
    + intros q Hq. rewrite L5 by done. subst st1. simpl.
      by rewrite list_lookup_insert_ne by done.
    + by rewrite L1.
    + by rewrite L3.
Qed.

(** *** Booting twice *)

(** [config_init] in both of its cases; [defaults] tells which one is
    taken. *)
Lemma config_init_runs (fuel : nat) (st : state) (defaults : bool) :
  (1 < length (nv_list st))%nat ->
  NV_INDEX_END_SINGLES < nv_index_max ->
  fp_FALSE one = false ->
  (forall i, 0 <= i <= NV_INDEX_END_SINGLES -> inits i = true ->
             is_Some (setter_fn (cfg_set (cfg_at i)))) ->
  (Z.to_nat (NV_INDEX_END_SINGLES + 1) < fuel)%nat ->
  negb (eqb (nvm st 0) fw_build) = defaults ->
  let val := if defaults then (fun i => cfg_def_value (cfg_at i)) else nvm st in
  exists st',
    config_init fuel st = Some st' /\
    length (nv_list st') = length (nv_list (nv_reset_nvObj_list st).1) /\
    units_mode st' = MILLIMETERS /\
    (forall j, nvm st' j =
       if bool_decide (defaults = true /\ 0 <= j <= NV_INDEX_END_SINGLES /\
                       inits j = true /\ persisted j = true)
       then cfg_def_value (cfg_at j) else nvm st j) /\
    trace st' = trace st ++
      (if defaults
       then map (fun j => EvWritePersistent j (cfg_def_value (cfg_at j))) (written true 0)
            ++ [EvInitializing; EvSrInit]
       else [EvLoadingConfigs; EvSrInit]) /\
    (forall i, 0 <= i <= NV_INDEX_END_SINGLES -> inits i = true ->
       accepts (cfg_set (cfg_at i)) (val i) ->
       (forall j, i < j <= NV_INDEX_END_SINGLES -> inits j = true ->
          apart (footprint (cfg_set (cfg_at i)) (cfg_target (cfg_at i)))
                (footprint (cfg_set (cfg_at j)) (cfg_target (cfg_at j)))) ->
       holds st' (cfg_set (cfg_at i)) (cfg_target (cfg_at i)) (val i)) /\
    (forall a,
       (forall j, 0 <= j <= NV_INDEX_END_SINGLES -> inits j = true ->
          a ∉ footprint (cfg_set (cfg_at j)) (cfg_target (cfg_at j))) ->
       ram st' a = ram st a).
Proof.
  intros Hlen Hend Hfp Hset Hfuel Hdef val.
  destruct (nv_reset_nvObj_list_body st Hlen) as (nv & Hp & Hnv & Hram & Hu & Hc & Hn & Ht).
  unfold config_init, config_init_with.
  destruct (nv_reset_nvObj_list st) as [st1 p]. simpl in Hp, Hnv, Hram, Hu, Hc, Hn, Ht.
  subst p.
  set (body := nv_body) in *.
  assert (Hnv1 : nv_list (set_units_mode MILLIMETERS st1) !! body = Some nv) by done.
  rewrite (node_upd_Some _ _ _ _ Hnv1). cbn [mbind option_bind].
  erewrite node_upd_Some by (by apply (lookup_set_same _ _ _ _ Hnv1)).
  cbn [mbind option_bind]. rewrite set_nv_list_twice. simpl nv_list.
  rewrite list_insert_insert_eq.
  set (nv2 := read_persistent_value _ _).
  set (st2 := set_nv_list (<[body := nv2]> (nv_list st1)) (set_units_mode MILLIMETERS st1)).
  assert (Hnv2 : nv_list st2 !! body = Some nv2).
  { subst st2. simpl. apply list_lookup_insert_eq. by eapply lookup_lt_Some. }
  change (<[body := nv2]> (nv_list st1) !! body) with (nv_list st2 !! body).
  rewrite Hnv2. cbn [mbind option_bind].
  assert (Hval2 : value nv2 = nvm st 0) by (subst nv2; simpl; by rewrite Hn).
  rewrite Hval2, Hdef.
  destruct defaults; subst val; cbn [negb].
  - (* defaults *)
    rewrite (node_upd_Some _ _ _ _ Hnv2). cbn [mbind option_bind].
    unfold set_defaults_with.
    set (nv3 := set_value one nv2).
    set (st3 := set_nv_list (<[body := nv3]> (nv_list st2)) st2).
    assert (Hnv3 : nv_list st3 !! body = Some nv3)
      by (by apply (lookup_set_same _ _ _ _ Hnv2)).
    rewrite Hnv3. cbn [mbind option_bind]. simpl value. rewrite Hfp.
    assert (Hnv3' : nv_list (set_units_mode MILLIMETERS st3) !! body = Some nv3) by done.
    rewrite (node_upd_Some _ _ _ _ Hnv3'). cbn [mbind option_bind].
    set (st4 := set_nv_list _ (set_units_mode MILLIMETERS st3)).
    destruct (set_defaults_loop_spec fuel body fuel st4 0 (set_index 0 nv3))
      as (st' & Hrun & L1 & L2 & L3 & L4 & L5 & L6 & L7 & L8 & L9).
    + by apply (lookup_set_same _ _ _ _ Hnv3').
    + done.
    + lia.
    + done.
    + done.
    + done.
    + replace (NV_INDEX_END_SINGLES + 1 - 0) with (NV_INDEX_END_SINGLES + 1) by lia. done.
    + rewrite Hrun. cbn [mbind option_bind snd].
      eexists. split; [reflexivity|]. simpl.
      split; [rewrite L4; subst st4 st3 st2; simpl; by rewrite !length_insert|].
      split; [by rewrite L2|]. split; [|split; [|split]].
      * intros j. rewrite L6. simpl. rewrite Hn.
        apply (f_equal (fun b : bool => if b then cfg_def_value (cfg_at j) else nvm st j)).
        apply bool_decide_ext. rewrite elem_of_written.
        split; [intros ?; by split | intros [_ ?]; done].
      * rewrite L7. simpl. rewrite Ht. by rewrite <- !app_assoc.
      * intros i Hi Hin Hacc Hfree.
        eapply holds_same_ram; [|by apply L8]. done.
      * intros a Hfree. rewrite L9 by done. simpl.
        unfold same_ram in Hram. by rewrite Hram.
  - (* the records are loaded *)
    assert (Hnv2' : nv_list (emit EvLoadingConfigs st2) !! body = Some nv2) by done.
    rewrite (node_upd_Some _ _ _ _ Hnv2'). cbn [mbind option_bind].
    set (st4 := set_nv_list _ (emit EvLoadingConfigs st2)).
    destruct (config_init_loop_spec fuel body (nvm st) fuel st4 0 (set_index 0 nv2))
      as (st' & Hrun & L1 & L2 & L3 & L4 & L5 & L6 & L7 & L8 & L9).
    + by apply (lookup_set_same _ _ _ _ Hnv2').
    + done.
    + lia.
    + done.
    + done.
    + done.
    + done.
    + replace (NV_INDEX_END_SINGLES + 1 - 0) with (NV_INDEX_END_SINGLES + 1) by lia. done.
    + rewrite Hrun. cbn [mbind option_bind].
      eexists. split; [reflexivity|]. simpl.
      split; [rewrite L4; subst st4 st2; simpl; by rewrite !length_insert|].
      split; [by rewrite L2|]. split; [|split; [|split]].
      * intros j. rewrite L6. simpl. by rewrite Hn.
      * rewrite L7. simpl. rewrite Ht, app_nil_r. by rewrite <- !app_assoc.
      * intros i Hi Hin Hacc Hfree.
        eapply holds_same_ram; [|by apply L8]. done.
      * intros a Hfree. rewrite L9 by done. simpl.
        unfold same_ram in Hram. by rewrite Hram.
Qed.

(** X22: booting twice.  When the first [config_init] finds a record 0
    that differs from the build number, and descriptor 0 is the build
    record (flagged INITIALIZE and PERSIST, its default the build
    number), the second [config_init] finds the build number in record
    0 and loads: it writes no record, and every location behind a
    descriptor flagged INITIALIZE and PERSIST holds its compiled
    default again, now read from the nonvolatile store, when the setter
    accepts it and no later initialized descriptor stores to a byte of
    the location. *)
Theorem config_init_second_boot (fuel : nat) (st : state) :
  (1 < length (nv_list st))%nat ->
  0 <= NV_INDEX_END_SINGLES < nv_index_max ->
  fp_FALSE one = false ->
  (forall i, 0 <= i <= NV_INDEX_END_SINGLES -> inits i = true ->
             is_Some (setter_fn (cfg_set (cfg_at i)))) ->
  (Z.to_nat (NV_INDEX_END_SINGLES + 1) < fuel)%nat ->
  eqb (nvm st 0) fw_build = false ->
  inits 0 = true -> persisted 0 = true ->
  eqb (cfg_def_value (cfg_at 0)) fw_build = true ->
  exists st1 st2,
    config_init fuel st = Some st1 /\
    config_init fuel st1 = Some st2 /\
    (forall j, nvm st2 j = nvm st1 j) /\
    trace st2 = trace st1 ++ [EvLoadingConfigs; EvSrInit] /\
    (forall i, 0 <= i <= NV_INDEX_END_SINGLES ->
       inits i = true -> persisted i = true ->
       nvm st2 i = cfg_def_value (cfg_at i) /\
       (accepts (cfg_set (cfg_at i)) (cfg_def_value (cfg_at i)) ->
        (forall j, i < j <= NV_INDEX_END_SINGLES -> inits j = true ->
           apart (footprint (cfg_set (cfg_at i)) (cfg_target (cfg_at i)))
                 (footprint (cfg_set (cfg_at j)) (cfg_target (cfg_at j)))) ->
        holds st2 (cfg_set (cfg_at i)) (cfg_target (cfg_at i)) (cfg_def_value (cfg_at i)))).
Proof.
  intros Hlen Hend Hfp Hset Hfuel Hdiff Hi0 Hp0 Hbuild.
  destruct (config_init_runs fuel st true Hlen ltac:(lia) Hfp Hset Hfuel)
    as (st1 & Hrun1 & Hlen1 & _ & Hnvm1 & _ & _ & _); [by rewrite Hdiff|].
  assert (Hrec : forall i, 0 <= i <= NV_INDEX_END_SINGLES ->
                   inits i = true -> persisted i = true ->
                   nvm st1 i = cfg_def_value (cfg_at i)).
  { intros i Hi Hin Hper. rewrite Hnvm1. by rewrite bool_decide_eq_true_2. }
  assert (Hlen1' : (1 < length (nv_list st1))%nat)
    by (rewrite Hlen1, length_nv_reset_nvObj_list; done).
  destruct (config_init_runs fuel st1 false Hlen1' ltac:(lia) Hfp Hset Hfuel)
    as (st2 & Hrun2 & _ & _ & Hnvm2 & Htr2 & Hh2 & _).
  { rewrite (Hrec 0) by (done || lia). by rewrite Hbuild. }
  assert (Hsame : forall j, nvm st2 j = nvm st1 j).
  { intros j. rewrite Hnvm2.
    rewrite bool_decide_eq_false_2; [done|]. by intros [? _]. }
  exists st1, st2. split; [done|]. split; [done|]. split; [done|]. split; [done|].
  intros i Hi Hin Hper. split; [by rewrite Hsame, Hrec|].
  intros Hacc Hfree. rewrite <- (Hrec i Hi Hin Hper).
  apply Hh2; try done. by rewrite (Hrec i Hi Hin Hper).
Qed.

(** *** Objects are appended in the order of the calls *)

Lemma nv_add_float_eq (st : state) (tok : list char_t) (v : float) (q : nat) (nvq : nvObj) :
  occupied_to (nv_list st) q -> (nv_body <= q <= NV_BODY_LEN)%nat ->
  nv_list st !! q = Some nvq -> valuetype nvq = TYPE_EMPTY ->
  nv_add_float st tok v =
    Some (Some q,
          set_nv_list (<[q := set_valuetype TYPE_FLOAT
                                (set_value v (set_token (strncpy (token nvq) tok TOKEN_LEN) nvq))]>
                         (nv_list st)) st).
Proof.
  intros Hocc Hq Hnvq He. unfold nv_add_float.
  rewrite (nv_add_loop_first_empty _ st q nvq) by done.
  pose proof (node_upd_thrice st q nvq
                (fun nv => set_token (strncpy (token nv) tok TOKEN_LEN) nv)
                (set_value v) (set_valuetype TYPE_FLOAT) Hnvq) as H3.
  cbn [mbind option_bind] in H3 |- *.
  destruct (node_upd st q _) as [st1|]; [|done]. cbn [mbind option_bind] in H3 |- *.
  destruct (node_upd st1 q _) as [st2|]; [|done]. cbn [mbind option_bind] in H3 |- *.
  by rewrite H3.
Qed.

Lemma nv_add_integer_eq (st : state) (tok : list char_t) (v : Z) (q : nat) (nvq : nvObj) :
  occupied_to (nv_list st) q -> (nv_body <= q <= NV_BODY_LEN)%nat ->
  nv_list st !! q = Some nvq -> valuetype nvq = TYPE_EMPTY ->
  nv_add_integer st tok v =
    Some (Some q,
          set_nv_list (<[q := set_valuetype TYPE_INTEGER
                                (set_value (of_Z v)
                                   (set_token (strncpy (token nvq) tok TOKEN_LEN) nvq))]>
                         (nv_list st)) st).
Proof.
  intros Hocc Hq Hnvq He. unfold nv_add_integer.
  rewrite (nv_add_loop_first_empty _ st q nvq) by done.
  pose proof (node_upd_thrice st q nvq
                (fun nv => set_token (strncpy (token nv) tok TOKEN_LEN) nv)
                (set_value (of_Z v)) (set_valuetype TYPE_INTEGER) Hnvq) as H3.
  cbn [mbind option_bind] in H3 |- *.
  destruct (node_upd st q _) as [st1|]; [|done]. cbn [mbind option_bind] in H3 |- *.
  destruct (node_upd st1 q _) as [st2|]; [|done]. cbn [mbind option_bind] in H3 |- *.
  by rewrite H3.
Qed.

(** X23: after [nv_reset_nvObj_list], objects are appended in the order
    of the calls.  [nv_add_float] writes and returns the first node of
    the body, the [nv_add_integer] that follows the second.  Both nodes
    are at depth 1 with index 0 and precision 0 and carry the values
    handed in; they are linked to each other; the header in front of
    them and the nodes behind them are as the reset left them.  The
    list has at least one node behind the two, and the body at least
    two nodes. *)
Theorem nv_add_after_reset (st : state) (t1 t2 : list char_t) (v1 : float) (v2 : Z) :
  (3 <= length (nv_list st))%nat -> (2 <= NV_BODY_LEN)%nat ->
  let st0 := (nv_reset_nvObj_list st).1 in
  exists st1 st2 n1 n2,
    nv_add_float st0 t1 v1 = Some (Some nv_body, st1) /\
    nv_add_integer st1 t2 v2 = Some (Some (S nv_body), st2) /\
    nv_list st2 !! nv_body = Some n1 /\ nv_list st2 !! S nv_body = Some n2 /\
    valuetype n1 = TYPE_FLOAT /\ value n1 = v1 /\
    valuetype n2 = TYPE_INTEGER /\ value n2 = of_Z v2 /\
    depth n1 = 1 /\ depth n2 = 1 /\ index n1 = 0 /\ index n2 = 0 /\
    precision n1 = 0 /\ precision n2 = 0 /\
    nx n1 = Some (S nv_body) /\ pv n2 = Some nv_body /\
    (forall q, q <> nv_body -> q <> S nv_body -> nv_list st2 !! q = nv_list st0 !! q) /\
    st2 = set_nv_list (nv_list st2) st0.
Proof.
  intros Hlen Hbody st0.
  assert (Hl0 : length (nv_list st0) = length (nv_list st))
    by apply length_nv_reset_nvObj_list.
  destruct (lookup_lt_is_Some_2 (nv_list st0) 1) as [o1 Ho1]; [lia|].
  destruct (lookup_lt_is_Some_2 (nv_list st0) 2) as [o2 Ho2]; [lia|].
  destruct (nv_reset_nvObj_list_nodes st 1 o1 Ho1) as (_ & Hnx1 & Hi1 & Hp1 & Hb1 & _).
  destruct (nv_reset_nvObj_list_nodes st 2 o2 Ho2) as (Hpv2 & _ & Hi2 & Hp2 & Hb2 & _).
  rewrite decide_False in Hnx1 by lia.
  rewrite decide_False in Hb1 by lia. rewrite decide_False in Hb2 by lia.
  destruct Hb1 as (He1 & Hd1 & _). destruct Hb2 as (He2 & Hd2 & _).
  clearbody st0.
  set (n1 := set_valuetype TYPE_FLOAT
               (set_value v1 (set_token (strncpy (token o1) t1 TOKEN_LEN) o1))).
  set (st1 := set_nv_list (<[1%nat := n1]> (nv_list st0)) st0).
  set (n2 := set_valuetype TYPE_INTEGER
               (set_value (of_Z v2) (set_token (strncpy (token o2) t2 TOKEN_LEN) o2))).
  set (st2 := set_nv_list (<[2%nat := n2]> (nv_list st1)) st1).
  assert (Hn1 : nv_list st1 !! 1%nat = Some n1)
    by (subst st1; simpl; apply list_lookup_insert_eq; lia).
  assert (Ho2' : nv_list st1 !! 2%nat = Some o2)
    by (subst st1; simpl; by rewrite list_lookup_insert_ne by lia).
  exists st1, st2, n1, n2. unfold nv_body in *.
  split.
  { apply (nv_add_float_eq st0 t1 v1 1 o1);
      [intros j Hj; unfold nv_body in Hj; lia | unfold nv_body; lia | done | done]. }
  split.
  { apply (nv_add_integer_eq st1 t2 v2 2 o2); [|unfold nv_body; lia | done | done].
    intros j Hj. unfold nv_body in Hj. assert (j = 1%nat) as -> by lia.
    exists n1. split; [done|]. split; [done | exact Hnx1]. }
  split; [subst st2; simpl; by rewrite list_lookup_insert_ne by lia|].
  split; [subst st2; simpl; apply list_lookup_insert_eq; rewrite length_insert; lia|].
  repeat (split; [done|]).
  split; [|reflexivity].
  intros q Hq1 Hq2. subst st2 st1. simpl.
  by rewrite !list_lookup_insert_ne by done.
Qed.
End Config.

(** ** The code on the small configuration *)

Local Abbreviation demo_cfg_at := (cfg_at Demo.cfgArray Demo.cfg_beyond).
Local Abbreviation demo_set_flu := (set_flu Demo.cfgArray Demo.cfg_beyond Demo.MM_PER_INCH).
Local Abbreviation demo_set_012 := (set_012 Demo.cfgArray Demo.cfg_beyond).
Local Abbreviation demo_nv_copy_string := (nv_copy_string Demo.NV_SHARED_STRING_LEN).
Local Abbreviation demo_nv_add_string :=
  (nv_add_string Demo.cfgArray Demo.NV_BODY_LEN Demo.NV_SHARED_STRING_LEN Demo.stack).
Local Abbreviation demo_nv_set :=
  (nv_set Demo.cfgArray Demo.cfg_beyond Demo.NV_INDEX_END_SINGLES Demo.NV_INDEX_START_GROUPS
          Demo.NV_MAX_OBJECTS Demo.MM_PER_INCH Demo.fp_FALSE false Demo.stack).
Local Abbreviation demo_nv_get :=
  (nv_get Demo.cfgArray Demo.cfg_beyond Demo.NV_INDEX_END_SINGLES Demo.NV_INDEX_START_GROUPS
          Demo.NV_MAX_OBJECTS Demo.MM_PER_INCH Demo.fp_FALSE false Demo.stack).
Local Abbreviation demo_get_grp :=
  (get_grp Demo.cfgArray Demo.cfg_beyond Demo.NV_INDEX_END_SINGLES Demo.NV_INDEX_START_GROUPS
           Demo.NV_MAX_OBJECTS Demo.MM_PER_INCH Demo.fp_FALSE false Demo.stack).
Local Abbreviation demo_config_init :=
  (config_init Demo.cfgArray Demo.cfg_beyond Demo.NV_INDEX_END_SINGLES
               Demo.NV_INDEX_START_GROUPS Demo.NV_MAX_OBJECTS Demo.MM_PER_INCH
               Demo.fp_FALSE Demo.fw_build false Demo.stack).

(** The list as [nv_reset_nvObj_list] leaves it, with the first body
    node changed to [nv]. *)
Local Abbreviation demo_with nv :=
  (set_nv_list (<[nv_body := nv]> (nv_list (nv_reset_nvObj_list Demo.power_on).1))
               (nv_reset_nvObj_list Demo.power_on).1).

(** C1: in inches mode [set_flu] multiplies the value of the node
    itself, where its description has the node keep the value the
    caller sent: a node sent with 1.0 for [xvm] comes back holding
    25.4, the value that went to the storage location. *)
Theorem set_flu_inches_overwrites_value :
  let st := set_units_mode INCHES Demo.power_on in
  let nv := set_value one (set_index 3 Demo.blank) in
  let r := demo_set_flu st nv in
  r.1.1 = STAT_OK /\
  ram_flt r.1.2 (cfg_target (demo_cfg_at 3)) = Demo.MM_PER_INCH /\
  value r.2 = Demo.MM_PER_INCH /\
  value r.2 <> value nv.
Proof.
  vm_compute. repeat split. discriminate.
Qed.

(** C3: a string that ends exactly on the last element of the shared
    string passes the test of [nv_copy_string], and its terminator is
    stored behind the array: with an empty shared string of 512
    elements and a string of 512 characters the call returns [STAT_OK],
    stores a terminator at offset 512 and leaves the write offset at
    513. *)
Theorem nv_copy_string_writes_behind_the_array :
  exists st',
    demo_nv_copy_string Demo.power_on nv_body (replicate 512 "a"%char)
      = Some (STAT_OK, st') /\
    length (string_buf (nvStr st')) = 512%nat /\
    spilled (nvStr st') = [(512%nat, NUL)] /\
    wp (nvStr st') = 513%nat.
Proof.
  eexists. split; [vm_compute; reflexivity|].
  vm_compute. repeat split.
Qed.

(** C4: the range-restricted setters test [value > bound] only.  On
    [xam], bound to [set_012], the value 1.5 is accepted and stored as
    1, and the value -1 is accepted and stored as 255; both are outside
    the legal values 0, 1, 2, and the check should have returned
    [STAT_INPUT_VALUE_UNSUPPORTED] and left the location alone. *)
Theorem set_012_accepts_illegal_values :
  let nv15 := set_value Demo.one_and_a_half (set_index 2 Demo.blank) in
  let nvm1 := set_value Demo.minus_one (set_index 2 Demo.blank) in
  ram_u8 Demo.power_on (cfg_target (demo_cfg_at 2)) = 0 /\
  (demo_set_012 Demo.power_on nv15).1.1 = STAT_OK /\
  ram_u8 (demo_set_012 Demo.power_on nv15).1.2 (cfg_target (demo_cfg_at 2)) = 1 /\
  (demo_set_012 Demo.power_on nvm1).1.1 = STAT_OK /\
  ram_u8 (demo_set_012 Demo.power_on nvm1).1.2 (cfg_target (demo_cfg_at 2)) = 255.
Proof.
  vm_compute. repeat split.
Qed.



(** C5: the failed add leaves its token behind.  With 510 of the 512
    elements of the shared string in use, adding the string "hello"
    under the token "msg" returns no node, and the first body node,
    still empty, now carries the token "msg". *)
Lemma nv_add_string_counterexample :
  let st0 := (nv_reset_nvObj_list Demo.power_on).1 in
  let st := set_nvStr (Build_nvStr_t 510 (string_buf (nvStr st0)) []) st0 in
  exists st',
    demo_nv_add_string st (lit "msg") (lit "hello") = Some (None, st') /\
    token <$> nv_list st !! nv_body = Some (replicate 6 NUL) /\
    token <$> nv_list st' !! nv_body = Some (lit "msg" ++ [NUL; NUL; NUL]) /\
    valuetype <$> nv_list st' !! nv_body = Some TYPE_EMPTY.
Proof.
  eexists. split; [vm_compute; reflexivity|].
  vm_compute. repeat split.
Qed.

(** C5 on the list as [nv_reset_nvObj_list] leaves it, with 510 of
    the 512 elements of the shared string in use: the first body node
    is the empty one. *)
Lemma nv_add_string_buffer_full_witness :
  let st0 := (nv_reset_nvObj_list Demo.power_on).1 in
  let st := set_nvStr (Build_nvStr_t 510 (string_buf (nvStr st0)) []) st0 in
  exists nv',
    demo_nv_add_string st (lit "msg") (lit "hello")
      = Some (None, set_nv_list (<[1%nat := nv']> (nv_list st)) st) /\
    chars (token nv') = lit "msg" /\
    valuetype nv' = TYPE_EMPTY /\ stringp nv' = None.
Proof.
  intros st0 st.
  destruct (nv_add_string_buffer_full Demo.cfgArray Demo.NV_BODY_LEN
              Demo.NV_SHARED_STRING_LEN Demo.stack st (lit "msg") (lit "hello")
              1%nat (default Demo.blank (nv_list st !! 1%nat)))
    as (nv' & Hrun & _ & Htok & Hty & _ & _ & Hsp & _).
  - intros j Hj. unfold nv_body in Hj. lia.
  - vm_compute. lia.
  - vm_compute. reflexivity.
  - vm_compute. reflexivity.
  - vm_compute. lia.
  - exists nv'. split; [exact Hrun|].
    split; [rewrite Htok by (vm_compute; reflexivity); vm_compute; reflexivity|].
    split; [exact Hty | rewrite Hsp; vm_compute; reflexivity].
Defined.

(** C7 on a node that carries [NO_MATCH]. *)
Lemma gatekeepers_check_the_index_witness :
  let st := demo_with (set_index NO_MATCH Demo.blank) in
  demo_nv_get 0 st nv_body = Some (STAT_INTERNAL_RANGE_ERROR, st) /\
  demo_nv_set 0 st nv_body = Some (STAT_INTERNAL_RANGE_ERROR, st) /\
  nv_print Demo.cfgArray Demo.cfg_beyond st nv_body = Some st /\
  nv_persist Demo.cfgArray Demo.cfg_beyond Demo.NV_INDEX_START_GROUPS false st nv_body
    = Some st.
Proof.
  intros st.
  apply (gatekeepers_check_the_index Demo.cfgArray Demo.cfg_beyond
           Demo.NV_INDEX_END_SINGLES Demo.NV_INDEX_START_GROUPS Demo.NV_MAX_OBJECTS
           Demo.MM_PER_INCH Demo.fp_FALSE false Demo.stack 0 st nv_body
           (set_index NO_MATCH Demo.blank)).
  - reflexivity.
  - vm_compute. discriminate.
  - vm_compute. reflexivity.
Defined.

(** C8 on the group "x" and the token "fr". *)
Lemma nv_get_index_first_match_witness :
  nv_get_index Demo.cfgArray Demo.stack (lit "x") (lit "fr") = 4.
Proof.
  rewrite (nv_get_index_first_match Demo.cfgArray Demo.stack (lit "x") (lit "fr")).
  - vm_compute. reflexivity.
  - apply (bool_decide_unpack _). vm_compute. reflexivity.
  - vm_compute. lia.
Defined.
(** C6: at the first boot of the small configuration (erased store) the
    descriptor [mt], flagged INITIALIZE but not PERSIST, gets its
    default 2 into its storage location and nothing into its record;
    and [fb], whose setter is [set_nul], gets no default into its
    location.  The records written are those of the descriptors flagged
    PERSIST as well, in table order. *)
Lemma config_init_counterexample :
  exists st',
    demo_config_init 20 Demo.power_on = Some st' /\
    inits Demo.cfgArray Demo.cfg_beyond 6 = true /\
    cfg_def_value (demo_cfg_at 6) = of_Z 2 /\
    ram_flt st' (cfg_target (demo_cfg_at 6)) = of_Z 2 /\
    nvm st' 6 = Demo.erased /\
    nvm st' 6 <> cfg_def_value (demo_cfg_at 6) /\
    inits Demo.cfgArray Demo.cfg_beyond 0 = true /\
    ram_flt st' (cfg_target (demo_cfg_at 0)) <> cfg_def_value (demo_cfg_at 0) /\
    trace st' = [EvWritePersistent 0 (of_Z 440); EvWritePersistent 1 (of_Z 1);
                 EvWritePersistent 2 (of_Z 1); EvWritePersistent 3 (of_Z 800);
                 EvWritePersistent 4 (of_Z 600); EvWritePersistent 5 (of_Z 700);
                 EvInitializing; EvSrInit].
Proof.
  eexists. split; [vm_compute; reflexivity|].
  vm_compute. repeat split; discriminate.
Qed.

Lemma config_init_sequencer_witness :
  exists st',
    demo_config_init 20 Demo.power_on = Some st' /\
    units_mode st' = MILLIMETERS /\
    nvm st' 3 = of_Z 800 /\
    nvm st' 6 = nvm Demo.power_on 6 /\
    ram_flt st' (cfg_target (demo_cfg_at 3)) = of_Z 800.
Proof.
  destruct (config_init_sequencer Demo.cfgArray Demo.cfg_beyond
              Demo.NV_INDEX_END_SINGLES Demo.NV_INDEX_START_GROUPS Demo.NV_MAX_OBJECTS
              Demo.MM_PER_INCH Demo.fp_FALSE Demo.fw_build false Demo.stack
              20 Demo.power_on)
    as (st' & Hrun & Hmm & Hnvm & _ & Hram & _).
  - vm_compute. lia.
  - vm_compute. reflexivity.
  - vm_compute. reflexivity.
  - intros i Hi _. unfold Demo.NV_INDEX_END_SINGLES in Hi.
    assert (i = 0 \/ i = 1 \/ i = 2 \/ i = 3 \/ i = 4 \/ i = 5 \/ i = 6 \/ i = 7)
      as [->|[->|[->|[->|[->|[->|[->| ->]]]]]]] by lia;
      eexists; reflexivity.
  - vm_compute. lia.
  - exists st'. split; [exact Hrun|]. split; [exact Hmm|].
    split; [|split].
    + rewrite Hnvm. rewrite bool_decide_eq_true_2; [reflexivity|].
      vm_compute. repeat split; discriminate.
    + rewrite Hnvm. rewrite bool_decide_eq_false_2; [reflexivity|].
      vm_compute. intros (_ & _ & _ & ?). discriminate.
    + apply (Hram 3).
      * vm_compute. split; discriminate.
      * vm_compute. reflexivity.
      * exact I.
      * intros j Hj _. unfold Demo.NV_INDEX_END_SINGLES in Hj.
        assert (j = 4 \/ j = 5 \/ j = 6 \/ j = 7) as [->|[->|[->| ->]]] by lia;
          apply (bool_decide_unpack _); vm_compute; reflexivity.
Defined.

(** C9 on the group "x": the parent in the first body node, the
    children [xam], [xvm] and [xfr] behind it. *)
Lemma get_grp_expands_witness :
  let parent := set_token (lit "x" ++ replicate 5 NUL) (set_depth 1 Demo.blank) in
  let st := demo_with parent in
  exists st' c,
    demo_get_grp 0 st nv_body = Some (STAT_OK, st') /\
    valuetype <$> nv_list st' !! nv_body = Some TYPE_PARENT /\
    nv_list st' !! 2%nat = Some c /\
    index c = 2 /\ depth c = 2 /\
    chars (token c) = lit "am" /\ chars (group c) = lit "x".
Proof.
  intros parent st.
  destruct (get_grp_expands Demo.cfgArray Demo.cfg_beyond
              Demo.NV_INDEX_END_SINGLES Demo.NV_INDEX_START_GROUPS Demo.NV_MAX_OBJECTS
              Demo.MM_PER_INCH Demo.fp_FALSE false Demo.stack 0 st nv_body parent)
    as (st' & Hrun & _ & Hpar & _ & Hkids).
  - vm_compute. reflexivity.
  - vm_compute. split; discriminate || reflexivity.
  - intros i Hi. unfold Demo.NV_INDEX_END_SINGLES in Hi.
    assert (i = 0 \/ i = 1 \/ i = 2 \/ i = 3 \/ i = 4 \/ i = 5 \/ i = 6 \/ i = 7)
      as [->|[->|[->|[->|[->|[->|[->| ->]]]]]]] by lia;
      apply (bool_decide_unpack _); vm_compute; reflexivity.
  - intros i Hi.
    assert (Hmax : nv_index_max Demo.cfgArray = 11) by reflexivity.
    rewrite Hmax in Hi. unfold Demo.NV_INDEX_END_SINGLES in Hi.
    assert (i = 8 \/ i = 9 \/ i = 10) as [->|[->| ->]] by lia;
      vm_compute; discriminate.
  - intros i Hi. vm_compute in Hi.
    apply list_elem_of_In in Hi. simpl in Hi.
    destruct Hi as [<-|[<-|[<-|[]]]]; eexists; reflexivity.
  - vm_compute. lia.
  - intros q o Hq Ho.
    change (nv_list st)
      with (<[nv_body := parent]> (nv_list (nv_reset_nvObj_list Demo.power_on).1)) in Ho.
    rewrite list_lookup_insert_ne in Ho by (unfold nv_body in *; lia).
    destruct (nv_reset_nvObj_list_links _ _ _ Ho) as (Hpv & _ & _ & o' & Ho' & Hlt & Hlg);
      [lia|].
    apply lookup_replicate in Ho' as [-> _].
    split; [done|]. rewrite Hlt, Hlg. split; reflexivity.
  - destruct (Hkids 0%nat 2) as (c & g & c0 & Hc & _ & _ & _ & _ & _ & _ & Hi & Hd & Ht & Hg).
    { vm_compute. reflexivity. }
    exists st', c. split; [exact Hrun|].
    split; [by rewrite Hpar|]. split; [exact Hc|].
    split; [exact Hi|].
    split; [rewrite Hd; vm_compute; reflexivity|].
    split; [rewrite Ht; vm_compute; reflexivity | rewrite Hg; vm_compute; reflexivity].
Defined.

(** ** The rest of the code on the small configuration *)

(** The variables after [nv_reset_nvObj_list], and the nodes of the
    list then. *)
Local Abbreviation demo_fresh := ((nv_reset_nvObj_list Demo.power_on).1).
Local Abbreviation demo_node q := (default Demo.blank (nv_list demo_fresh !! q)).

Local Abbreviation demo_nv_add_object :=
  (nv_add_object Demo.cfgArray Demo.cfg_beyond Demo.NV_INDEX_END_SINGLES
                 Demo.NV_INDEX_START_GROUPS Demo.NV_BODY_LEN Demo.NV_MAX_OBJECTS
                 Demo.MM_PER_INCH Demo.fp_FALSE false Demo.stack).
Local Abbreviation demo_set_grp :=
  (set_grp Demo.cfgArray Demo.cfg_beyond Demo.NV_INDEX_END_SINGLES Demo.NV_INDEX_START_GROUPS
           Demo.NV_MAX_OBJECTS Demo.MM_PER_INCH Demo.fp_FALSE false Demo.stack).
Local Abbreviation demo_set_defaults :=
  (set_defaults Demo.cfgArray Demo.cfg_beyond Demo.NV_INDEX_END_SINGLES
                Demo.NV_INDEX_START_GROUPS Demo.NV_MAX_OBJECTS Demo.MM_PER_INCH
                Demo.fp_FALSE false Demo.stack).
Local Abbreviation demo_nv_get_nvObj :=
  (nv_get_nvObj Demo.cfgArray Demo.cfg_beyond Demo.NV_INDEX_END_SINGLES
                Demo.NV_INDEX_START_GROUPS Demo.NV_MAX_OBJECTS Demo.MM_PER_INCH
                Demo.fp_FALSE false Demo.stack).

(** X3: the integer 42 under the token "n", added to the list as the
    reset leaves it. *)
Lemma nv_add_integer_first_empty_witness :
  exists nv',
    nv_add_integer Demo.NV_BODY_LEN demo_fresh (lit "n") 42
      = Some (Some 1%nat, set_nv_list (<[1%nat := nv']> (nv_list demo_fresh)) demo_fresh) /\
    valuetype nv' = TYPE_INTEGER /\ to_u32 (value nv') = 42 /\
    chars (token nv') = lit "n".
Proof.
  destruct (nv_add_integer_first_empty Demo.NV_BODY_LEN demo_fresh (lit "n") 42 1
              (demo_node 1%nat))
    as (nv' & H1 & H2 & H3 & H4 & _).
  - apply (bool_decide_unpack _). vm_compute. reflexivity.
  - vm_compute. lia.
  - vm_compute. reflexivity.
  - vm_compute. reflexivity.
  - vm_compute. reflexivity.
  - vm_compute. reflexivity.
  - lia.
  - exists nv'. split; [exact H1|]. split; [exact H2|]. split; [exact H3|].
    rewrite H4. vm_compute. reflexivity.
Defined.

(** X4: a list whose body is in use from the first to the last
    node. *)
Lemma nv_add_to_full_body_witness :
  let st := set_nv_list
              (imap (fun i nv => if bool_decide (1 <= i <= 30)%nat
                                 then set_valuetype TYPE_INTEGER nv else nv)
                    (nv_list demo_fresh)) demo_fresh in
  demo_nv_add_object 0 st (lit "xvm") = Some (None, st) /\
  nv_add_integer Demo.NV_BODY_LEN st (lit "xvm") 1 = Some (None, st) /\
  nv_add_data Demo.NV_BODY_LEN st (lit "xvm") 1 = Some (None, st) /\
  nv_add_float Demo.NV_BODY_LEN st (lit "xvm") zero = Some (None, st) /\
  demo_nv_add_string st (lit "xvm") (lit "hello") = Some (None, st).
Proof.
  intros st.
  apply (nv_add_to_full_body Demo.cfgArray Demo.cfg_beyond Demo.NV_INDEX_END_SINGLES
           Demo.NV_INDEX_START_GROUPS Demo.NV_BODY_LEN Demo.NV_MAX_OBJECTS
           Demo.NV_SHARED_STRING_LEN Demo.MM_PER_INCH Demo.fp_FALSE false Demo.stack
           0 st (lit "xvm") (lit "hello") 1 zero).
  apply (bool_decide_unpack _). vm_compute. reflexivity.
Defined.

(** X5: the token "zz" is not in the table. *)
Lemma nv_add_object_unknown_token_witness :
  demo_nv_add_object 0 demo_fresh (lit "zz")
  = Some (None, set_nv_list (<[1%nat := set_index NO_MATCH (demo_node 1%nat)]>
                               (nv_list demo_fresh)) demo_fresh).
Proof.
  apply (nv_add_object_unknown_token Demo.cfgArray Demo.cfg_beyond
           Demo.NV_INDEX_END_SINGLES Demo.NV_INDEX_START_GROUPS Demo.NV_BODY_LEN
           Demo.NV_MAX_OBJECTS Demo.MM_PER_INCH Demo.fp_FALSE false Demo.stack
           0 demo_fresh (lit "zz") 1 (demo_node 1%nat)).
  - apply (bool_decide_unpack _). vm_compute. reflexivity.
  - vm_compute. lia.
  - vm_compute. reflexivity.
  - vm_compute. reflexivity.
  - vm_compute. reflexivity.
Defined.

(** X6: the token "xvm" resolves to index 3, a length read by
    [get_flu]; the node shows the token "vm" in the group "x". *)
Lemma nv_add_object_known_token_witness :
  exists nv',
    demo_nv_add_object 0 demo_fresh (lit "xvm")
      = Some (Some 1%nat, set_nv_list (<[1%nat := nv']> (nv_list demo_fresh)) demo_fresh) /\
    index nv' = 3 /\ depth nv' = 1 /\
    chars (token nv') = lit "vm" /\ chars (group nv') = lit "x".
Proof.
  destruct (nv_add_object_known_token Demo.cfgArray Demo.cfg_beyond
              Demo.NV_INDEX_END_SINGLES Demo.NV_INDEX_START_GROUPS Demo.NV_BODY_LEN
              Demo.NV_MAX_OBJECTS Demo.MM_PER_INCH Demo.fp_FALSE false Demo.stack
              0 demo_fresh (lit "xvm") 1 0 (demo_node 1%nat) (demo_node 0%nat) 3
              (get_flu Demo.cfgArray Demo.cfg_beyond))
    as (nv' & c0 & Hrun & _ & _ & _ & _ & _ & Hi & Hd & Ht & Hg & _).
  - apply (bool_decide_unpack _). vm_compute. reflexivity.
  - vm_compute. lia.
  - vm_compute. reflexivity.
  - vm_compute. reflexivity.
  - vm_compute. reflexivity.
  - vm_compute. reflexivity.
  - discriminate.
  - vm_compute. reflexivity.
  - vm_compute. reflexivity.
  - vm_compute. reflexivity.
  - vm_compute. split; discriminate || reflexivity.
  - vm_compute. discriminate.
  - apply (bool_decide_unpack _). vm_compute. reflexivity.
  - reflexivity.
  - exists nv'. split; [exact Hrun|]. split; [exact Hi|].
    split; [rewrite Hd; vm_compute; reflexivity|].
    split; [rewrite Ht; vm_compute; reflexivity | rewrite Hg; vm_compute; reflexivity].
Defined.

(** X7: the string "hello" copied to the empty shared string. *)
Lemma nv_copy_string_reads_back_witness :
  exists st',
    demo_nv_copy_string demo_fresh 1%nat (lit "hello") = Some (STAT_OK, st') /\
    chars (drop 0 (string_buf (nvStr st'))) = lit "hello" /\
    wp (nvStr st') = 6%nat.
Proof.
  destruct (nv_copy_string_reads_back Demo.NV_SHARED_STRING_LEN demo_fresh 1
              (lit "hello") (demo_node 1%nat))
    as (st' & Hrun & _ & Hrd & Hwp & _).
  - vm_compute. reflexivity.
  - vm_compute. reflexivity.
  - vm_compute. lia.
  - exists st'. split; [exact Hrun|]. split; [exact Hrd | exact Hwp].
Defined.

(** X8: the same copy is not refused. *)
Lemma nv_copy_string_status_witness :
  exists r st',
    demo_nv_copy_string demo_fresh 1%nat (lit "hello") = Some (r, st') /\
    r = STAT_OK /\ wp (nvStr st') = 6%nat.
Proof.
  destruct (nv_copy_string_status Demo.NV_SHARED_STRING_LEN demo_fresh 1
              (lit "hello") (demo_node 1%nat))
    as (r & st' & Hrun & Hfull & _ & Hok).
  - vm_compute. reflexivity.
  - exists r, st'. split; [exact Hrun|]. apply Hok.
    intros Hr. apply Hfull in Hr. vm_compute in Hr. lia.
Defined.

(** X9: the string "hello" under the token "msg". *)
Lemma nv_add_string_adds_witness :
  exists st' nv',
    demo_nv_add_string demo_fresh (lit "msg") (lit "hello") = Some (Some 1%nat, st') /\
    nv_list st' = <[1%nat := nv']> (nv_list demo_fresh) /\
    valuetype nv' = TYPE_STRING /\ stringp nv' = Some 0%nat /\
    chars (drop 0 (string_buf (nvStr st'))) = lit "hello".
Proof.
  destruct (nv_add_string_adds Demo.cfgArray Demo.NV_BODY_LEN Demo.NV_SHARED_STRING_LEN
              Demo.stack demo_fresh (lit "msg") (lit "hello") 1 (demo_node 1%nat))
    as (st' & nv' & Hrun & Hl & Hty & _ & _ & Hsp & Hrd & _).
  - apply (bool_decide_unpack _). vm_compute. reflexivity.
  - vm_compute. lia.
  - vm_compute. reflexivity.
  - vm_compute. reflexivity.
  - vm_compute. reflexivity.
  - vm_compute. lia.
  - exists st', nv'. split; [exact Hrun|]. split; [exact Hl|]. split; [exact Hty|].
    split; [exact Hsp | exact Hrd].
Defined.

(** X11: a message that is echoed. *)
Lemma nv_add_conditional_message_cases_witness :
  exists st' nv',
    nv_add_conditional_message Demo.cfgArray Demo.NV_BODY_LEN Demo.NV_SHARED_STRING_LEN
      Demo.stack true demo_fresh (lit "hello") = Some (Some 1%nat, st') /\
    nv_list st' !! 1%nat = Some nv' /\
    nv_get_type nv' = NV_TYPE_MESSAGE.
Proof.
  pose proof (nv_add_conditional_message_cases Demo.cfgArray Demo.NV_BODY_LEN
                Demo.NV_SHARED_STRING_LEN Demo.stack true demo_fresh (lit "hello")
                1 (demo_node 1%nat)) as H.
  rewrite bool_decide_eq_false_2 in H by (intros [_ ?]; discriminate).
  destruct H as (st' & nv' & Hrun & Hnv & Hty & _).
  - apply (bool_decide_unpack _). vm_compute. reflexivity.
  - vm_compute. lia.
  - vm_compute. reflexivity.
  - vm_compute. reflexivity.
  - vm_compute. reflexivity.
  - vm_compute. reflexivity.
  - vm_compute. reflexivity.
  - vm_compute. lia.
  - exists st', nv'. split; [exact Hrun|]. split; [exact Hnv | exact Hty].
Defined.

(** X13: the entry [xvm] is found by its token. *)
Lemma nv_get_index_own_token_witness :
  nv_get_index Demo.cfgArray Demo.stack [] (cfg_token (demo_cfg_at 3)) = 3.
Proof.
  apply (nv_get_index_own_token Demo.cfgArray Demo.stack 3 (demo_cfg_at 3)).
  - apply (bool_decide_unpack _). vm_compute. reflexivity.
  - apply (bool_decide_unpack _). vm_compute. reflexivity.
  - reflexivity.
Defined.

(** X14: a node set up from index 3 shows "vm" in the group "x", and
    the two resolve to 3. *)
Lemma nv_get_nvObj_resolves_back_witness :
  let st := demo_with (set_index 3 (demo_node 1%nat)) in
  exists st' nv',
    demo_nv_get_nvObj 0 st 1%nat = Some st' /\
    nv_list st' !! 1%nat = Some nv' /\
    index nv' = 3 /\
    nv_get_index Demo.cfgArray Demo.stack (group nv') (token nv') = 3.
Proof.
  intros st.
  destruct (nv_get_nvObj_resolves_back Demo.cfgArray Demo.cfg_beyond
              Demo.NV_INDEX_END_SINGLES Demo.NV_INDEX_START_GROUPS Demo.NV_MAX_OBJECTS
              Demo.MM_PER_INCH Demo.fp_FALSE false Demo.stack 0 st 1 0
              (set_index 3 (demo_node 1%nat)) (demo_node 0%nat)
              (get_flu Demo.cfgArray Demo.cfg_beyond))
    as (st' & nv' & Hrun & Hnv & Hi & Hback).
  - vm_compute. reflexivity.
  - vm_compute. split; discriminate || reflexivity.
  - vm_compute. reflexivity.
  - vm_compute. reflexivity.
  - vm_compute. reflexivity.
  - vm_compute. reflexivity.
  - apply (bool_decide_unpack _). vm_compute. reflexivity.
  - apply (bool_decide_unpack _). vm_compute. reflexivity.
  - apply (bool_decide_unpack _). vm_compute. reflexivity.
  - apply (bool_decide_unpack _). vm_compute. reflexivity.
  - reflexivity.
  - exists st', nv'. split; [exact Hrun|]. split; [exact Hnv|].
    split; [exact Hi | exact Hback].
Defined.



(** X16: the word 0x7FA00001, the pattern of a signalling NaN, is
    carried by the node bit for bit. *)
Lemma nv_add_data_first_empty_witness :
  exists nv',
    nv_add_data Demo.NV_BODY_LEN demo_fresh (lit "ck") 2141192193
      = Some (Some 1%nat, set_nv_list (<[1%nat := nv']> (nv_list demo_fresh)) demo_fresh) /\
    valuetype nv' = TYPE_DATA /\ to_bits (value nv') = 2141192193 /\
    chars (token nv') = lit "ck".
Proof.
  destruct (nv_add_data_first_empty Demo.NV_BODY_LEN demo_fresh (lit "ck") 2141192193 1
              (demo_node 1%nat))
    as (nv' & H1 & H2 & H3 & H4 & _).
  - apply (bool_decide_unpack _). vm_compute. reflexivity.
  - vm_compute. lia.
  - vm_compute. reflexivity.
  - vm_compute. reflexivity.
  - vm_compute. lia.
  - lia.
  - exists nv'. split; [exact H1|]. split; [exact H2|]. split; [exact H3|].
    rewrite H4. vm_compute. reflexivity.
Defined.

(** X17: reading [xvm]. *)
Lemma nv_get_only_reads_witness :
  let st := demo_with (set_index 3 (demo_node 1%nat)) in
  exists nv',
    demo_nv_get 0 st 1%nat
      = Some (STAT_OK, set_nv_list (<[1%nat := nv']> (nv_list st)) st) /\
    index nv' = 3.
Proof.
  intros st.
  destruct (nv_get_only_reads Demo.cfgArray Demo.cfg_beyond
              Demo.NV_INDEX_END_SINGLES Demo.NV_INDEX_START_GROUPS Demo.NV_MAX_OBJECTS
              Demo.MM_PER_INCH Demo.fp_FALSE false Demo.stack 0 st 1
              (set_index 3 (demo_node 1%nat)) (get_flu Demo.cfgArray Demo.cfg_beyond))
    as (r & nv' & Hrun & Hr & _ & _ & Hi & _).
  - vm_compute. reflexivity.
  - vm_compute. split; discriminate || reflexivity.
  - reflexivity.
  - exists nv'. split; [|exact Hi].
    rewrite Hrun. rewrite Hr. reflexivity.
Defined.

(** X18: setting [xam] to 2 stores to the byte of [xam]; the byte of
    [gun] in front of it, the bytes of [xvm] behind it and the records
    stay. *)
Lemma nv_set_stores_to_one_location_witness :
  let st := demo_with (set_value (of_Z 2) (set_index 2 (demo_node 1%nat))) in
  exists r st',
    demo_nv_set 0 st 1%nat = Some (r, st') /\
    nvm st' = nvm st /\ trace st' = trace st /\
    ram st' 4 = ram st 4 /\ ram st' 8 = ram st 8.
Proof.
  intros st.
  destruct (nv_set_stores_to_one_location Demo.cfgArray Demo.cfg_beyond
              Demo.NV_INDEX_END_SINGLES Demo.NV_INDEX_START_GROUPS Demo.NV_MAX_OBJECTS
              Demo.MM_PER_INCH Demo.fp_FALSE false Demo.stack 0 st 1
              (set_value (of_Z 2) (set_index 2 (demo_node 1%nat)))
              (set_012 Demo.cfgArray Demo.cfg_beyond))
    as (r & st' & Hrun & _ & Hnvm & Htr & _ & _ & _ & _ & Hram).
  - vm_compute. reflexivity.
  - vm_compute. split; discriminate || reflexivity.
  - reflexivity.
  - exists r, st'. split; [exact Hrun|]. split; [exact Hnvm|]. split; [exact Htr|].
    split; apply Hram; apply (bool_decide_unpack _); vm_compute; reflexivity.
Defined.

(** A parent in the first node of the body with one member behind
    it. *)
Local Abbreviation demo_family child :=
  (set_nv_list (<[2%nat := child]>
                  (<[1%nat := set_valuetype TYPE_PARENT (demo_node 1%nat)]>
                     (nv_list demo_fresh))) demo_fresh).

(** X19: the group "x" with the member [xvm] at 1000. *)
Lemma set_grp_sets_member_witness :
  let child := set_valuetype TYPE_FLOAT (set_value (of_Z 1000) (set_index 3 (demo_node 2%nat))) in
  let st := demo_family child in
  exists st',
    demo_set_grp 0 st 1%nat = Some (STAT_OK, st') /\
    ram_flt st' (cfg_target (demo_cfg_at 3)) = of_Z 1000 /\
    nvm st' 3 = of_Z 1000.
Proof.
  intros child st.
  destruct (set_grp_sets_member Demo.cfgArray Demo.cfg_beyond
              Demo.NV_INDEX_END_SINGLES Demo.NV_INDEX_START_GROUPS Demo.NV_MAX_OBJECTS
              Demo.MM_PER_INCH Demo.fp_FALSE false Demo.stack 0 st 1 2
              (set_valuetype TYPE_PARENT (demo_node 1%nat)) child
              (set_flu Demo.cfgArray Demo.cfg_beyond Demo.MM_PER_INCH))
    as (st' & Hrun & Hh & Hnvm & _).
  - reflexivity.
  - vm_compute. lia.
  - vm_compute. reflexivity.
  - vm_compute. reflexivity.
  - vm_compute. reflexivity.
  - vm_compute. discriminate.
  - vm_compute. discriminate.
  - vm_compute. split; discriminate || reflexivity.
  - reflexivity.
  - apply (bool_decide_unpack _). vm_compute. reflexivity.
  - reflexivity.
  - exact I.
  - exists st'. split; [exact Hrun|]. split; [exact Hh|].
    rewrite Hnvm. vm_compute. reflexivity.
Defined.

(** X20: the group "sys" with the member [gun] at 5, which [set_01]
    rejects. *)
Lemma set_grp_persists_rejected_value_witness :
  let child := set_valuetype TYPE_INTEGER (set_value (of_Z 5) (set_index 1 (demo_node 2%nat))) in
  let st := demo_family child in
  exists st',
    demo_set_grp 0 st 1%nat = Some (STAT_OK, st') /\
    ram st' = ram st /\
    nvm st' = upd (nvm st) 1 (of_Z 5).
Proof.
  intros child st.
  destruct (set_grp_persists_rejected_value Demo.cfgArray Demo.cfg_beyond
              Demo.NV_INDEX_END_SINGLES Demo.NV_INDEX_START_GROUPS Demo.NV_MAX_OBJECTS
              Demo.MM_PER_INCH Demo.fp_FALSE false Demo.stack 0 st 1 2
              (set_valuetype TYPE_PARENT (demo_node 1%nat)) child
              (set_01 Demo.cfgArray Demo.cfg_beyond))
    as (_ & st' & Hrun & H8 & _ & Hnvm & _).
  - reflexivity.
  - vm_compute. lia.
  - vm_compute. reflexivity.
  - vm_compute. reflexivity.
  - vm_compute. reflexivity.
  - vm_compute. discriminate.
  - vm_compute. discriminate.
  - vm_compute. split; discriminate || reflexivity.
  - reflexivity.
  - apply (bool_decide_unpack _). vm_compute. reflexivity.
  - intros H. vm_compute in H. discriminate.
  - vm_compute. reflexivity.
  - exists st'. split; [exact Hrun|]. split; [exact H8 | exact Hnvm].
Defined.

(** X21: [set_defaults] with the value 1, called in inches mode. *)
Lemma set_defaults_resets_witness :
  let st := set_units_mode INCHES (demo_with (set_value one (demo_node 1%nat))) in
  exists st',
    demo_set_defaults 20 st 1%nat = Some (STAT_OK, st') /\
    units_mode st' = MILLIMETERS /\
    nvm st' 3 = of_Z 800 /\
    ram_flt st' (cfg_target (demo_cfg_at 3)) = of_Z 800.
Proof.
  intros st.
  pose proof (set_defaults_resets Demo.cfgArray Demo.cfg_beyond
                Demo.NV_INDEX_END_SINGLES Demo.NV_INDEX_START_GROUPS Demo.NV_MAX_OBJECTS
                Demo.MM_PER_INCH Demo.fp_FALSE false Demo.stack 20 st 1
                (set_value one (demo_node 1%nat))) as H.
  assert (Hfp : Demo.fp_FALSE (value (set_value one (demo_node 1%nat))) = false)
    by (vm_compute; reflexivity).
  rewrite Hfp in H.
  destruct H as (st' & Hrun & Hmm & Hnvm & _ & Hram & _).
  - vm_compute. reflexivity.
  - vm_compute. reflexivity.
  - intros i Hi _. unfold Demo.NV_INDEX_END_SINGLES in Hi.
    assert (i = 0 \/ i = 1 \/ i = 2 \/ i = 3 \/ i = 4 \/ i = 5 \/ i = 6 \/ i = 7)
      as [->|[->|[->|[->|[->|[->|[->| ->]]]]]]] by lia;
      eexists; reflexivity.
  - vm_compute. lia.
  - exists st'. split; [exact Hrun|]. split; [exact Hmm|]. split.
    + rewrite Hnvm. rewrite bool_decide_eq_true_2; [reflexivity|].
      vm_compute. repeat split; discriminate.
    + apply (Hram 3).
      * vm_compute. split; discriminate.
      * vm_compute. reflexivity.
      * exact I.
      * intros j Hj _. unfold Demo.NV_INDEX_END_SINGLES in Hj.
        assert (j = 4 \/ j = 5 \/ j = 6 \/ j = 7) as [->|[->|[->| ->]]] by lia;
          apply (bool_decide_unpack _); vm_compute; reflexivity.
Defined.

(** X22: two hard resets from an erased nonvolatile store. *)
Lemma config_init_second_boot_witness :
  exists st1 st2,
    demo_config_init 20 Demo.power_on = Some st1 /\
    demo_config_init 20 st1 = Some st2 /\
    trace st2 = trace st1 ++ [EvLoadingConfigs; EvSrInit] /\
    nvm st2 3 = of_Z 800 /\
    ram_flt st2 (cfg_target (demo_cfg_at 3)) = of_Z 800.
Proof.
  destruct (config_init_second_boot Demo.cfgArray Demo.cfg_beyond
              Demo.NV_INDEX_END_SINGLES Demo.NV_INDEX_START_GROUPS Demo.NV_MAX_OBJECTS
              Demo.MM_PER_INCH Demo.fp_FALSE Demo.fw_build false Demo.stack
              20 Demo.power_on)
    as (st1 & st2 & H1 & H2 & _ & Htr & Hrec).
  - vm_compute. lia.
  - vm_compute. split; discriminate || reflexivity.
  - vm_compute. reflexivity.
  - intros i Hi _. unfold Demo.NV_INDEX_END_SINGLES in Hi.
    assert (i = 0 \/ i = 1 \/ i = 2 \/ i = 3 \/ i = 4 \/ i = 5 \/ i = 6 \/ i = 7)
      as [->|[->|[->|[->|[->|[->|[->| ->]]]]]]] by lia;
      eexists; reflexivity.
  - vm_compute. lia.
  - vm_compute. reflexivity.
  - vm_compute. reflexivity.
  - vm_compute. reflexivity.
  - vm_compute. reflexivity.
  - destruct (Hrec 3) as [Hnvm Hram].
    + vm_compute. split; discriminate.
    + vm_compute. reflexivity.
    + vm_compute. reflexivity.
    + exists st1, st2. split; [exact H1|]. split; [exact H2|]. split; [exact Htr|].
      split; [exact Hnvm|]. apply Hram; [exact I|].
      intros j Hj _. unfold Demo.NV_INDEX_END_SINGLES in Hj.
      assert (j = 4 \/ j = 5 \/ j = 6 \/ j = 7) as [->|[->|[->| ->]]] by lia;
        apply (bool_decide_unpack _); vm_compute; reflexivity.
Defined.

(** X23: 1.5 under "a" and 7 under "b", added after a reset. *)
Lemma nv_add_after_reset_witness :
  exists st1 st2 n1 n2,
    nv_add_float Demo.NV_BODY_LEN demo_fresh (lit "a") Demo.one_and_a_half
      = Some (Some 1%nat, st1) /\
    nv_add_integer Demo.NV_BODY_LEN st1 (lit "b") 7 = Some (Some 2%nat, st2) /\
    nv_list st2 !! 1%nat = Some n1 /\ nv_list st2 !! 2%nat = Some n2 /\
    value n1 = Demo.one_and_a_half /\ value n2 = of_Z 7 /\
    nx n1 = Some 2%nat /\ pv n2 = Some 1%nat.
Proof.
  destruct (nv_add_after_reset Demo.NV_BODY_LEN Demo.power_on (lit "a") (lit "b")
              Demo.one_and_a_half 7)
    as (st1 & st2 & n1 & n2 & H1 & H2 & H3 & H4 & _ & Hv1 & _ & Hv2 & _ & _ & _ & _
        & _ & _ & Hnx & Hpv & _).
  - vm_compute. lia.
  - vm_compute. lia.
  - exists st1, st2, n1, n2. repeat (split; [assumption|]). assumption.
Defined.
